(** * Price-list extraction and reconciliation: a shallow embedding

    The development follows the Python sources of the repository:
    [ai_matcher.py] (identifier normalisation, tie-break and catalog
    matching, parse of the model's answer, batches),
    [gemini_parser.py] (cost cleaning, the id formats, the CSV answer of
    the model), [vendors/base_parser.py], [vendors/kruse_sons.py],
    [vendors/rw_zant.py] (cost cleaning, table rows and text lines),
    [pdf_processor.py] (the strategy cascade of [process_pdf] and the
    strategies that read tables, text and OCR output) and [app.py] (file
    names, vendor detection and the export of products with several
    prices).

    Conventions.
    - A Python [str] is a list of characters ([pystr]).  The character
      type is Rocq's 8-bit [ascii]; the character predicates ([\d], [\s],
      [\w], [str.upper], [str.isalpha] ...) are the Python ones on the code
      points below 128, which is the alphabet of product ids, costs and
      catalog ids.  Characters from 128 on are kept as they are and belong
      to no class.
    - [re] patterns are terms of a small regular-expression syntax, run by a
      backtracking matcher with the priority order of Python's [re]
      (leftmost alternative first, greedy before lazy as written).
    - External services (the generative model, the PDF and OCR libraries)
      are fields of an environment record; an exception is a constructor of
      the result type; the calls into the AI-assisted matcher are returned
      as a list next to the result.
    - The registry of vendor parsers is an argument of the strategies that
      use it: the parser classes of several vendors are not among the
      sources.

    Layout: the embedding, module by module; the vocabulary of the
    statements; then the lemmas on strings and on the matcher, and the
    properties of normalisation, matching, cost cleaning, table rows, text
    lines, the CSV answer, the extraction strategies, [process_pdf] and
    the helpers of [app.py]. *)

From Stdlib Require Import Strings.String Strings.Ascii Numbers.DecimalString.
From Stdlib Require Import Lists.List Bool.Bool Arith.Arith NArith.NArith ZArith.ZArith Lia.
From Stdlib Require Import Sorting.Permutation.
Import ListNotations.

Set Implicit Arguments.

(* ================================================================== *)
(** * Python strings *)
(* ================================================================== *)

Module PyStr.

Definition pystr := list ascii.

(** A string literal of the source. *)
Definition str (s : string) : pystr := list_ascii_of_string s.

Definition code (c : ascii) : N := N_of_ascii c.

Definition in_range (lo hi : N) (c : ascii) : bool :=
  (lo <=? code c)%N && (code c <=? hi)%N.

Definition chr_eqb (a b : ascii) : bool := Ascii.eqb a b.

(** The double quote and the line feed. *)
Definition dquote : ascii := "034".
Definition newline : ascii := "010".

(** [0-9], which is [\d] and [str.isdigit] on this alphabet. *)
Definition isdigit (c : ascii) : bool := in_range 48 57 c.
Definition isupper (c : ascii) : bool := in_range 65 90 c.
Definition islower (c : ascii) : bool := in_range 97 122 c.
Definition isalpha (c : ascii) : bool := isupper c || islower c.
(** [str.isspace] and [\s]: TAB..CR, FS..US and the blank. *)
Definition isspace (c : ascii) : bool :=
  in_range 9 13 c || in_range 28 32 c.
(** [\w]. *)
Definition isword (c : ascii) : bool :=
  isalpha c || isdigit c || chr_eqb c "_".

Definition upper_chr (c : ascii) : ascii :=
  if islower c then ascii_of_N (code c - 32) else c.
Definition lower_chr (c : ascii) : ascii :=
  if isupper c then ascii_of_N (code c + 32) else c.

(** [s.upper()] *)
Definition upper (s : pystr) : pystr := map upper_chr s.

Fixpoint eqb (a b : pystr) : bool :=
  match a, b with
  | [], [] => true
  | x :: a', y :: b' => chr_eqb x y && eqb a' b'
  | _, _ => false
  end.

(** Truth value of a string: [bool(s)]. *)
Definition truthy (s : pystr) : bool :=
  match s with [] => false | _ :: _ => true end.

Fixpoint lstrip_by (p : ascii -> bool) (s : pystr) : pystr :=
  match s with
  | [] => []
  | c :: t => if p c then lstrip_by p t else s
  end.

Fixpoint rstrip_by (p : ascii -> bool) (s : pystr) : pystr :=
  match s with
  | [] => []
  | c :: t =>
      match rstrip_by p t with
      | [] => if p c then [] else [c]
      | t' => c :: t'
      end
  end.

Definition strip_by (p : ascii -> bool) (s : pystr) : pystr :=
  rstrip_by p (lstrip_by p s).

(** [s.strip()] and [s.lstrip(c)]. *)
Definition strip (s : pystr) : pystr := strip_by isspace s.
Definition lstrip_chr (c : ascii) (s : pystr) : pystr := lstrip_by (chr_eqb c) s.

Fixpoint startswith (s p : pystr) {struct p} : bool :=
  match p, s with
  | [], _ => true
  | x :: p', y :: s' => chr_eqb x y && startswith s' p'
  | _ :: _, [] => false
  end.

(** [c in s] for a one-character [c]. *)
Definition contains_chr (c : ascii) (s : pystr) : bool := existsb (chr_eqb c) s.

(** [s in l] for a list of strings. *)
Definition mem (s : pystr) (l : list pystr) : bool := existsb (eqb s) l.

(** [s.isdigit()]: non-empty and all digits. *)
Definition all_digits (s : pystr) : bool := truthy s && forallb isdigit s.

(** [sep.join(l)]. *)
Fixpoint join (sep : pystr) (l : list pystr) : pystr :=
  match l with
  | [] => []
  | [x] => x
  | x :: t => x ++ sep ++ join sep t
  end.

(** [s.replace(c, '')] for a one-character [c]. *)
Definition remove_chr (c : ascii) (s : pystr) : pystr :=
  filter (fun x => negb (chr_eqb c x)) s.

(** The longest prefix of characters of a class, and the rest. *)
Fixpoint span (p : ascii -> bool) (s : pystr) : pystr * pystr :=
  match s with
  | c :: t => if p c then let (a, b) := span p t in (c :: a, b) else ([], s)
  | [] => ([], [])
  end.

(** Lexicographic [<] on strings, by code point. *)
Fixpoint ltb (a b : pystr) : bool :=
  match a, b with
  | _, [] => false
  | [], _ :: _ => true
  | x :: a', y :: b' =>
      if (code x <? code y)%N then true
      else if (code y <? code x)%N then false
      else ltb a' b'
  end.

(** [s.lower()] *)
Definition lower (s : pystr) : pystr := map lower_chr s.

(** [s.strip(c)] for a one-character [c]. *)
Definition strip_chr (c : ascii) (s : pystr) : pystr := strip_by (chr_eqb c) s.

(** [sub in s] for strings. *)
Fixpoint contains (sub s : pystr) : bool :=
  startswith s sub
  || match s with
     | [] => false
     | _ :: t => contains sub t
     end.

(** [s.split(c)] for a one-character separator: the pieces between the
    separators, of which there is always at least one. *)
Fixpoint split_chr (c : ascii) (s : pystr) : list pystr :=
  match s with
  | [] => [[]]
  | x :: t =>
      if chr_eqb c x then [] :: split_chr c t
      else match split_chr c t with
           | h :: r => (x :: h) :: r
           | [] => [[x]]
           end
  end.

(** [s.endswith(suffix)] *)
Definition endswith (s suffix : pystr) : bool := startswith (rev s) (rev suffix).

(** [c.isalnum()] *)
Definition isalnum (c : ascii) : bool := isalpha c || isdigit c.

End PyStr.

Import PyStr.

(* ================================================================== *)
(** * Regular expressions: the fragment of [re] the sources use *)
(* ================================================================== *)

Module Re.

Inductive regex : Type :=
| Eps                                   (* the empty pattern *)
| Cls (p : ascii -> bool)               (* one character of a class *)
| Cat (r1 r2 : regex)                   (* r1 r2 *)
| Alt (r1 r2 : regex)                   (* r1|r2, r1 tried first *)
| Star (greedy : bool) (r : regex)      (* r* and r*? *)
| Grp (n : nat) (r : regex)             (* capturing group number n *)
| Bol                                   (* ^ *)
| Eol                                   (* $ *)
| WordB.                                (* \b *)

(** Position of the matcher: the character before it ([None] at the
    start of the subject), the text still to read, the groups closed so
    far (latest first). *)
Record mstate : Type := MState {
  m_prev : option ascii;
  m_rest : pystr;
  m_caps : list (nat * pystr)
}.

Definition advance (c : ascii) (t : pystr) (st : mstate) : mstate :=
  {| m_prev := Some c; m_rest := t; m_caps := m_caps st |}.

Definition close_group (n : nat) (st0 st1 : mstate) : mstate :=
  {| m_prev := m_prev st1;
     m_rest := m_rest st1;
     m_caps := (n, firstn (length (m_rest st0) - length (m_rest st1)) (m_rest st0))
               :: m_caps st1 |}.

Definition at_eol (st : mstate) : bool :=
  match m_rest st with
  | [] => true
  | [c] => chr_eqb c newline
  | _ => false
  end.

Definition at_wordb (st : mstate) : bool :=
  let before := match m_prev st with Some c => isword c | None => false end in
  let after := match m_rest st with c :: _ => isword c | [] => false end in
  xorb before after.

Definition orelse {A} (a : option A) (b : unit -> option A) : option A :=
  match a with Some x => Some x | None => b tt end.

(** Iteration of a starred body: every round must consume input, so the
    length of the remaining text bounds the number of rounds. *)
Fixpoint star_loop {A} (body : mstate -> (mstate -> option A) -> option A)
    (greedy : bool) (k : mstate -> option A) (fuel : nat) (st : mstate)
    : option A :=
  match fuel with
  | 0 => k st
  | S f =>
      let again (_ : unit) :=
        body st (fun st1 =>
          if length (m_rest st1) <? length (m_rest st)
          then star_loop body greedy k f st1 else None) in
      if greedy then orelse (again tt) (fun _ => k st)
      else orelse (k st) again
  end.

(** Backtracking matcher in continuation-passing style: [exec r st k]
    matches [r] at [st] and hands every way of doing so, in priority
    order, to [k] until [k] accepts one. *)
Fixpoint exec {A} (r : regex) (st : mstate) (k : mstate -> option A)
    : option A :=
  match r with
  | Eps => k st
  | Cls p =>
      match m_rest st with
      | c :: t => if p c then k (advance c t st) else None
      | [] => None
      end
  | Cat r1 r2 => exec r1 st (fun st1 => exec r2 st1 k)
  | Alt r1 r2 => orelse (exec r1 st k) (fun _ => exec r2 st k)
  | Star g r1 => star_loop (exec r1) g k (S (length (m_rest st))) st
  | Grp n r1 => exec r1 st (fun st1 => k (close_group n st st1))
  | Bol => match m_prev st with None => k st | Some _ => None end
  | Eol => if at_eol st then k st else None
  | WordB => if at_wordb st then k st else None
  end.

(** ** Pattern syntax

    The patterns of the sources are quoted next to their terms; where a
    pattern has a star before a closing parenthesis, a blank is written
    between the two. *)

Definition lit (c : ascii) : regex := Cls (chr_eqb c).
(** A literal under [re.IGNORECASE]. *)
Definition ilit (c : ascii) : regex :=
  Cls (fun x => chr_eqb (lower_chr x) (lower_chr c)).
Definition digit : regex := Cls isdigit.                        (* \d *)
Definition space : regex := Cls isspace.                        (* \s *)
Definition dot : regex := Cls (fun c => negb (chr_eqb c newline)). (* . *)

Fixpoint seq (l : list regex) : regex :=
  match l with
  | [] => Eps
  | [r] => r
  | r :: t => Cat r (seq t)
  end.

Definition lits (s : string) : regex := seq (map lit (str s)).
Definition ilits (s : string) : regex := seq (map ilit (str s)).

Definition plus (r : regex) : regex := Cat r (Star true r).     (* r+ *)
Definition star (r : regex) : regex := Star true r.             (* r* *)
Definition lazy_star (r : regex) : regex := Star false r.       (* r*? *)
Definition opt (r : regex) : regex := Alt r Eps.                (* r? *)

(** r{n} *)
Fixpoint times (n : nat) (r : regex) : regex :=
  match n with
  | 0 => Eps
  | 1 => r
  | S m => Cat r (times m r)
  end.

(** r{0,n}, greedy: as many as possible first. *)
Fixpoint upto (n : nat) (r : regex) : regex :=
  match n with
  | 0 => Eps
  | S m => opt (Cat r (upto m r))
  end.

(** r{lo,hi} *)
Definition between (lo hi : nat) (r : regex) : regex :=
  match lo with
  | 0 => upto hi r
  | _ => Cat (times lo r) (upto (hi - lo) r)
  end.

(** ** Match objects and the entry points of [re] *)

Record match_obj : Type := MatchObj {
  mo_start : nat;              (* offset of the match in the subject *)
  mo_text : pystr;             (* group(0) *)
  mo_caps : list (nat * pystr);
  mo_after : pystr             (* the subject after the match *)
}.

(** [m.group(n)]; [None] when the group took no part in the match. *)
Fixpoint lookup (n : nat) (caps : list (nat * pystr)) : option pystr :=
  match caps with
  | [] => None
  | (i, s) :: t => if Nat.eqb i n then Some s else lookup n t
  end.

Definition group (m : match_obj) (n : nat) : option pystr := lookup n (mo_caps m).

(** [m.group(n)] of a group that every match of the pattern closes. *)
Definition group_str (m : match_obj) (n : nat) : pystr :=
  match group m n with Some s => s | None => [] end.

Definition match_at (r : regex) (prev : option ascii) (start : nat) (s : pystr)
    : option match_obj :=
  exec r {| m_prev := prev; m_rest := s; m_caps := [] |}
    (fun st => Some {| mo_start := start;
                       mo_text := firstn (length s - length (m_rest st)) s;
                       mo_caps := m_caps st;
                       mo_after := m_rest st |}).

(** [re.match(r, s)] *)
Definition re_match (r : regex) (s : pystr) : option match_obj :=
  match_at r None 0 s.

(** Leftmost match at or after the current position. *)
Fixpoint search_from (r : regex) (prev : option ascii) (start : nat) (s : pystr)
    : option match_obj :=
  match match_at r prev start s with
  | Some m => Some m
  | None =>
      match s with
      | [] => None
      | c :: t => search_from r (Some c) (S start) t
      end
  end.

(** [re.search(r, s)] *)
Definition re_search (r : regex) (s : pystr) : option match_obj :=
  search_from r None 0 s.

Definition last_chr (prev : option ascii) (s : pystr) : option ascii :=
  match rev s with c :: _ => Some c | [] => prev end.

(** The successive non-overlapping matches, left to right.  For a match
    that consumed nothing the scan moves on by one character. *)
Fixpoint matches_from (r : regex) (fuel : nat) (prev : option ascii) (s : pystr)
    : list match_obj :=
  match fuel with
  | 0 => []
  | S f =>
      match search_from r prev 0 s with
      | None => []
      | Some m =>
          let skipped := firstn (mo_start m) s in
          match mo_text m, mo_after m with
          | [], [] => [m]
          | [], c :: t => m :: matches_from r f (Some c) t
          | _ :: _, rest =>
              m :: matches_from r f (last_chr prev (skipped ++ mo_text m)) rest
          end
      end
  end.

(** [re.findall(r, s)] for a pattern without groups. *)
Definition findall (r : regex) (s : pystr) : list pystr :=
  map mo_text (matches_from r (S (length s)) None s).

(** [re.sub(r, repl, s)] for a pattern whose matches are never empty and
    a replacement without back-references. *)
Fixpoint sub_from (r : regex) (repl : pystr) (fuel : nat) (prev : option ascii)
    (s : pystr) : pystr :=
  match fuel with
  | 0 => s
  | S f =>
      match search_from r prev 0 s with
      | None => s
      | Some m =>
          let skipped := firstn (mo_start m) s in
          match mo_text m with
          | [] => s
          | _ :: _ =>
              skipped ++ repl ++
              sub_from r repl f (last_chr prev (skipped ++ mo_text m)) (mo_after m)
          end
      end
  end.

Definition re_sub (r : regex) (repl : pystr) (s : pystr) : pystr :=
  sub_from r repl (S (length s)) None s.

Definition lazy_plus (r : regex) : regex := Cat r (Star false r). (* r+? *)

(** [re.split(r, s)] for a pattern without groups whose matches are
    never empty: the texts between the successive matches. *)
Fixpoint split_from (r : regex) (fuel : nat) (prev : option ascii) (s : pystr)
    : list pystr :=
  match fuel with
  | 0 => [s]
  | S f =>
      match search_from r prev 0 s with
      | None => [s]
      | Some m =>
          let skipped := firstn (mo_start m) s in
          match mo_text m with
          | [] => [s]
          | _ :: _ =>
              skipped ::
              split_from r f (last_chr prev (skipped ++ mo_text m)) (mo_after m)
          end
      end
  end.

Definition re_split (r : regex) (s : pystr) : list pystr :=
  split_from r (S (length s)) None s.

End Re.

Import Re.

(* ================================================================== *)
(** * Python values, exceptions and [json.loads] *)
(* ================================================================== *)

Module Py.

(** A float written as the decimal literal that denotes it: the code
    only stores and returns the floats of this module, it never computes
    with them. *)
Definition float_lit := pystr.

(** The objects [json.loads] builds, which are also the values a
    MatchResult dictionary holds. *)
#[warnings="-register-all"]
Inductive pyval : Type :=
| PNone
| PBool (b : bool)
| PInt (z : Z)
| PFloat (lit : float_lit)
| PStr (s : pystr)
| PList (l : list pyval)
| PDict (d : list (pystr * pyval)).

Inductive exn : Type :=
| Exception (msg : pystr)
| JSONDecodeError (msg : pystr)
| AttributeError (msg : pystr).

(** [str(e)] *)
Definition exn_msg (e : exn) : pystr :=
  match e with
  | Exception m | JSONDecodeError m | AttributeError m => m
  end.

Inductive result (A : Type) : Type :=
| Ok (a : A)
| Raise (e : exn).
Arguments Ok {A} a.
Arguments Raise {A} e.

(** [type(v).__name__] *)
Definition type_name (v : pyval) : pystr :=
  match v with
  | PNone => str "NoneType"
  | PBool _ => str "bool"
  | PInt _ => str "int"
  | PFloat _ => str "float"
  | PStr _ => str "str"
  | PList _ => str "list"
  | PDict _ => str "dict"
  end.

(** The error of [v.get] on a value that has no such method. *)
Definition no_get_method (v : pyval) : exn :=
  AttributeError (str "'" ++ type_name v ++ str "' object has no attribute 'get'").

(** [d.get(key, default)]; of two equal keys in the text the later one
    is the one the dict keeps. *)
Fixpoint dict_get (d : list (pystr * pyval)) (key : pystr) (default : pyval) : pyval :=
  match d with
  | [] => default
  | (k, v) :: t => if eqb k key then dict_get t key v else dict_get t key default
  end.

(** ** The decoder

    It follows [json.decoder] and [json.scanner]: blanks are the four
    characters of [WHITESPACE], strings are read in strict mode, [NaN],
    [Infinity] and [-Infinity] are accepted.  The text of an error message
    is not reproduced, and the limits of the interpreter (recursion depth,
    digits of an integer) are not modelled.  An escape [\uXXXX] above the
    character type has no value here and is reported as an error. *)

Definition is_json_ws (c : ascii) : bool :=
  chr_eqb c " " || chr_eqb c "009" || chr_eqb c newline || chr_eqb c "013".

Definition skip_ws (s : pystr) : pystr := lstrip_by is_json_ws s.

Definition hex_val (c : ascii) : option N :=
  if isdigit c then Some (code c - 48)%N
  else if in_range 65 70 c then Some (code c - 55)%N
  else if in_range 97 102 c then Some (code c - 87)%N
  else None.

Definition decode_u (s : pystr) : option (ascii * pystr) :=
  match s with
  | a :: b :: c :: d :: t =>
      match hex_val a, hex_val b, hex_val c, hex_val d with
      | Some x, Some y, Some z, Some w =>
          let n := (((x * 16 + y) * 16 + z) * 16 + w)%N in
          if (n <? 256)%N then Some (ascii_of_N n, t) else None
      | _, _, _, _ => None
      end
  | _ => None
  end.

(** [py_scanstring], from the character after the opening quote. *)
Fixpoint scanstring (s : pystr) (fuel : nat) (acc : pystr) : option (pystr * pystr) :=
  match fuel with
  | 0 => None
  | S f =>
      match s with
      | [] => None                                   (* unterminated *)
      | c :: t =>
          if chr_eqb c dquote then Some (rev acc, t)
          else if chr_eqb c "\" then
            match t with
            | [] => None
            | e :: t' =>
                if chr_eqb e "u" then
                  match decode_u t' with
                  | Some (ch, t'') => scanstring t'' f (ch :: acc)
                  | None => None
                  end
                else
                  let esc (ch : ascii) := scanstring t' f (ch :: acc) in
                  if chr_eqb e dquote then esc dquote
                  else if chr_eqb e "\" then esc "\"%char
                  else if chr_eqb e "/" then esc "/"%char
                  else if chr_eqb e "b" then esc "008"%char
                  else if chr_eqb e "f" then esc "012"%char
                  else if chr_eqb e "n" then esc "010"%char
                  else if chr_eqb e "r" then esc "013"%char
                  else if chr_eqb e "t" then esc "009"%char
                  else None
            end
          else if (code c <? 32)%N then None          (* control character *)
          else scanstring t f (c :: acc)
      end
  end.

Fixpoint digits_value (s : pystr) (acc : Z) : Z :=
  match s with
  | [] => acc
  | c :: t => digits_value t (acc * 10 + Z.of_N (code c - 48))%Z
  end.

(** [NUMBER_RE]: (-?(?:0|[1-9]\d* ))(\.\d+)?([eE][-+]?\d+)? *)
Definition match_number (s : pystr) : option (pyval * pystr) :=
  let (sign, s1) := match s with
                    | c :: t => if chr_eqb c "-" then ([c], t) else ([], s)
                    | [] => ([], s)
                    end in
  let int_part :=
    match s1 with
    | c :: t =>
        if chr_eqb c "0" then Some ([c], t)
        else if isdigit c then let (ds, r) := span isdigit t in Some (c :: ds, r)
        else None
    | [] => None
    end in
  match int_part with
  | None => None
  | Some (ip, s2) =>
      let (frac, s3) :=
        match s2 with
        | c :: d :: t =>
            if chr_eqb c "." && isdigit d
            then let (ds, r) := span isdigit t in (c :: d :: ds, r)
            else ([], s2)
        | _ => ([], s2)
        end in
      let exp_digits (mark : pystr) (t : pystr) :=
        match t with
        | d :: t' =>
            if isdigit d then let (ds, r) := span isdigit t' in Some (mark ++ d :: ds, r)
            else None
        | [] => None
        end in
      let (ex, s4) :=
        match s3 with
        | e :: t =>
            if chr_eqb e "e" || chr_eqb e "E" then
              let signed :=
                match t with
                | g :: t' =>
                    if chr_eqb g "-" || chr_eqb g "+" then exp_digits [e; g] t'
                    else exp_digits [e] t
                | [] => None
                end in
              match signed with Some (x, r) => (x, r) | None => ([], s3) end
            else ([], s3)
        | [] => ([], s3)
        end in
      match frac, ex with
      | [], [] =>
          let v := digits_value ip 0 in
          Some (PInt (match sign with [] => v | _ => (- v)%Z end), s4)
      | _, _ => Some (PFloat (sign ++ ip ++ frac ++ ex), s4)
      end
  end.

Definition take_word (w : string) (s : pystr) : option pystr :=
  if startswith s (str w) then Some (skipn (length (str w)) s) else None.

(** [scan_once], [JSONObject] and [JSONArray]; [None] is a decoding
    error.  Each call reads at least one character before it calls
    another, so the length of the text is fuel enough. *)
Fixpoint scan_once (fuel : nat) (s : pystr) : option (pyval * pystr) :=
  match fuel with
  | 0 => None
  | S f =>
      match s with
      | [] => None
      | c :: t =>
          if chr_eqb c dquote then
            match scanstring t (S (length t)) [] with
            | Some (x, r) => Some (PStr x, r)
            | None => None
            end
          else if chr_eqb c "{" then
            match skip_ws t with
            | d :: t' =>
                if chr_eqb d "}" then Some (PDict [], t')
                else if chr_eqb d dquote then json_members f [] t'
                else None
            | [] => None
            end
          else if chr_eqb c "[" then
            match skip_ws t with
            | d :: t' =>
                if chr_eqb d "]" then Some (PList [], t')
                else json_items f [] (d :: t')
            | [] => None
            end
          else
            match take_word "null" s, take_word "true" s, take_word "false" s with
            | Some r, _, _ => Some (PNone, r)
            | _, Some r, _ => Some (PBool true, r)
            | _, _, Some r => Some (PBool false, r)
            | None, None, None =>
                match match_number s with
                | Some v => Some v
                | None =>
                    match take_word "NaN" s, take_word "Infinity" s,
                          take_word "-Infinity" s with
                    | Some r, _, _ => Some (PFloat (str "nan"), r)
                    | _, Some r, _ => Some (PFloat (str "inf"), r)
                    | _, _, Some r => Some (PFloat (str "-inf"), r)
                    | None, None, None => None
                    end
                end
            end
      end
  end

(** The pairs of an object, from the character after the quote that
    opens a key. *)
with json_members (fuel : nat) (acc : list (pystr * pyval)) (s : pystr)
    : option (pyval * pystr) :=
  match fuel with
  | 0 => None
  | S f =>
      match scanstring s (S (length s)) [] with
      | None => None
      | Some (key, r) =>
          match skip_ws r with
          | c :: r1 =>
              if chr_eqb c ":" then
                match scan_once f (skip_ws r1) with
                | None => None
                | Some (v, r2) =>
                    match skip_ws r2 with
                    | d :: r3 =>
                        if chr_eqb d "}" then Some (PDict (rev ((key, v) :: acc)), r3)
                        else if chr_eqb d "," then
                          match skip_ws r3 with
                          | q :: r4 =>
                              if chr_eqb q dquote then json_members f ((key, v) :: acc) r4
                              else None
                          | [] => None
                          end
                        else None
                    | [] => None
                    end
                end
              else None
          | [] => None
          end
      end
  end

(** The items of an array, from its first value. *)
with json_items (fuel : nat) (acc : list pyval) (s : pystr)
    : option (pyval * pystr) :=
  match fuel with
  | 0 => None
  | S f =>
      match scan_once f s with
      | None => None
      | Some (v, r) =>
          match skip_ws r with
          | d :: r1 =>
              if chr_eqb d "]" then Some (PList (rev (v :: acc)), r1)
              else if chr_eqb d "," then json_items f (v :: acc) (skip_ws r1)
              else None
          | [] => None
          end
      end
  end.

(** [json.loads(s)] *)
Definition json_loads (s : pystr) : result pyval :=
  let body := skip_ws s in
  match scan_once (S (S (length body))) body with
  | None => Raise (JSONDecodeError (str "Expecting value"))
  | Some (v, r) =>
      match skip_ws r with
      | [] => Ok v
      | _ :: _ => Raise (JSONDecodeError (str "Extra data"))
      end
  end.

End Py.

Import Py.

(* ================================================================== *)
(** * ai_matcher.py *)
(* ================================================================== *)

Module ai_matcher.

(** [x.lstrip('0') or '0'] *)
Definition strip_zeros (x : pystr) : pystr :=
  match lstrip_chr "0" x with
  | [] => str "0"
  | y => y
  end.

(** Pattern [^K002(\d{3})(-\d{2})(?:[-A-Z]* )$]. *)
Definition re_k002 : regex :=
  seq [Bol; lits "K002"; Grp 1 (times 3 digit);
       Grp 2 (Cat (lit "-") (times 2 digit));
       star (Cls (fun c => chr_eqb c "-" || isupper c)); Eol].

(** Pattern [^.*?(\d+)(-\d{2})(?:[A-Z]* )$]. *)
Definition re_core_suffix : regex :=
  seq [Bol; lazy_star dot; Grp 1 (plus digit);
       Grp 2 (Cat (lit "-") (times 2 digit));
       star (Cls isupper); Eol].

(** Pattern [^.*?(\d+)]. *)
Definition re_core : regex :=
  seq [Bol; lazy_star dot; Grp 1 (plus digit)].

(** Pattern [\d+]. *)
Definition re_digits : regex := plus digit.

(** [max(parts, key=len)]: the first part of greatest length. *)
Fixpoint longest (parts : list pystr) (best : pystr) : pystr :=
  match parts with
  | [] => best
  | p :: t => if length best <? length p then longest t p else longest t best
  end.

Definition normalize_product_id (product_id : pystr) : pystr :=
  if negb (truthy product_id) || eqb product_id (str "N/A") then []
  else
    let cleaned := upper (strip product_id) in
    match re_match re_k002 cleaned with
    | Some k002_match =>
        let core_digits := strip_zeros (group_str k002_match 1) in
        let suffix := group_str k002_match 2 in
        core_digits ++ suffix
    | None =>
        match re_match re_core_suffix cleaned with
        | Some m =>
            let numeric_core := strip_zeros (group_str m 1) in
            numeric_core ++ group_str m 2
        | None =>
            match re_match re_core cleaned with
            | Some m => strip_zeros (group_str m 1)
            | None =>
                match findall re_digits cleaned with
                | p :: t => strip_zeros (longest t p)
                | [] => cleaned
                end
            end
        end
    end.

(** ** Catalog entries, extracted records and match results *)

(** An entry of the reference database: a dict with the two keys
    [product_id] and [description]. *)
Record Product : Type := MkProduct {
  product_id : pystr;
  description : pystr
}.

(** An extracted record; a field is [None] when the dict has no such key. *)
Record Extracted : Type := MkExtracted {
  e_product_id : option pystr;
  e_description : option pystr
}.

(** [d.get(key, 'N/A')] *)
Definition get_or_na (field : option pystr) : pystr :=
  match field with Some s => s | None => str "N/A" end.

Record MatchResult : Type := MkMatchResult {
  matched_id : pyval;
  confidence : pyval;
  reasoning : pyval;
  matched_description : option pystr
}.

Definition NO_MATCH : pystr := str "NO_MATCH".

(** The values interpolated into the prompt template of
    [build_matching_prompt]; the fixed text of the template is not
    reproduced. *)
Record Prompt : Type := MkPrompt {
  p_extracted_id : pystr;
  p_extracted_desc : pystr;
  p_limited_db : list Product;
  p_confidence_threshold : float_lit
}.

(** What the module reads from outside: the API key of the process
    environment and the answer of the model to a prompt, which is the
    text of the response or an exception of the client library. *)
Record Env : Type := MkEnv {
  GEMINI_API_KEY : option pystr;
  generate_content : Prompt -> result pystr
}.

(** Calls into the AI-assisted matcher, in the order they are made. *)
Inductive event : Type :=
| CallMatchWithGemini (extracted : Extracted) (reference_database : list Product)
| CallGenerateContent (prompt : Prompt).

(** ** select_simplest_product_id *)

(** Pattern [^K002\d{3}-\d{2}[A-Z-]+]. *)
Definition re_k002_extra : regex :=
  seq [Bol; lits "K002"; times 3 digit; lit "-"; times 2 digit;
       plus (Cls (fun c => isupper c || chr_eqb c "-"))].

(** Pattern [^KRUSE\d+[A-Z-]+]. *)
Definition re_kruse_extra : regex :=
  seq [Bol; lits "KRUSE"; plus digit;
       plus (Cls (fun c => isupper c || chr_eqb c "-"))].

Definition is_some {A} (o : option A) : bool :=
  match o with Some _ => true | None => false end.

(** The tuple (has_extra_suffix, is_not_kruse, length, alphabetical). *)
Definition complexity_score (product_id : pystr) : nat * nat * nat * pystr :=
  let pid := upper product_id in
  let has_extra_suffix :=
    if is_some (re_match re_k002_extra pid) then 1
    else if is_some (re_match re_kruse_extra pid) then 1
    else 0 in
  let is_not_kruse := if startswith pid (str "KRUSE") then 0 else 1 in
  (has_extra_suffix, is_not_kruse, length pid, pid).

(** [<] on score tuples. *)
Definition score_ltb (a b : nat * nat * nat * pystr) : bool :=
  match a, b with
  | (a1, a2, a3, a4), (b1, b2, b3, b4) =>
      if a1 <? b1 then true else if b1 <? a1 then false
      else if a2 <? b2 then true else if b2 <? a2 then false
      else if a3 <? b3 then true else if b3 <? a3 then false
      else ltb a4 b4
  end.

(** [sorted(l, key=...)]: a stable sort, written as insertion. *)
Fixpoint insert_by {A K} (lt : K -> K -> bool) (key : A -> K) (x : A) (l : list A)
    : list A :=
  match l with
  | [] => [x]
  | y :: t => if lt (key y) (key x) then y :: insert_by lt key x t else x :: l
  end.

Fixpoint sorted_by {A K} (lt : K -> K -> bool) (key : A -> K) (l : list A) : list A :=
  match l with
  | [] => []
  | x :: t => insert_by lt key x (sorted_by lt key t)
  end.

Definition has_extra_suffix (p : Product) : nat :=
  match complexity_score (product_id p) with (h, _, _, _) => h end.

(** Special case: Kruse01 against CG00001. *)
Definition kruse01_over_cg00001 (matching_products : list Product) : option Product :=
  let product_ids := map (fun p => upper (product_id p)) matching_products in
  if mem (str "KRUSE01") product_ids && mem (str "CG00001") product_ids
  then find (fun p => eqb (upper (product_id p)) (str "KRUSE01")) matching_products
  else None.

(** Special case: only Kruse and CG products, and a single Kruse one. *)
Definition kruse_over_cg (matching_products : list Product) : option Product :=
  let kruse_products :=
    filter (fun p => startswith (upper (product_id p)) (str "KRUSE")) matching_products in
  let cg_products :=
    filter (fun p => startswith (upper (product_id p)) (str "CG")) matching_products in
  if negb (length kruse_products =? 0) && negb (length cg_products =? 0)
     && (length matching_products =? length kruse_products + length cg_products)
  then match kruse_products with
       | [k] => Some k
       | _ => None
       end
  else None.

(** Special case: Kruse5 against Kruse05, left to the description. *)
Definition kruse5_and_kruse05 (matching_products : list Product) : bool :=
  let product_ids := map (fun p => upper (product_id p)) matching_products in
  mem (str "KRUSE5") product_ids && mem (str "KRUSE05") product_ids.

(** The simplest product by score, when it is the only one without an
    extra suffix. *)
Definition clear_winner (matching_products : list Product) : option Product :=
  let sorted_products :=
    sorted_by score_ltb (fun p => complexity_score (product_id p)) matching_products in
  match sorted_products with
  | [] => None
  | simplest :: others =>
      if has_extra_suffix simplest =? 0 then
        match filter (fun p => has_extra_suffix p =? 0) others with
        | [] => Some simplest
        | _ :: _ => None
        end
      else None
  end.

Definition select_simplest_product_id (matching_products : list Product)
    : option Product :=
  match matching_products with
  | [] => None
  | [p] => Some p
  | _ =>
      match kruse01_over_cg00001 matching_products with
      | Some p => Some p
      | None =>
          match kruse_over_cg matching_products with
          | Some k => Some k
          | None =>
              if kruse5_and_kruse05 matching_products then None
              else clear_winner matching_products
          end
      end
  end.

(** ** The AI-assisted matcher *)

Definition build_matching_prompt (extracted_id extracted_desc : pystr)
    (reference_database : list Product) (confidence_threshold : float_lit) : Prompt :=
  let limited_db := firstn 500 reference_database in
  {| p_extracted_id := extracted_id;
     p_extracted_desc := extracted_desc;
     p_limited_db := limited_db;
     p_confidence_threshold := confidence_threshold |}.

(** Pattern [^```(?:json)?\s*\n]. *)
Definition re_fence_open : regex :=
  seq [Bol; lits "```"; opt (lits "json"); star space; lit newline].

(** Pattern [\n```\s*$]. *)
Definition re_fence_close : regex :=
  seq [lit newline; lits "```"; star space; Eol].

(** Pattern ['matched_id'\s*:\s*'([^']+)'], where ['] stands for the
    double quote of the source. *)
Definition re_matched_id : regex :=
  seq [lit dquote; lits "matched_id"; lit dquote; star space; lit ":"; star space;
       lit dquote; Grp 1 (plus (Cls (fun c => negb (chr_eqb c dquote)))); lit dquote].

(** [x != 'NO_MATCH'] and [prod['product_id'] == x] for a decoded value. *)
Definition pyval_is_str (v : pyval) (s : pystr) : bool :=
  match v with PStr x => eqb x s | _ => false end.

Definition lookup_description (v : pyval) (reference_database : list Product)
    : option pystr :=
  match find (fun prod => pyval_is_str v (product_id prod)) reference_database with
  | Some prod => Some (description prod)
  | None => None
  end.

Definition parse_gemini_matching_response (response_text : pystr)
    (reference_database : list Product) : result MatchResult :=
  let cleaned := strip response_text in
  let cleaned :=
    if startswith cleaned (str "```")
    then re_sub re_fence_close [] (re_sub re_fence_open [] cleaned)
    else cleaned in
  match json_loads cleaned with
  | Ok (PDict result) =>
      let matched_id := dict_get result (str "matched_id") (PStr NO_MATCH) in
      let confidence := dict_get result (str "confidence") (PFloat (str "0.0")) in
      let reasoning :=
        dict_get result (str "reasoning") (PStr (str "No reasoning provided")) in
      let matched_description :=
        if negb (pyval_is_str matched_id NO_MATCH)
        then lookup_description matched_id reference_database
        else None in
      Ok {| matched_id := matched_id;
            confidence := confidence;
            reasoning := reasoning;
            matched_description := matched_description |}
  | Ok other =>
      (* [result.get] on a value that is not a dict *)
      Raise (no_get_method other)
  | Raise (JSONDecodeError msg) =>
      match re_search re_matched_id response_text with
      | Some m =>
          Ok {| matched_id := PStr (group_str m 1);
                confidence := PNone;
                reasoning := PStr (str "Parsed from malformed JSON");
                matched_description := None |}
      | None =>
          Ok {| matched_id := PStr NO_MATCH;
                confidence := PNone;
                reasoning := PStr (str "Failed to parse Gemini response: " ++ msg);
                matched_description := None |}
      end
  | Raise e => Raise e
  end.

Definition key_is_set (env : Env) : bool :=
  match GEMINI_API_KEY env with Some k => truthy k | None => false end.

(** The exception raised when the key is missing. *)
Definition missing_key_error : exn :=
  Exception (str "GEMINI_API_KEY environment variable not set").

Definition match_product_with_gemini (env : Env) (extracted_product : Extracted)
    (reference_database : list Product) (confidence_threshold : float_lit)
    : list event * result MatchResult :=
  let entered := CallMatchWithGemini extracted_product reference_database in
  if negb (key_is_set env) then
    ([entered], Raise missing_key_error)
  else
    match reference_database with
    | [] =>
        ([entered],
         Ok {| matched_id := PStr NO_MATCH;
               confidence := PNone;
               reasoning := PStr (str "Reference database is empty");
               matched_description := None |})
    | _ :: _ =>
        let extracted_id := get_or_na (e_product_id extracted_product) in
        let extracted_desc := get_or_na (e_description extracted_product) in
        let prompt :=
          build_matching_prompt extracted_id extracted_desc reference_database
                                confidence_threshold in
        let attempt :=
          match generate_content env prompt with
          | Ok text => parse_gemini_matching_response text reference_database
          | Raise e => Raise e
          end in
        ([entered; CallGenerateContent prompt],
         match attempt with
         | Ok result => Ok result
         | Raise e =>
             Ok {| matched_id := PStr NO_MATCH;
                   confidence := PNone;
                   reasoning := PStr (str "Error calling Gemini API: " ++ exn_msg e);
                   matched_description := None |}
         end)
    end.

(** ** match_product_by_id *)

(** The loop that collects the reference products whose normalized id is
    the normalized extracted id, or that id followed by [-01]. *)
Fixpoint matching_products_of (normalized_extracted : pystr)
    (reference_database : list Product) : list Product :=
  match reference_database with
  | [] => []
  | ref_product :: rest =>
      let ref_id := product_id ref_product in
      let normalized_ref := normalize_product_id ref_id in
      if eqb normalized_extracted normalized_ref then
        ref_product :: matching_products_of normalized_extracted rest
      else if eqb (normalized_extracted ++ str "-01") normalized_ref then
        ref_product :: matching_products_of normalized_extracted rest
      else matching_products_of normalized_extracted rest
  end.

Definition match_product_by_id (env : Env) (extracted_product : Extracted)
    (reference_database : list Product) (confidence_threshold : float_lit)
    (use_ai_fallback : bool) : list event * result MatchResult :=
  match reference_database with
  | [] =>
      ([], Ok {| matched_id := PStr NO_MATCH;
                 confidence := PFloat (str "0.0");
                 reasoning := PStr (str "Reference database is empty");
                 matched_description := None |})
  | _ :: _ =>
      let extracted_id := get_or_na (e_product_id extracted_product) in
      let normalized_extracted := normalize_product_id extracted_id in
      if negb (truthy normalized_extracted) || eqb extracted_id (str "N/A") then
        if use_ai_fallback then
          match_product_with_gemini env extracted_product reference_database
                                    confidence_threshold
        else
          ([], Ok {| matched_id := PStr NO_MATCH;
                     confidence := PFloat (str "0.0");
                     reasoning :=
                       PStr (str "Invalid extracted product ID: " ++ extracted_id
                             ++ str " (AI fallback disabled)");
                     matched_description := None |})
      else
        let matching_products :=
          matching_products_of normalized_extracted reference_database in
        match matching_products with
        | [] =>
            ([], Ok {| matched_id := PStr NO_MATCH;
                       confidence := PFloat (str "0.0");
                       reasoning :=
                         PStr (str "No match found for normalized ID: "
                               ++ normalized_extracted ++ str " (from "
                               ++ extracted_id ++ str ")");
                       matched_description := None |})
        | [matched] =>
            ([], Ok {| matched_id := PStr (product_id matched);
                       confidence := PFloat (str "1.0");
                       reasoning :=
                         PStr (str "ID match: " ++ extracted_id ++ str " -> "
                               ++ product_id matched ++ str " (normalized: "
                               ++ normalized_extracted ++ str ")");
                       matched_description := Some (description matched) |})
        | first :: _ =>
            match select_simplest_product_id matching_products with
            | Some simplest_match =>
                ([], Ok {| matched_id := PStr (product_id simplest_match);
                           confidence := PFloat (str "1.0");
                           reasoning :=
                             PStr (str "ID match (simplest): " ++ extracted_id
                                   ++ str " -> " ++ product_id simplest_match
                                   ++ str " (normalized: " ++ normalized_extracted
                                   ++ str ")");
                           matched_description := Some (description simplest_match) |})
            | None =>
                let is_short_id :=
                  all_digits normalized_extracted
                  && (length normalized_extracted <=? 2) in
                if is_short_id && use_ai_fallback then
                  match_product_with_gemini env extracted_product matching_products
                                            confidence_threshold
                else
                  ([], Ok {| matched_id := PStr (product_id first);
                             confidence := PFloat (str "0.9");
                             reasoning :=
                               PStr (str "ID match (multiple candidates): "
                                     ++ extracted_id ++ str " -> " ++ product_id first
                                     ++ str " (normalized: " ++ normalized_extracted
                                     ++ str ")");
                             matched_description := Some (description first) |})
            end
        end
  end.

(** ** batch_match_products *)

(** One pass of the loop for one product. *)
Definition match_one (env : Env) (product : Extracted)
    (reference_database : list Product) (confidence_threshold : float_lit)
    (use_id_only use_ai_fallback : bool) : list event * result MatchResult :=
  if use_id_only then
    match_product_by_id env product reference_database confidence_threshold
                        use_ai_fallback
  else
    match_product_with_gemini env product reference_database confidence_threshold.

(** The loop: [results] is the list built so far and [calls] the calls
    made so far; an exception of one product ends the loop and the
    function. *)
Fixpoint batch_loop (env : Env) (extracted_products : list Extracted)
    (reference_database : list Product) (confidence_threshold : float_lit)
    (use_id_only use_ai_fallback : bool)
    (calls : list event) (results : list MatchResult)
    : list event * result (list MatchResult) :=
  match extracted_products with
  | [] => (calls, Ok results)
  | product :: rest =>
      match match_one env product reference_database confidence_threshold
                      use_id_only use_ai_fallback with
      | (made, Ok result) =>
          batch_loop env rest reference_database confidence_threshold
                     use_id_only use_ai_fallback (calls ++ made) (results ++ [result])
      | (made, Raise e) => (calls ++ made, Raise e)
      end
  end.

Definition batch_match_products (env : Env) (extracted_products : list Extracted)
    (reference_database : list Product) (confidence_threshold : float_lit)
    (use_id_only use_ai_fallback : bool) : list event * result (list MatchResult) :=
  batch_loop env extracted_products reference_database confidence_threshold
             use_id_only use_ai_fallback [] [].

End ai_matcher.

Import ai_matcher.

(* ================================================================== *)
(** * Prices *)
(* ================================================================== *)

Module Price.

(** A price is held as a whole number of cents.  The texts the code
    hands to [float] are digit strings with no or two decimals and at
    most five digits before the point; on these, rounding to a double
    keeps the order of the decimal values, the comparisons with the
    literals [0.01], [1000], [9999.99] and [99999.99] are the comparisons
    of the decimal values, and formatting with [.2f] gives the decimal
    back. *)
Definition cents := N.

Fixpoint digits_N (s : pystr) (acc : N) : N :=
  match s with
  | [] => acc
  | c :: t => digits_N t (acc * 10 + (code c - 48))%N
  end.

(** [float(s)] for [s] made of digits, or of digits, a point and two
    digits; [None] stands for the [ValueError] of any other text. *)
Definition float_of (s : pystr) : option cents :=
  let (ip, r) := span isdigit s in
  match ip, r with
  | _ :: _, [] => Some (digits_N ip 0 * 100)%N
  | _ :: _, [p; a; b] =>
      if chr_eqb p "." && isdigit a && isdigit b
      then Some (digits_N ip 0 * 100 + digits_N [a; b] 0)%N
      else None
  | _, _ => None
  end.

Definition show_N (n : N) : pystr :=
  list_ascii_of_string (NilZero.string_of_uint (N.to_uint n)).

(** [f'{v:.2f}'] *)
Definition format_2f (v : cents) : pystr :=
  let frac := (v mod 100)%N in
  show_N (v / 100) ++ str "."
  ++ (if (frac <? 10)%N then str "0" else []) ++ show_N frac.

End Price.

Import Price.

(** A missing or empty result: [not x] for [x] a string or [None]. *)
Definition falsy (o : option pystr) : bool :=
  match o with Some s => negb (truthy s) | None => true end.

(* ================================================================== *)
(** * gemini_parser.py: clean_cost *)
(* ================================================================== *)

Module gemini_parser.

(** Pattern [(\$?\s*\d{1,5}(?:\.\d{2})?)\s*(/LB|/CS|/EA)?] under
    [re.IGNORECASE]. *)
Definition re_price_unit : regex :=
  seq [Grp 1 (seq [opt (lit "$"); star space; between 1 5 digit;
                   opt (Cat (lit ".") (times 2 digit))]);
       star space;
       opt (Grp 2 (Alt (ilits "/LB") (Alt (ilits "/CS") (ilits "/EA"))))].

(** What a cost text is read as: one of the two special cases, or a
    price with its unit (empty when there is none). *)
Inductive cost_value : Type :=
| OutOfStock
| QuoteRequired
| Amount (price_value : cents) (unit_part : pystr).

(** The body of [clean_cost] up to the range check. *)
Definition clean_cost_value (cost_str : pystr) : option cost_value :=
  let cost_str := upper (strip cost_str) in
  if mem cost_str [str "OUT"; str "OUT OF STOCK"] then Some OutOfStock
  else if mem cost_str [str "QUOTE"; str "QUOTE REQUIRED"] then Some QuoteRequired
  else
    match re_search re_price_unit cost_str with
    | None => None
    | Some m =>
        let price_part := strip (group_str m 1) in
        let unit_part :=
          match group m 2 with
          | Some u => if truthy u then strip u else []
          | None => []
          end in
        let price_part := strip (remove_chr "$" price_part) in
        match float_of price_part with
        | None => None
        | Some price_value =>
            if negb ((1 <=? price_value)%N && (price_value <=? 9999999)%N) then None
            else Some (Amount price_value unit_part)
        end
    end.

(** The strings [clean_cost] returns. *)
Definition format_cost (v : cost_value) : pystr :=
  match v with
  | OutOfStock => str "OUT OF STOCK"
  | QuoteRequired => str "QUOTE REQUIRED"
  | Amount price_value unit_part =>
      if truthy unit_part
      then str "$" ++ format_2f price_value ++ upper unit_part
      else str "$" ++ format_2f price_value
  end.

Definition clean_cost (cost_str : pystr) : option pystr :=
  option_map format_cost (clean_cost_value cost_str).

End gemini_parser.

(* ================================================================== *)
(** * vendors: base_parser.py, kruse_sons.py, rw_zant.py *)
(* ================================================================== *)

(** A cell of a table row: a string, or [None]. *)
Definition cell := option pystr.

Record LineItem : Type := MkLineItem {
  item_product_id : pystr;
  item_description : pystr;
  item_cost : pystr
}.

Definition count_alpha (s : pystr) : nat := length (filter isalpha s).

Module BaseParser.

(** Pattern [\$\s*(\d{1,4}(?:\.\d{2})?)]. *)
Definition re_dollar_price : regex :=
  seq [lit "$"; star space;
       Grp 1 (Cat (between 1 4 digit) (opt (Cat (lit ".") (times 2 digit))))].

(** The body of [clean_cost] up to the sanity check.  [None] in the
    [float_of] case is the [ValueError] the source does not catch; the
    group is never such a text. *)
Definition clean_cost_value (cost_str : pystr) : option cents :=
  if negb (truthy cost_str) then None
  else if negb (contains_chr "$" cost_str) then None
  else
    match re_search re_dollar_price cost_str with
    | None => None
    | Some price_match =>
        let price_value := group_str price_match 1 in
        match float_of price_value with
        | None => None
        | Some price_float =>
            if (100000 <? price_float)%N then None else Some price_float
        end
    end.

Definition clean_cost (cost_str : pystr) : option pystr :=
  option_map (fun price_float => str "$" ++ format_2f price_float)
             (clean_cost_value cost_str).

Definition is_valid_description (description : pystr) : bool :=
  if negb (truthy description) then false
  else if count_alpha description <? 2 then false
  else true.

End BaseParser.

Module KruseSonsParser.

(** Pattern [^(\d{1,3})\b]. *)
Definition re_code : regex := seq [Bol; Grp 1 (between 1 3 digit); WordB].

(** Pattern [^\d{1,3}$]. *)
Definition re_code_only : regex := seq [Bol; between 1 3 digit; Eol].

(** Patterns [(\d{1,5}\.\d{2})] and [(\d{1,5})]. *)
Definition re_decimal : regex :=
  Grp 1 (seq [between 1 5 digit; lit "."; times 2 digit]).
Definition re_whole : regex := Grp 1 (between 1 5 digit).

Definition extract_product_id (text : pystr) : option pystr * pystr :=
  let text := strip text in
  match re_match re_code text with
  | Some m =>
      let product_id := group_str m 1 in
      let remaining := strip (skipn (length product_id) text) in
      (Some product_id, remaining)
  | None => (None, text)
  end.

Definition validate_product_id (product_id : pystr) : bool :=
  if negb (truthy product_id) then false
  else if mem (upper product_id) [str "N/A"; str "NA"; str "-"] then true
  else if is_some (re_match re_code_only product_id) then true
  else false.

Definition clean_cost (cost_str : pystr) : option pystr :=
  if negb (truthy cost_str) then None
  else
    let cost_str := upper (strip cost_str) in
    let found :=
      match re_search re_decimal cost_str with
      | Some m => Some m
      | None => re_search re_whole cost_str
      end in
    match found with
    | None => None
    | Some m =>
        match float_of (group_str m 1) with
        | None => None
        | Some cost_value =>
            if negb ((1 <=? cost_value)%N && (cost_value <=? 999999)%N) then None
            else Some (str "$" ++ format_2f cost_value ++ str "/LB")
        end
    end.

Definition is_valid_description (description : pystr) : bool :=
  if negb (truthy description) then false
  else if startswith (strip description) (str "**") then false
  else if count_alpha description <? 2 then false
  else true.

(** [str(cell).strip() if cell else ''] *)
Definition clean_cell (c : cell) : pystr :=
  match c with
  | Some s => if truthy s then strip s else []
  | None => []
  end.

(** The product id of a row whose first cell is [raw_id]. *)
Definition row_product_id (raw_id : pystr) : pystr :=
  if negb (truthy raw_id) || negb (truthy (strip raw_id)) then str "N/A"
  else
    match extract_product_id raw_id with
    | (Some product_id, _) =>
        if negb (truthy product_id) || negb (validate_product_id product_id)
        then str "N/A" else product_id
    | (None, _) => str "N/A"
    end.

Definition parse_table_row (row : list cell) : option LineItem :=
  if length row <? 3 then None
  else
    let row_clean := map clean_cell row in
    let raw_id := nth 0 row_clean [] in
    let description := nth 1 row_clean [] in
    let raw_price := last row_clean [] in
    if startswith description (str "**") then None
    else if negb (truthy raw_price) || negb (is_some (re_search digit raw_price))
    then None
    else
      let product_id := row_product_id raw_id in
      if negb (truthy description) || negb (is_valid_description description)
      then None
      else
        let cost_cleaned := clean_cost raw_price in
        match cost_cleaned with
        | Some cost =>
            if falsy cost_cleaned then None
            else Some {| item_product_id := product_id;
                         item_description := description;
                         item_cost := cost |}
        | None => None
        end.

(** ** parse_text_line *)

(** Patterns [\d{1,2}\.\d{2}] and [\s+]. *)
Definition re_price : regex := seq [between 1 2 digit; lit "."; times 2 digit].
Definition re_spaces : regex := plus space.

(** Pattern [^(\d{1,3})\s+(.+?)\s+(\d{1,2}\.\d{2})\s*$]. *)
Definition re_line : regex :=
  seq [Bol; Grp 1 (between 1 3 digit); plus space; Grp 2 (lazy_plus dot);
       plus space; Grp 3 re_price; star space; Eol].

(** Pattern [(\d{1,3})\s+(.+?)\s+(\d{1,2}\.\d{2})]. *)
Definition re_line_loose : regex :=
  seq [Grp 1 (between 1 3 digit); plus space; Grp 2 (lazy_plus dot);
       plus space; Grp 3 re_price].

Definition parse_text_line (line : pystr) : option LineItem :=
  if negb (truthy line) || negb (truthy (strip line)) then None
  else if negb (is_some (re_search re_price line)) then None
  else if contains (str "**") line then None
  else
    let found :=
      match re_search re_line line with
      | Some m => Some m
      | None => re_search re_line_loose line
      end in
    match found with
    | None => None
    | Some m =>
        let product_id := strip (group_str m 1) in
        let description := strip (group_str m 2) in
        let cost_str := strip (group_str m 3) in
        if negb (validate_product_id product_id) then None
        else if negb (is_valid_description description) then None
        else
          let cost_cleaned := clean_cost cost_str in
          match cost_cleaned with
          | None => None
          | Some cost =>
              if falsy cost_cleaned then None
              else
                let description := strip (re_sub re_spaces (str " ") description) in
                Some {| item_product_id := product_id;
                        item_description := description;
                        item_cost := cost |}
          end
    end.

End KruseSonsParser.

Module RWZantParser.

(** Pattern [^(\d+)]. *)
Definition re_leading_digits : regex := seq [Bol; Grp 1 (plus digit)].

(** Pattern [\s+]. *)
Definition re_spaces : regex := plus space.

Definition extract_product_id (text : pystr) : option pystr * pystr :=
  let text := strip text in
  match re_match re_leading_digits text with
  | None => (None, text)
  | Some m =>
      let digits := group_str m 1 in
      let remaining := strip (skipn (length digits) text) in
      if 6 <? length digits
      then (Some (firstn 6 digits), skipn 6 digits ++ str " " ++ remaining)
      else (Some digits, remaining)
  end.

Definition validate_product_id (product_id : pystr) : bool :=
  if negb (truthy product_id) then false
  else if negb (all_digits product_id) then false
  else if 6 <? length product_id then false
  else true.

(** RW Zant keeps the cost and description rules of the base class. *)
Definition clean_cost := BaseParser.clean_cost.
Definition is_valid_description := BaseParser.is_valid_description.

Definition cell_truthy (c : cell) : bool :=
  match c with Some s => truthy s | None => false end.

(** [str(cell)] of a cell that is a string. *)
Definition cell_str (c : cell) : pystr :=
  match c with Some s => s | None => str "None" end.

(** Index of the first cell with a dollar sign. *)
Fixpoint find_cost_idx (row : list cell) (idx : nat) : option nat :=
  match row with
  | [] => None
  | c :: t =>
      if cell_truthy c && contains_chr "$" (cell_str c) then Some idx
      else find_cost_idx t (S idx)
  end.

(** The stripped non-blank cells at the indices 1 .. cost_idx - 1. *)
Definition description_parts_of (row : list cell) (cost_idx : nat) : list pystr :=
  map (fun c => strip (cell_str c))
      (filter (fun c => cell_truthy c && truthy (strip (cell_str c)))
              (firstn (cost_idx - 1) (skipn 1 row))).

(** [str(row[0]).strip() if row[0] else ''] *)
Definition row_raw_id (row : list cell) : pystr :=
  if cell_truthy (nth 0 row None) then strip (cell_str (nth 0 row None)) else [].

Definition parse_table_row (row : list cell) : option LineItem :=
  if length row <? 3 then None
  else
    match find_cost_idx row 0 with
    | None => None
    | Some cost_idx =>
        let raw_id := row_raw_id row in
        let raw_price := strip (cell_str (nth cost_idx row None)) in
        let description_parts := description_parts_of row cost_idx in
        if negb (truthy raw_id) || (length description_parts =? 0) then None
        else
          let cost_cleaned := clean_cost raw_price in
          match cost_cleaned with
          | None => None
          | Some cost =>
              if falsy cost_cleaned then None
              else
                match extract_product_id raw_id with
                | (None, _) => None
                | (Some product_id, extra_text) =>
                    if negb (truthy product_id) || negb (validate_product_id product_id)
                    then None
                    else
                      let description := join (str " ") description_parts in
                      let description :=
                        if truthy extra_text
                        then extra_text ++ str " " ++ description
                        else description in
                      let description := strip (re_sub re_spaces (str " ") description) in
                      if negb (is_valid_description description) then None
                      else Some {| item_product_id := product_id;
                                   item_description := description;
                                   item_cost := cost |}
                end
          end
    end.

(** ** parse_text_line *)

(** Pattern [\s{2,}|\t]. *)
Definition re_gap : regex := Alt (Cat (times 2 space) (star space)) (lit "009").

(** Pattern
    [^(\d+)\s+([A-Za-z][\w\s\-\.]+?)\s+(?:\(\d+\))?\s*(?:\d+[/#\w]*\s+)?(?:10#\s+)?(\$[\d,\.]+)]. *)
Definition re_text_line : regex :=
  seq [Bol; Grp 1 (plus digit); plus space;
       Grp 2 (Cat (Cls isalpha)
                  (lazy_plus (Cls (fun c => isword c || isspace c
                                            || chr_eqb c "-" || chr_eqb c "."))));
       plus space;
       opt (seq [lit "("; plus digit; lit ")"]);
       star space;
       opt (seq [plus digit;
                 star (Cls (fun c => chr_eqb c "/" || chr_eqb c "#" || isword c));
                 plus space]);
       opt (seq [lits "10#"; plus space]);
       Grp 3 (Cat (lit "$")
                  (plus (Cls (fun c => isdigit c || chr_eqb c "," || chr_eqb c "."))))].

(** Index of the first part with a dollar sign. *)
Fixpoint find_dollar_idx (parts : list pystr) (idx : nat) : option nat :=
  match parts with
  | [] => None
  | part :: t =>
      if contains_chr "$" part then Some idx else find_dollar_idx t (S idx)
  end.

(** The end of both strategies: the extra digits go in front of the
    description, white space is squeezed, and the three values are
    validated. *)
Definition finish_text_line (product_id extra_text description : pystr)
    (cost_cleaned : option pystr) : option LineItem :=
  let description :=
    if truthy extra_text then extra_text ++ str " " ++ description else description in
  let description := strip (re_sub re_spaces (str " ") description) in
  if validate_product_id product_id && is_valid_description description
     && negb (falsy cost_cleaned)
  then
    match cost_cleaned with
    | Some cost => Some {| item_product_id := product_id;
                           item_description := description;
                           item_cost := cost |}
    | None => None
    end
  else None.

(** Strategy 2: the pattern of a whole line. *)
Definition parse_text_line_pattern (line : pystr) : option LineItem :=
  match re_search re_text_line line with
  | None => None
  | Some m =>
      let raw_id := strip (group_str m 1) in
      let description := strip (group_str m 2) in
      let cost_str := strip (group_str m 3) in
      match extract_product_id raw_id with
      | (None, _) => None
      | (Some product_id, extra_text) =>
          if negb (truthy product_id) then None
          else finish_text_line product_id extra_text description (clean_cost cost_str)
      end
  end.

Definition parse_text_line (line : pystr) : option LineItem :=
  if negb (truthy line) || negb (truthy (strip line)) then None
  else if negb (contains_chr "$" line) then None
  else if contains (str "product id") (lower line)
          || contains (str "special offering") (lower line) then None
  else
    let parts := re_split re_gap (strip line) in
    (* Strategy 1: the parts between wide gaps. *)
    let by_parts : option (option LineItem) :=
      if 3 <=? length parts then
        match find_dollar_idx parts 0 with
        | None => None
        | Some cost_idx =>
            let first_part := strip (nth 0 parts []) in
            match extract_product_id first_part with
            | (None, _) => Some None
            | (Some product_id, extra_text) =>
                if negb (truthy product_id) then Some None
                else
                  let cost_cleaned := clean_cost (nth cost_idx parts []) in
                  let description :=
                    if 1 <? cost_idx
                    then strip (join (str " ") (firstn (cost_idx - 1) (skipn 1 parts)))
                    else strip (nth 1 parts []) in
                  match finish_text_line product_id extra_text description cost_cleaned
                  with
                  | Some item => Some (Some item)
                  | None => None
                  end
            end
        end
      else None in
    match by_parts with
    | Some answer => answer
    | None => parse_text_line_pattern line
    end.

End RWZantParser.

(* ================================================================== *)
(** * pdf_processor.py: process_pdf *)
(* ================================================================== *)

Module pdf_processor.

(** The extraction strategies read the document through the PDF, OCR and
    model libraries; each is taken as what it answers for a file and a
    vendor: the records, or an exception. *)
Record Extractors : Type := MkExtractors {
  HAS_GEMINI : bool;
  parse_pdf_with_gemini : pystr -> pystr -> result (list LineItem);
  extract_image_tables_structured : pystr -> pystr -> result (list LineItem);
  extract_text_tables : pystr -> pystr -> result (list LineItem);
  extract_image_tables : pystr -> pystr -> result (list LineItem)
}.

(** The [name] entries of [VENDOR_CONFIGS]. *)
Definition VENDOR_CONFIGS : list (pystr * pystr) :=
  [(str "rw_zant", str "RW Zant");
   (str "glen_rose", str "Glen Rose Meat Company");
   (str "kruse_sons", str "Kruse & Sons");
   (str "quirch_foods", str "Quirch Foods");
   (str "purcell", str "Purcell");
   (str "laras_meat", str "Laras Meat");
   (str "maui_prices", str "Maui Prices");
   (str "cd_international", str "C&D International Fishery");
   (str "royalty_distribution", str "Royalty Distribution");
   (str "la_poultry", str "Los Angeles Poultry Co");
   (str "tnt_produce", str "TNT Produce Company");
   (str "apsic_wholesale", str "APSIC Wholesale");
   (str "delmar_cow", str "Del Mar Distributions COW");
   (str "delmar_steer", str "Del Mar Distributions Steer");
   (str "gladway", str "Gladway Pricing");
   (str "union_fish", str "Union Fish");
   (str "solomon_wholesale", str "Solomon Wholesale");
   (str "da_price", str "D&A PRICE");
   (str "broadleaf", str "Broadleaf");
   (str "cofoods", str "Cofoods Inc");
   (str "monarch_trading", str "Monarch Trading");
   (str "unknown", str "Unknown Vendor")].

Fixpoint config_name (table : list (pystr * pystr)) (vendor : pystr) : pystr :=
  match table with
  | [] => []
  | (k, name) :: t => if eqb k vendor then name else config_name t vendor
  end.

Definition gemini_vendors : list pystr :=
  [str "glen_rose"; str "kruse_sons"; str "quirch_foods"; str "purcell";
   str "laras_meat"; str "maui_prices"; str "cd_international";
   str "royalty_distribution"; str "la_poultry"; str "tnt_produce";
   str "apsic_wholesale"; str "delmar_cow"; str "delmar_steer";
   str "gladway"; str "union_fish"; str "solomon_wholesale"; str "da_price";
   str "broadleaf"; str "cofoods"; str "monarch_trading"; str "unknown"].

(** The vendors of the fourth image-based block. *)
Definition image_fallback_vendors : list pystr :=
  [str "purcell"; str "laras_meat"; str "maui_prices"; str "cd_international";
   str "royalty_distribution"; str "la_poultry"; str "tnt_produce";
   str "apsic_wholesale"; str "delmar_cow"; str "delmar_steer";
   str "gladway"; str "union_fish"; str "solomon_wholesale"; str "da_price";
   str "broadleaf"; str "cofoods"; str "monarch_trading"].

(** The label of the image-based block a vendor runs through, if any. *)
Definition image_block (vendor : pystr) : option pystr :=
  if eqb vendor (str "glen_rose") then Some (str "Glen Rose")
  else if eqb vendor (str "kruse_sons") then Some (str "Kruse & Sons")
  else if eqb vendor (str "quirch_foods") then Some (str "Quirch Foods")
  else if mem vendor image_fallback_vendors
  then Some (config_name VENDOR_CONFIGS vendor)
  else None.

(** [data and len(data) > 0] *)
Definition has_records (data : list LineItem) : bool :=
  match data with [] => false | _ :: _ => true end.

(** Last stage: OCR; its exception is raised again, its empty answer
    leaves [extracted_data], the empty list, to be returned. *)
Definition ocr_stage (ex : Extractors) (filepath vendor : pystr)
    : result (list LineItem) :=
  let extracted_data : list LineItem := [] in
  match extract_image_tables ex filepath vendor with
  | Ok ocr_data => if has_records ocr_data then Ok ocr_data else Ok extracted_data
  | Raise e => Raise (Exception (str "Failed to extract data from PDF: " ++ exn_msg e))
  end.

(** Text-based extraction, then OCR. *)
Definition text_stage (ex : Extractors) (filepath vendor : pystr)
    : result (list LineItem) :=
  match extract_text_tables ex filepath vendor with
  | Ok text_data =>
      if has_records text_data then Ok text_data else ocr_stage ex filepath vendor
  | Raise _ => ocr_stage ex filepath vendor
  end.

(** Image-based table extraction for the vendors that have a block. *)
Definition image_stage (ex : Extractors) (filepath vendor : pystr)
    : result (list LineItem) :=
  match image_block vendor with
  | Some label =>
      match extract_image_tables_structured ex filepath vendor with
      | Ok image_data =>
          if has_records image_data then Ok image_data
          else text_stage ex filepath vendor
      | Raise e =>
          Raise (Exception (str "Failed to extract data from " ++ label
                            ++ str " PDF: " ++ exn_msg e))
      end
  | None => text_stage ex filepath vendor
  end.

Definition process_pdf (ex : Extractors) (filepath vendor : pystr)
    : result (list LineItem) :=
  if mem vendor gemini_vendors && HAS_GEMINI ex then
    match parse_pdf_with_gemini ex filepath vendor with
    | Ok gemini_data =>
        if has_records gemini_data then Ok gemini_data
        else image_stage ex filepath vendor
    | Raise _ => image_stage ex filepath vendor
    end
  else image_stage ex filepath vendor.

End pdf_processor.

(* ================================================================== *)
(** * gemini_parser.py: the rows of the CSV answer *)
(* ================================================================== *)

Module gemini_rows.

(** Patterns [^\d{8,11}-\d{2,3}$] and [^\d{6,10}-\d{1,3}$]. *)
Definition re_glen_rose_primary : regex :=
  seq [Bol; between 8 11 digit; lit "-"; between 2 3 digit; Eol].
Definition re_glen_rose_fallback : regex :=
  seq [Bol; between 6 10 digit; lit "-"; between 1 3 digit; Eol].

Definition validate_glen_rose_product_id (product_id : pystr) : bool :=
  if is_some (re_match re_glen_rose_primary product_id) then true
  else if is_some (re_match re_glen_rose_fallback product_id) then true
  else if all_digits product_id
          && (6 <=? length product_id) && (length product_id <=? 11) then true
  else false.

(** Pattern [^\d{1,3}$]. *)
Definition re_kruse_code : regex := seq [Bol; between 1 3 digit; Eol].

Definition validate_kruse_sons_product_id (product_id : pystr) : bool :=
  if is_some (re_match re_kruse_code product_id) then true else false.

(** Patterns [^\d{10}$], [^\d{6}$] and [^\d{7,9}$]. *)
Definition re_quirch_10 : regex := seq [Bol; times 10 digit; Eol].
Definition re_quirch_6 : regex := seq [Bol; times 6 digit; Eol].
Definition re_quirch_7_9 : regex := seq [Bol; between 7 9 digit; Eol].

Definition validate_quirch_foods_product_id (product_id : pystr) : bool :=
  if is_some (re_match re_quirch_10 product_id) then true
  else if is_some (re_match re_quirch_6 product_id) then true
  else if is_some (re_match re_quirch_7_9 product_id) then true
  else false.

(** The class [[A-Za-z0-9\-]] and the pattern [^[A-Za-z0-9\-]{3,15}$]. *)
Definition is_flexible_chr (c : ascii) : bool :=
  isupper c || islower c || isdigit c || chr_eqb c "-".
Definition re_flexible : regex := seq [Bol; between 3 15 (Cls is_flexible_chr); Eol].

Definition validate_flexible_product_id (product_id : pystr) : bool :=
  if is_some (re_match re_flexible product_id) then true else false.

(** [s.strip()] followed by the strip of the double quotes and the strip
    of the apostrophes. *)
Definition unquote (s : pystr) : pystr :=
  strip_chr "'" (strip_chr dquote (strip s)).

(** The check of the id format for the vendors that have one. *)
Definition product_id_format_ok (product_id vendor : pystr) : bool :=
  if eqb vendor (str "glen_rose") then validate_glen_rose_product_id product_id
  else if eqb vendor (str "kruse_sons") then validate_kruse_sons_product_id product_id
  else if eqb vendor (str "quirch_foods") then validate_quirch_foods_product_id product_id
  else if mem vendor [str "purcell"; str "laras_meat"; str "maui_prices"]
  then validate_flexible_product_id product_id
  else true.

Definition clean_product_data (product_id description cost vendor : pystr)
    : option LineItem :=
  let product_id := unquote product_id in
  if negb (truthy product_id) then None
  else
    let product_id :=
      if mem (upper product_id) [str "N/A"; str "NA"; str "-"] then str "N/A"
      else product_id in
    let description := unquote description in
    if negb (truthy description) || (length description <? 2) then None
    else
      let cost := unquote cost in
      if negb (truthy cost) then None
      else
        let cost_cleaned := gemini_parser.clean_cost cost in
        match cost_cleaned with
        | None => None
        | Some cost_text =>
            if falsy cost_cleaned then None
            else if negb (eqb product_id (str "N/A"))
                    && negb (product_id_format_ok product_id vendor) then None
            else Some {| item_product_id := product_id;
                         item_description := description;
                         item_cost := cost_text |}
        end.

(** ** csv.reader on one line

    The reader of the [csv] module with the default dialect: separator
    comma, quote character the double quote, a doubled quote inside a quoted
    field standing for one quote, no escape character, not strict.  It
    follows the states of the module's parser; the limit on the size of a
    field is not modelled. *)

Inductive csv_state : Type :=
| START_RECORD | START_FIELD | IN_FIELD | IN_QUOTED_FIELD
| QUOTE_IN_QUOTED_FIELD | EAT_CRNL.

Record csv_reader : Type := MkReader {
  cs_state : csv_state;
  cs_field : pystr;            (* the field being read *)
  cs_fields : list pystr       (* the fields read so far *)
}.

Definition parse_reset : csv_reader :=
  {| cs_state := START_RECORD; cs_field := []; cs_fields := [] |}.

Definition set_state (s : csv_state) (r : csv_reader) : csv_reader :=
  {| cs_state := s; cs_field := cs_field r; cs_fields := cs_fields r |}.

Definition parse_save_field (r : csv_reader) : csv_reader :=
  {| cs_state := cs_state r; cs_field := []; cs_fields := cs_fields r ++ [cs_field r] |}.

Definition parse_add_char (c : ascii) (r : csv_reader) : csv_reader :=
  {| cs_state := cs_state r; cs_field := cs_field r ++ [c]; cs_fields := cs_fields r |}.

Definition is_crnl (c : ascii) : bool := chr_eqb c newline || chr_eqb c "013".

(** One character, or the end of the line ([None]); the result is
    [None] for the error of the module. *)
Definition parse_process_char (r : csv_reader) (c : option ascii) : option csv_reader :=
  let start_field (r : csv_reader) :=
    match c with
    | None => Some (set_state START_RECORD (parse_save_field r))
    | Some x =>
        if is_crnl x then Some (set_state EAT_CRNL (parse_save_field r))
        else if chr_eqb x dquote then Some (set_state IN_QUOTED_FIELD r)
        else if chr_eqb x "," then Some (parse_save_field r)
        else Some (set_state IN_FIELD (parse_add_char x r))
    end in
  match cs_state r with
  | START_RECORD =>
      match c with
      | None => Some r
      | Some x =>
          if is_crnl x then Some (set_state EAT_CRNL r)
          else start_field (set_state START_FIELD r)
      end
  | START_FIELD => start_field r
  | IN_FIELD =>
      match c with
      | None => Some (set_state START_RECORD (parse_save_field r))
      | Some x =>
          if is_crnl x then Some (set_state EAT_CRNL (parse_save_field r))
          else if chr_eqb x "," then Some (set_state START_FIELD (parse_save_field r))
          else Some (parse_add_char x r)
      end
  | IN_QUOTED_FIELD =>
      match c with
      | None => Some r
      | Some x =>
          if chr_eqb x dquote then Some (set_state QUOTE_IN_QUOTED_FIELD r)
          else Some (parse_add_char x r)
      end
  | QUOTE_IN_QUOTED_FIELD =>
      match c with
      | None => Some (set_state START_RECORD (parse_save_field r))
      | Some x =>
          if chr_eqb x dquote then Some (set_state IN_QUOTED_FIELD (parse_add_char x r))
          else if chr_eqb x "," then Some (set_state START_FIELD (parse_save_field r))
          else if is_crnl x then Some (set_state EAT_CRNL (parse_save_field r))
          else Some (set_state IN_FIELD (parse_add_char x r))
      end
  | EAT_CRNL =>
      match c with
      | None => Some (set_state START_RECORD r)
      | Some x => if is_crnl x then Some r else None
      end
  end.

(** The characters of a line, then its end. *)
Fixpoint process_line (r : csv_reader) (line : pystr) : option csv_reader :=
  match line with
  | [] => parse_process_char r None
  | c :: t =>
      match parse_process_char r (Some c) with
      | Some r' => process_line r' t
      | None => None
      end
  end.

(** The lines [io.StringIO(s)] yields: each one up to and with its line
    feed. *)
Fixpoint lines_of (s : pystr) (current : pystr) : list pystr :=
  match s with
  | [] => match current with [] => [] | _ => [current] end
  | c :: t =>
      if chr_eqb c newline then (current ++ [c]) :: lines_of t []
      else lines_of t (current ++ [c])
  end.

(** [next(reader)]: lines are read until a record is complete; [None]
    is [StopIteration] or the error of the module. *)
Fixpoint reader_next (r : csv_reader) (lines : list pystr) : option (list pystr) :=
  match lines with
  | [] =>
      match cs_field r, cs_state r with
      | _, IN_QUOTED_FIELD => Some (cs_fields (parse_save_field r))
      | _ :: _, _ => Some (cs_fields (parse_save_field r))
      | [], _ => None
      end
  | line :: more =>
      match process_line r line with
      | None => None
      | Some r' =>
          match cs_state r' with
          | START_RECORD => Some (cs_fields r')
          | _ => reader_next r' more
          end
      end
  end.

Definition parse_csv_line (line : pystr) : list pystr :=
  match reader_next parse_reset (lines_of line []) with
  | Some fields => fields
  | None => split_chr "," line
  end.

(** ** The answer of the model *)

(** The dot under [re.DOTALL]. *)
Definition any_chr : regex := Cls (fun _ => true).

(** Pattern [```(?:csv)?\s*\n(.*?)\n```] under [re.DOTALL]. *)
Definition re_csv_fence : regex :=
  seq [lits "```"; opt (lits "csv"); star space; lit newline;
       Grp 1 (lazy_star any_chr); lit newline; lits "```"].

Definition extract_csv_from_response (response_text : pystr) : pystr :=
  if contains (str "```") response_text then
    match re_search re_csv_fence response_text with
    | Some m => group_str m 1
    | None => response_text
    end
  else response_text.

(** The body of the loop over the data lines: the record of a line,
    if it gives one. *)
Definition parse_data_line (line vendor : pystr) : option LineItem :=
  if negb (truthy (strip line)) then None
  else
    let parsed := parse_csv_line line in
    if (length parsed =? 0) || (length parsed <? 3) then None
    else
      let product_id := strip (nth 0 parsed []) in
      let description := strip (nth 1 parsed []) in
      let cost := strip (nth 2 parsed []) in
      clean_product_data product_id description cost vendor.

(** [[x for x in map(f, l) if x]] *)
Fixpoint keep_some {A B} (f : A -> option B) (l : list A) : list B :=
  match l with
  | [] => []
  | a :: t =>
      match f a with
      | Some b => b :: keep_some f t
      | None => keep_some f t
      end
  end.

Definition parse_gemini_csv_response (response_text vendor : pystr) : list LineItem :=
  let csv_content := extract_csv_from_response response_text in
  let lines := split_chr newline (strip csv_content) in
  match lines with
  | [] => []
  | first :: rest =>
      let header := lower first in
      let data_lines := if negb (contains (str "product") header) then lines else rest in
      keep_some (fun line => parse_data_line line vendor) data_lines
  end.

End gemini_rows.
Import gemini_rows.

(* ================================================================== *)
(** * app.py: file names, vendors and the export of duplicates *)
(* ================================================================== *)

Module app.

(** ** allowed_file *)

(** [s.rsplit(sep, 1)] for a one-character separator: the text before
    the last separator and the text after it, or [None] when [s] has no
    separator (the list is then [[s]]). *)
Fixpoint rsplit1 (sep : ascii) (s : pystr) : option (pystr * pystr) :=
  match s with
  | [] => None
  | x :: t =>
      match rsplit1 sep t with
      | Some (before, after) => Some (x :: before, after)
      | None => if chr_eqb x sep then Some ([], t) else None
      end
  end.

Definition ALLOWED_EXTENSIONS : list pystr := [str "pdf"].

(** The second element of the split exists when the name has a dot, so
    the last case is not reached. *)
Definition allowed_file (filename : pystr) : bool :=
  if negb (contains_chr "." filename) then false
  else
    match rsplit1 "." filename with
    | Some (_, extension) => mem (lower extension) ALLOWED_EXTENSIONS
    | None => false
    end.

(** ** extract_vendor_name and detect_vendor_code *)

Definition VENDOR_NAME_MAPPING : list (pystr * pystr) :=
  [
   (str "quirch foods", str "quirch_foods");
   (str "quirchfoods", str "quirch_foods");
   (str "quirch", str "quirch_foods");
   (str "kruse & sons", str "kruse_sons");
   (str "kruse and sons", str "kruse_sons");
   (str "kruse sons", str "kruse_sons");
   (str "kruse__son", str "kruse_sons");
   (str "kruse", str "kruse_sons");
   (str "glen rose", str "glen_rose");
   (str "glenrose", str "glen_rose");
   (str "glen", str "glen_rose");
   (str "purcell", str "purcell");
   (str "laras meat", str "laras_meat");
   (str "laras_meat", str "laras_meat");
   (str "larasmeat", str "laras_meat");
   (str "laras", str "laras_meat");
   (str "maui prices", str "maui_prices");
   (str "maui_prices", str "maui_prices");
   (str "mauiprices", str "maui_prices");
   (str "maui", str "maui_prices");
   (str "c&d international", str "cd_international");
   (str "cd international", str "cd_international");
   (str "c&d", str "cd_international");
   (str "cd", str "cd_international");
   (str "royalty distribution", str "royalty_distribution");
   (str "royalty_distribution", str "royalty_distribution");
   (str "royaltydistribution", str "royalty_distribution");
   (str "royalty", str "royalty_distribution");
   (str "los_angeles_poultry", str "la_poultry");
   (str "los angeles poultry", str "la_poultry");
   (str "la poultry", str "la_poultry");
   (str "lapoultry", str "la_poultry");
   (str "la_poultry", str "la_poultry");
   (str "price_list_la", str "la_poultry");
   (str "tnt_produce_company", str "tnt_produce");
   (str "tnt produce company", str "tnt_produce");
   (str "tnt_produce", str "tnt_produce");
   (str "tnt produce", str "tnt_produce");
   (str "tntproduce", str "tnt_produce");
   (str "tnt", str "tnt_produce");
   (str "apsic_wholesale", str "apsic_wholesale");
   (str "apsic wholesale", str "apsic_wholesale");
   (str "apsicwholesale", str "apsic_wholesale");
   (str "apsic", str "apsic_wholesale");
   (str "del_mar_distributors_cow", str "delmar_cow");
   (str "del_mar_distributions_cow", str "delmar_cow");
   (str "del mar distributors cow", str "delmar_cow");
   (str "del mar distributions cow", str "delmar_cow");
   (str "delmar distributors cow", str "delmar_cow");
   (str "delmar distributions cow", str "delmar_cow");
   (str "del_mar_cow", str "delmar_cow");
   (str "delmar cow", str "delmar_cow");
   (str "delmarcow", str "delmar_cow");
   (str "del mar cow", str "delmar_cow");
   (str "del_mar_distributors_steer", str "delmar_steer");
   (str "del_mar_distributions_steer", str "delmar_steer");
   (str "del mar distributors steer", str "delmar_steer");
   (str "del mar distributions steer", str "delmar_steer");
   (str "delmar distributors steer", str "delmar_steer");
   (str "delmar distributions steer", str "delmar_steer");
   (str "del_mar_steer", str "delmar_steer");
   (str "delmar steer", str "delmar_steer");
   (str "delmarsteer", str "delmar_steer");
   (str "del mar steer", str "delmar_steer");
   (str "gladway_pricing", str "gladway");
   (str "gladway pricing", str "gladway");
   (str "gladwaypricing", str "gladway");
   (str "gladway", str "gladway");
   (str "union_fish", str "union_fish");
   (str "union fish", str "union_fish");
   (str "unionfish", str "union_fish");
   (str "solomon_wholesale_prices", str "solomon_wholesale");
   (str "solomon_wholesale", str "solomon_wholesale");
   (str "solomon wholesale prices", str "solomon_wholesale");
   (str "solomon wholesale", str "solomon_wholesale");
   (str "solomonwholesale", str "solomon_wholesale");
   (str "solomon", str "solomon_wholesale");
   (str "d&a_price", str "da_price");
   (str "d&a price", str "da_price");
   (str "da_price", str "da_price");
   (str "da price", str "da_price");
   (str "daprice", str "da_price");
   (str "d&a", str "da_price");
   (str "broadleaf", str "broadleaf");
   (str "broad_leaf", str "broadleaf");
   (str "broad leaf", str "broadleaf");
   (str "cofoods_inc", str "cofoods");
   (str "cofoods inc", str "cofoods");
   (str "cofoodsinc", str "cofoods");
   (str "cofoods", str "cofoods");
   (str "co_foods", str "cofoods");
   (str "co foods", str "cofoods");
   (str "monarch_trading", str "monarch_trading");
   (str "monarch trading", str "monarch_trading");
   (str "monarchtrading", str "monarch_trading");
   (str "monarch", str "monarch_trading");
   (str "rw zant", str "rw_zant");
   (str "rwzant", str "rw_zant");
   (str "zant", str "rw_zant")].

(** [filename.rsplit('.', 1)[0]] *)
Definition before_last_dot (filename : pystr) : pystr :=
  match rsplit1 "." filename with
  | Some (before, _) => before
  | None => filename
  end.

(** The class [[a-zA-Z\s_-]] and the pattern [^([a-zA-Z\s_-]+)]. *)
Definition is_name_chr (c : ascii) : bool :=
  isalpha c || isspace c || chr_eqb c "_" || chr_eqb c "-".
Definition re_vendor_name : regex := seq [Bol; Grp 1 (plus (Cls is_name_chr))].

(** The characters of [strip('_- ')]. *)
Definition is_trim_chr (c : ascii) : bool :=
  chr_eqb c "_" || chr_eqb c "-" || chr_eqb c " ".

Definition extract_vendor_name (filename : pystr) : pystr :=
  let name := before_last_dot filename in
  match re_match re_vendor_name name with
  | Some m =>
      let vendor_name := strip_by is_trim_chr (group_str m 1) in
      if truthy vendor_name then vendor_name else before_last_dot filename
  | None => name
  end.

(** The loop over the items of the mapping, in the order they are
    written. *)
Fixpoint first_pattern (mapping : list (pystr * pystr)) (vendor_name : pystr) : pystr :=
  match mapping with
  | [] => str "unknown"
  | (pattern, code) :: rest =>
      if contains pattern vendor_name then code else first_pattern rest vendor_name
  end.

Definition detect_vendor_code (filename : pystr) : pystr :=
  let vendor_name := lower (extract_vendor_name filename) in
  first_pattern VENDOR_NAME_MAPPING vendor_name.

(** ** process_single_pdf *)

(** The dictionary the function returns, without its processing time. *)
Record Processed : Type := MkProcessed {
  p_vendor_name : pystr;
  p_vendor_code : pystr;
  p_filename : pystr;
  p_status : pystr;
  p_data : list LineItem;
  p_error : option pystr
}.

(** [VENDOR_CONFIGS[vendor_code]]: whether the key is there. *)
Definition configured (vendor_code : pystr) : bool :=
  mem vendor_code (map fst pdf_processor.VENDOR_CONFIGS).

(** [path_join] is [os.path.join].  The name of the vendor is looked up
    for the banner before the [try]: a missing key raises [KeyError],
    whose text is the key between apostrophes. *)
Definition process_single_pdf (path_join : pystr -> pystr -> pystr)
    (ex : pdf_processor.Extractors)
    (filename session_folder : pystr) : result Processed :=
  let filepath := path_join session_folder filename in
  let vendor_name := extract_vendor_name filename in
  let vendor_code := detect_vendor_code filename in
  if negb (configured vendor_code)
  then Raise (Exception (str "'" ++ vendor_code ++ str "'"))
  else
    match pdf_processor.process_pdf ex filepath vendor_code with
    | Ok extracted_data =>
        Ok {| p_vendor_name := vendor_name;
              p_vendor_code := vendor_code;
              p_filename := filename;
              p_status := str "success";
              p_data := extracted_data;
              p_error := None |}
    | Raise e =>
        Ok {| p_vendor_name := vendor_name;
              p_vendor_code := vendor_code;
              p_filename := filename;
              p_status := str "error";
              p_data := [];
              p_error := Some (exn_msg e) |}
    end.

(** ** restructure_duplicate_products *)

(** The rows of the export: the three columns of a record, or the four
    columns of a product with several records. *)
Inductive ExportRow : Type :=
| PlainRow (product_id description cost : pystr)
| PriceRow (product_id description case_price pallet_price : pystr).

(** [product_groups]: the records by product id, the ids in the order
    of their first record. *)
Fixpoint group_add (product_groups : list (pystr * list LineItem)) (item : LineItem)
    : list (pystr * list LineItem) :=
  match product_groups with
  | [] => [(item_product_id item, [item])]
  | (pid, items) :: rest =>
      if eqb (item_product_id item) pid then (pid, items ++ [item]) :: rest
      else (pid, items) :: group_add rest item
  end.

(** [s.replace(old, '')] for a non-empty [old]: the occurrences are
    removed from the left, [skip] characters of an occurrence being still
    to drop. *)
Fixpoint replace_from (old : pystr) (skip : nat) (s : pystr) : pystr :=
  match s with
  | [] => []
  | c :: t =>
      match skip with
      | S k => replace_from old k t
      | O =>
          if startswith s old then replace_from old (length old - 1) t
          else c :: replace_from old 0 t
      end
  end.
Definition remove_sub (old : pystr) (s : pystr) : pystr := replace_from old 0 s.

Definition remove_keywords (keywords : list pystr) (desc : pystr) : pystr :=
  fold_left (fun clean_desc keyword => remove_sub keyword clean_desc) keywords desc.

(** [base_row] while the records of one product are read. *)
Record BaseRow : Type := MkBaseRow {
  b_description : pystr;
  b_case_price : pystr;
  b_pallet_price : pystr
}.

Definition price_step (base_row : BaseRow) (item : LineItem) : BaseRow :=
  let desc := upper (item_description item) in
  let cost := item_cost item in
  if contains (str "CASE") desc || contains (str "CS") desc || contains (str "/CS") desc
  then
    {| b_description :=
         if negb (truthy (b_description base_row))
         then strip (remove_keywords
                       [str "CASE"; str "CS"; str "/CS"; str "-CS"; str "- CS"] desc)
         else b_description base_row;
       b_case_price := cost;
       b_pallet_price := b_pallet_price base_row |}
  else if contains (str "PALLET") desc || contains (str "PLT") desc
          || contains (str "/PLT") desc
  then
    {| b_description :=
         if negb (truthy (b_description base_row))
         then strip (remove_keywords
                       [str "PALLET"; str "PLT"; str "/PLT"; str "-PLT"; str "- PLT"] desc)
         else b_description base_row;
       b_case_price := b_case_price base_row;
       b_pallet_price := cost |}
  else if negb (truthy (b_case_price base_row))
  then
    {| b_description :=
         if negb (truthy (b_description base_row))
         then item_description item else b_description base_row;
       b_case_price := cost;
       b_pallet_price := b_pallet_price base_row |}
  else if negb (truthy (b_pallet_price base_row))
  then
    {| b_description := b_description base_row;
       b_case_price := b_case_price base_row;
       b_pallet_price := cost |}
  else base_row.

Definition restructure_group (group : pystr * list LineItem) : ExportRow :=
  let (pid, items) := group in
  match items with
  | [only] => PlainRow pid (item_description only) (item_cost only)
  | _ =>
      let base_row :=
        fold_left price_step items
                  {| b_description := []; b_case_price := []; b_pallet_price := [] |} in
      let description :=
        match items with
        | first :: _ =>
            if negb (truthy (b_description base_row))
            then item_description first else b_description base_row
        | [] => b_description base_row
        end in
      PriceRow pid description (b_case_price base_row) (b_pallet_price base_row)
  end.

Definition restructure_duplicate_products (data : list LineItem) : list ExportRow :=
  let product_groups := fold_left group_add data [] in
  map restructure_group product_groups.

End app.

(* ================================================================== *)
(** * pdf_processor.py: the extraction strategies *)
(* ================================================================== *)

Module pdf_tables.

(** ** Vendor parsers *)

(** What the strategies use of a vendor parser: the flag and the two
    methods that the subclasses of BaseParser override.  A method answers
    a record or [None], or raises. *)
Record Parser : Type := MkParser {
  requires_dollar_sign : bool;
  parse_table_row : list cell -> result (option LineItem);
  parse_text_line : pystr -> result (option LineItem)
}.

Definition RWZant : Parser :=
  {| requires_dollar_sign := true;
     parse_table_row := fun row => Ok (RWZantParser.parse_table_row row);
     parse_text_line := fun line => Ok (RWZantParser.parse_text_line line) |}.

Definition KruseSons : Parser :=
  {| requires_dollar_sign := false;
     parse_table_row := fun row => Ok (KruseSonsParser.parse_table_row row);
     parse_text_line := fun line => Ok (KruseSonsParser.parse_text_line line) |}.

(** GenericParser: [parse_table_row] of the base class and its own
    [parse_text_line] answer [None]. *)
Definition Generic : Parser :=
  {| requires_dollar_sign := false;
     parse_table_row := fun _ => Ok None;
     parse_text_line := fun _ => Ok None |}.

(** [get_parser]: the parser of the registry, or the one of RW Zant for
    a code that is not in it.  The registry is an argument: the classes
    of several vendors are not part of this development. *)
Fixpoint get_parser (VENDOR_PARSERS : list (pystr * Parser)) (vendor_code : pystr)
    : Parser :=
  match VENDOR_PARSERS with
  | [] => RWZant
  | (code, parser) :: rest =>
      if eqb code vendor_code then parser else get_parser rest vendor_code
  end.

(** ** What the libraries answer *)

(** A table of pdfplumber: rows of cells, a cell being a text or
    [None]. *)
Definition table := list (list cell).

(** Half a page: the answers of [extract_tables] and of [extract_text],
    which is [None] for a page without text. *)
Record HalfPage : Type := MkHalfPage {
  extract_tables : result (list table);
  extract_text : result (option pystr)
}.

(** [VENDOR_CONFIGS[vendor]], read for the banner of a strategy: a
    missing key raises [KeyError], whose text is the key between
    apostrophes. *)
Definition in_configs (vendor : pystr) : bool :=
  mem vendor (map fst pdf_processor.VENDOR_CONFIGS).
Definition key_error (vendor : pystr) : exn :=
  Exception (str "'" ++ vendor ++ str "'").

Section Strategies.

Variable VENDOR_PARSERS : list (pystr * Parser).

(** ** parse_simple_table *)

(** The cells of a row as stripped texts, the empty ones removed. *)
Definition clean_row (row : list cell) : list pystr :=
  filter truthy
         (map (fun item => match item with Some s => strip s | None => [] end) row).

Fixpoint parse_rows (parser : Parser) (rows : table) (parsed_data : list LineItem)
    : result (list LineItem) :=
  match rows with
  | [] => Ok parsed_data
  | row :: rest =>
      if length row <? 3 then parse_rows parser rest parsed_data
      else
        let row_clean := clean_row row in
        if length row_clean <? 3 then parse_rows parser rest parsed_data
        else
          match parse_table_row parser (map Some row_clean) with
          | Raise e => Raise e
          | Ok (Some result) => parse_rows parser rest (parsed_data ++ [result])
          | Ok None => parse_rows parser rest parsed_data
          end
  end.

Definition parse_simple_table (table : table) (vendor : pystr)
    : result (list LineItem) :=
  if length table <? 2 then Ok []
  else parse_rows (get_parser VENDOR_PARSERS vendor) (skipn 1 table) [].

(** ** parse_text_data *)

Fixpoint parse_lines (parser : Parser) (lines : list pystr) (parsed_data : list LineItem)
    : result (list LineItem) :=
  match lines with
  | [] => Ok parsed_data
  | line :: rest =>
      if negb (truthy (strip line)) then parse_lines parser rest parsed_data
      else if requires_dollar_sign parser && negb (contains_chr "$" line)
      then parse_lines parser rest parsed_data
      else
        match parse_text_line parser line with
        | Raise e => Raise e
        | Ok (Some result) => parse_lines parser rest (parsed_data ++ [result])
        | Ok None => parse_lines parser rest parsed_data
        end
  end.

Definition parse_text_data (text vendor : pystr) : result (list LineItem) :=
  if negb (truthy text) then Ok []
  else parse_lines (get_parser VENDOR_PARSERS vendor) (split_chr newline text) [].

(** ** process_half_page *)

(** The loop over the tables; an exception ends it and leaves the items
    of the tables before. *)
Fixpoint extend_tables (vendor : pystr) (tables : list table) (items : list LineItem)
    : list LineItem :=
  match tables with
  | [] => items
  | table :: rest =>
      match parse_simple_table table vendor with
      | Ok parsed => extend_tables vendor rest (items ++ parsed)
      | Raise _ => items
      end
  end.

Definition process_half_page (cropped_page : HalfPage) (vendor : pystr)
    : list LineItem :=
  let items :=
    match extract_tables cropped_page with
    | Ok tables => extend_tables vendor tables []
    | Raise _ => []
    end in
  if pdf_processor.has_records items then items
  else
    match extract_text cropped_page with
    | Ok (Some text) =>
        if truthy text then
          match parse_text_data text vendor with
          | Ok parsed => items ++ parsed
          | Raise _ => items
          end
        else items
    | Ok None => items
    | Raise _ => items
    end.

(** ** extract_text_tables *)

(** The items whose id is not in [existing_ids] are added. *)
Fixpoint add_new (items : list LineItem) (extracted_data : list LineItem)
    (existing_ids : list pystr) : list LineItem * list pystr :=
  match items with
  | [] => (extracted_data, existing_ids)
  | item :: rest =>
      if mem (item_product_id item) existing_ids
      then add_new rest extracted_data existing_ids
      else add_new rest (extracted_data ++ [item])
                   (item_product_id item :: existing_ids)
  end.

Fixpoint text_pages (vendor : pystr) (pages : list (HalfPage * HalfPage))
    (extracted_data : list LineItem) (existing_ids : list pystr) : list LineItem :=
  match pages with
  | [] => extracted_data
  | (left_crop, right_crop) :: rest =>
      let left_items := process_half_page left_crop vendor in
      let (extracted_data, existing_ids) :=
        add_new left_items extracted_data existing_ids in
      let right_items := process_half_page right_crop vendor in
      let (extracted_data, existing_ids) :=
        add_new right_items extracted_data existing_ids in
      text_pages vendor rest extracted_data existing_ids
  end.

(** [pdf] is what [pdfplumber.open] gives: the pages, each with its left
    and right half, or an exception. *)
Definition extract_text_tables (pdf : result (list (HalfPage * HalfPage)))
    (vendor : pystr) : result (list LineItem) :=
  if negb (in_configs vendor) then Raise (key_error vendor)
  else
    match pdf with
    | Raise e => Raise e
    | Ok pages => Ok (text_pages vendor pages [] [])
    end.

(** ** extract_image_tables_structured *)

Fixpoint structured_lines (parser : Parser) (lines : list pystr)
    (extracted_data : list LineItem) (existing_ids : list pystr)
    : result (list LineItem * list pystr) :=
  match lines with
  | [] => Ok (extracted_data, existing_ids)
  | line :: rest =>
      if negb (truthy (strip line))
      then structured_lines parser rest extracted_data existing_ids
      else
        match parse_text_line parser line with
        | Raise e => Raise e
        | Ok (Some result) =>
            if mem (item_product_id result) existing_ids
            then structured_lines parser rest extracted_data existing_ids
            else structured_lines parser rest (extracted_data ++ [result])
                                  (item_product_id result :: existing_ids)
        | Ok None => structured_lines parser rest extracted_data existing_ids
        end
  end.

Fixpoint structured_pages (parser : Parser) (pages : list (result pystr))
    (extracted_data : list LineItem) (existing_ids : list pystr)
    : result (list LineItem) :=
  match pages with
  | [] => Ok extracted_data
  | Raise e :: _ => Raise e
  | Ok raw_text :: rest =>
      match structured_lines parser (split_chr newline raw_text)
                             extracted_data existing_ids with
      | Raise e => Raise e
      | Ok (extracted_data, existing_ids) =>
          structured_pages parser rest extracted_data existing_ids
      end
  end.

(** [images] is what the conversion of the file to images and the OCR
    give: for every page the text read from it or an exception, or an
    exception of the conversion. *)
Definition extract_image_tables_structured (images : result (list (result pystr)))
    (vendor : pystr) : result (list LineItem) :=
  if negb (in_configs vendor) then Raise (key_error vendor)
  else
    let parser := get_parser VENDOR_PARSERS vendor in
    match images with
    | Raise e => Raise e
    | Ok pages => structured_pages parser pages [] []
    end.

(** ** extract_image_tables *)

(** The items of the second reading whose id is not in [existing_ids],
    the ids before that reading. *)
Fixpoint add_unseen (items : list LineItem) (existing_ids : list pystr)
    (extracted_data : list LineItem) : list LineItem :=
  match items with
  | [] => extracted_data
  | item :: rest =>
      if mem (item_product_id item) existing_ids
      then add_unseen rest existing_ids extracted_data
      else add_unseen rest existing_ids (extracted_data ++ [item])
  end.

(** A page: the text of the first reading and the one of the second
    reading, whose exceptions are dropped. *)
Fixpoint ocr_pages (vendor : pystr) (pages : list (result pystr * result pystr))
    (extracted_data : list LineItem) : result (list LineItem) :=
  match pages with
  | [] => Ok extracted_data
  | (Raise e, _) :: _ => Raise e
  | (Ok ocr_text, ocr_text_alt) :: rest =>
      match parse_text_data ocr_text vendor with
      | Raise e => Raise e
      | Ok parsed_data =>
          let extracted_data := extracted_data ++ parsed_data in
          let extracted_data :=
            match ocr_text_alt with
            | Raise _ => extracted_data
            | Ok alt =>
                match parse_text_data alt vendor with
                | Raise _ => extracted_data
                | Ok parsed_data_alt =>
                    let existing_ids := map item_product_id extracted_data in
                    add_unseen parsed_data_alt existing_ids extracted_data
                end
            end in
          ocr_pages vendor rest extracted_data
      end
  end.

Definition extract_image_tables (images : result (list (result pystr * result pystr)))
    (vendor : pystr) : result (list LineItem) :=
  if negb (in_configs vendor) then Raise (key_error vendor)
  else
    match images with
    | Raise e => Raise e
    | Ok pages => ocr_pages vendor pages []
    end.

(** ** The strategies of process_pdf *)

(** What the libraries answer for a file: the records of the model, the
    pages of pdfplumber, and the texts the OCR reads. *)
Record Library : Type := MkLibrary {
  has_gemini : bool;
  gemini_answer : pystr -> pystr -> result (list LineItem);
  pdfplumber_open : pystr -> result (list (HalfPage * HalfPage));
  page_texts : pystr -> result (list (result pystr));
  ocr_texts : pystr -> result (list (result pystr * result pystr))
}.

Definition extractors (lib : Library) : pdf_processor.Extractors :=
  {| pdf_processor.HAS_GEMINI := has_gemini lib;
     pdf_processor.parse_pdf_with_gemini := gemini_answer lib;
     pdf_processor.extract_image_tables_structured :=
       fun filepath vendor =>
         extract_image_tables_structured (page_texts lib filepath) vendor;
     pdf_processor.extract_text_tables :=
       fun filepath vendor => extract_text_tables (pdfplumber_open lib filepath) vendor;
     pdf_processor.extract_image_tables :=
       fun filepath vendor => extract_image_tables (ocr_texts lib filepath) vendor |}.

End Strategies.

End pdf_tables.

(* ================================================================== *)
(** * Vocabulary of the statements *)
(* ================================================================== *)

Import gemini_parser pdf_processor.

(** ** Words of a pattern *)

(** [parse r w caps]: the word [w] is in the language of [r], and
    reading it closes the groups [caps] (latest first).  Anchors take no
    character; what they test is left out, which makes the relation an
    upper bound of what the matcher accepts. *)
Inductive parse : regex -> pystr -> list (nat * pystr) -> Prop :=
| P_eps : parse Eps [] []
| P_cls p c : p c = true -> parse (Cls p) [c] []
| P_cat r1 r2 u v c1 c2 :
    parse r1 u c1 -> parse r2 v c2 -> parse (Cat r1 r2) (u ++ v) (c2 ++ c1)
| P_alt_l r1 r2 u c : parse r1 u c -> parse (Alt r1 r2) u c
| P_alt_r r1 r2 u c : parse r2 u c -> parse (Alt r1 r2) u c
| P_star_nil g r : parse (Star g r) [] []
| P_star_cons g r u v c1 c2 :
    parse r u c1 -> parse (Star g r) v c2 -> parse (Star g r) (u ++ v) (c2 ++ c1)
| P_grp n r u c : parse r u c -> parse (Grp n r) u ((n, u) :: c)
| P_bol : parse Bol [] []
| P_eol : parse Eol [] []
| P_wordb : parse WordB [] [].

(** A matcher body that accepts only words of [r]. *)
Definition accepts_only {A} (r : regex)
    (body : mstate -> (mstate -> option A) -> option A) : Prop :=
  forall st k x, body st k = Some x ->
    exists w c st',
      parse r w c /\ m_rest st = w ++ m_rest st' /\
      m_caps st' = c ++ m_caps st /\ k st' = Some x.

Definition all_ascii : list ascii := map ascii_of_nat (List.seq 0 256).

(** [needs p r]: every word of [r] has a character of class [p]; a
    sufficient syntactic test. *)
Fixpoint needs (p : ascii -> bool) (r : regex) : bool :=
  match r with
  | Cls q => forallb (fun c => implb (q c) (p c)) all_ascii
  | Cat r1 r2 => needs p r1 || needs p r2
  | Alt r1 r2 => needs p r1 && needs p r2
  | Grp _ r1 => needs p r1
  | _ => false
  end.

(** [nogroups r]: [r] has no capturing group. *)
Fixpoint nogroups (r : regex) : bool :=
  match r with
  | Cat r1 r2 | Alt r1 r2 => nogroups r1 && nogroups r2
  | Star _ r1 => nogroups r1
  | Grp _ _ => false
  | _ => true
  end.

(** ** Matching *)

(** An environment without API key, whose model is never reached. *)
Definition offline : Env :=
  {| GEMINI_API_KEY := None;
     generate_content := fun _ => Raise (Exception (str "offline")) |}.

(** The catalog entries of the tie-break example. *)
Definition K002019_01 (d : pystr) : Product :=
  {| product_id := str "K002019-01"; description := d |}.
Definition K002019_01FZ (d : pystr) : Product :=
  {| product_id := str "K002019-01FZ"; description := d |}.

(** The two alternatives of the catalog invariant of a MatchResult. *)
Definition is_no_match (r : MatchResult) : Prop := matched_id r = PStr NO_MATCH.
Definition is_catalog_id (db : list Product) (r : MatchResult) : Prop :=
  exists p, In p db /\ matched_id r = PStr (product_id p).

(** Exactly one of the two holds. *)
Definition catalog_invariant (db : list Product) (r : MatchResult) : Prop :=
  (is_no_match r \/ is_catalog_id db r) /\ ~ (is_no_match r /\ is_catalog_id db r).

(** A text in which the apostrophe stands for the double quote. *)
Definition quoted (s : string) : pystr :=
  map (fun c => if chr_eqb c "'" then dquote else c) (str s).

(** ** Costs and table rows *)

(** The range of the specification, 0.01 to 9999.99, in cents. *)
Definition in_spec_range (v : cents) : Prop := (1 <= v <= 999999)%N.

(** The id cell of a row is unreadable for a parser when the parser
    extracts no id from it, or extracts one that it does not validate. *)
Definition kruse_id_invalid (raw_id : pystr) : bool :=
  match KruseSonsParser.extract_product_id raw_id with
  | (Some product_id, _) =>
      negb (truthy product_id) || negb (KruseSonsParser.validate_product_id product_id)
  | (None, _) => true
  end.

Definition rw_zant_id_invalid (raw_id : pystr) : bool :=
  match RWZantParser.extract_product_id raw_id with
  | (Some product_id, _) =>
      negb (truthy product_id) || negb (RWZantParser.validate_product_id product_id)
  | (None, _) => true
  end.

(** A row of three cells: id, description, price. *)
Definition beef_row (id price : string) : list cell :=
  [Some (str id); Some (str "BEEF ROAST"); Some (str price)].

(** ** Extraction strategies *)

(** A strategy fails when it raises or returns no record. *)
Definition strategy_fails (r : result (list LineItem)) : Prop :=
  match r with
  | Raise _ => True
  | Ok data => data = []
  end.

(** The outcomes of the strategies process_pdf goes through for a
    vendor, in order: the AI-assisted extraction for the vendors that
    prefer it (when the module is there), the image-based table extraction
    for the vendors that have a block, then the text-based extraction and
    the OCR extraction. *)
Definition strategy_list (ex : Extractors) (filepath vendor : pystr)
    : list (result (list LineItem)) :=
  (if mem vendor gemini_vendors && HAS_GEMINI ex
   then [parse_pdf_with_gemini ex filepath vendor] else [])
  ++ (match image_block vendor with
      | Some _ => [extract_image_tables_structured ex filepath vendor]
      | None => []
      end)
  ++ [extract_text_tables ex filepath vendor; extract_image_tables ex filepath vendor].

Definition all_strategies_fail (ex : Extractors) (filepath vendor : pystr) : Prop :=
  Forall strategy_fails (strategy_list ex filepath vendor).

(** Every strategy runs and finds nothing. *)
Definition nothing_found : Extractors :=
  {| HAS_GEMINI := true;
     parse_pdf_with_gemini := fun _ _ => Ok [];
     extract_image_tables_structured := fun _ _ => Ok [];
     extract_text_tables := fun _ _ => Ok [];
     extract_image_tables := fun _ _ => Ok [] |}.

(** ** Reading a pattern from a position *)

(** [steps r st st']: reading a word of [r] from the position [st] can
    end at the position [st'].  Anchors are tested where they stand, and
    every round of a starred pattern takes at least one character, as in
    the matcher. *)
Inductive steps : regex -> mstate -> mstate -> Prop :=
| S_eps st : steps Eps st st
| S_cls p c t st :
    m_rest st = c :: t -> p c = true -> steps (Cls p) st (advance c t st)
| S_cat r1 r2 st st1 st2 :
    steps r1 st st1 -> steps r2 st1 st2 -> steps (Cat r1 r2) st st2
| S_alt_l r1 r2 st st1 : steps r1 st st1 -> steps (Alt r1 r2) st st1
| S_alt_r r1 r2 st st1 : steps r2 st st1 -> steps (Alt r1 r2) st st1
| S_star_nil g r st : steps (Star g r) st st
| S_star_cons g r st st1 st2 :
    steps r st st1 -> length (m_rest st1) < length (m_rest st) ->
    steps (Star g r) st1 st2 -> steps (Star g r) st st2
| S_grp n r st st1 : steps r st st1 -> steps (Grp n r) st (close_group n st st1)
| S_bol st : m_prev st = None -> steps Bol st st
| S_eol st : at_eol st = true -> steps Eol st st
| S_wordb st : at_wordb st = true -> steps WordB st st.

(** What the matcher accepts is a way of reading the pattern. *)
Definition sound_body {A} (r : regex)
    (body : mstate -> (mstate -> option A) -> option A) : Prop :=
  forall st k x, body st k = Some x -> exists st', steps r st st' /\ k st' = Some x.

(** A digit string without leading zeros: the numeric core of a normal
    form. *)
Definition canonical_digits (d : pystr) : bool :=
  all_digits d && (eqb d (str "0") || negb (startswith d (str "0"))).

(** The normal forms of an id that has a digit: a numeric core, or a
    numeric core with a hyphen and two digits. *)
Definition is_normal_form (n : pystr) : Prop :=
  exists core, canonical_digits core = true /\
    (n = core \/
     exists a b, isdigit a = true /\ isdigit b = true /\ n = core ++ ["-"%char; a; b]).

(** A candidate without extra suffix: the first component of its
    complexity score is 0. *)
Definition plain (p : Product) : bool := has_extra_suffix p =? 0.

(** No candidate is a Kruse product. *)
Definition no_kruse (l : list Product) : Prop :=
  forall p, In p l -> startswith (upper (product_id p)) (str "KRUSE") = false.

(** A result that names no catalog entry. *)
Definition unmatched (r : MatchResult) : Prop :=
  matched_id r = PStr NO_MATCH /\ confidence r = PFloat (str "0.0") /\
  matched_description r = None.

(** A result that names the catalog entry [p] with the confidence [c]. *)
Definition matched_to (p : Product) (c : string) (r : MatchResult) : Prop :=
  matched_id r = PStr (product_id p) /\ confidence r = PFloat (str c) /\
  matched_description r = Some (description p).

(** The normal form of the catalog id [ref_id] is the normal form [n] of
    the extracted id, or [n] followed by "-01". *)
Definition same_normal_form (n ref_id : pystr) : Prop :=
  normalize_product_id ref_id = n \/ normalize_product_id ref_id = n ++ str "-01".

(** The record has no usable id: it is blank or the sentinel. *)
Definition absent_id (extracted_id : pystr) : Prop :=
  strip extracted_id = [] \/ extracted_id = str "N/A".

(** [reads w st st']: from [st] the matcher has read the word [w] and
    closed no group. *)
Definition reads (w : pystr) (st st' : mstate) : Prop :=
  m_rest st = w ++ m_rest st' /\ m_prev st' = last_chr (m_prev st) w /\
  m_caps st' = m_caps st.

(** The text does not go on with a character of the class. *)
Definition stops (p : ascii -> bool) (rest : pystr) : Prop :=
  match rest with [] => True | c :: _ => p c = false end.

(** The sort key of a candidate. *)
Definition score_of (p : Product) := complexity_score (product_id p).

(** ** Words of the anchored patterns *)

(** The pattern [r] reads exactly the words of [W], closing no group. *)
Definition reads_words (r : regex) (W : pystr -> Prop) : Prop :=
  forall st st', steps r st st' <-> exists w, W w /\ reads w st st'.

(** The pattern [r], which ends with [$], matches at a position exactly
    when what is left there is a word of [W], followed or not by one last
    line feed. *)
Definition reads_to_end (r : regex) (W : pystr -> Prop) : Prop :=
  forall st, (exists st', steps r st st') <->
             exists w, W w /\ (m_rest st = w \/ m_rest st = w ++ [newline]).

(** [s] is [w], followed or not by one last line feed. *)
Definition up_to_newline (w s : pystr) : Prop := s = w \/ s = w ++ [newline].

(** A run of [lo] to [hi] characters of a class. *)
Definition run_of (p : ascii -> bool) (lo hi : nat) (w : pystr) : Prop :=
  forallb p w = true /\ lo <= length w <= hi.

(** ** Costs *)

(** The strings clean_cost of gemini_parser returns: one of the two
    special cases, or a dollar amount between 0.01 and 99999.99 with two
    decimals, followed or not by one of the three units. *)
Definition is_clean_cost (c : pystr) : Prop :=
  c = str "OUT OF STOCK" \/ c = str "QUOTE REQUIRED" \/
  exists (price : cents) (unit : pystr),
    (1 <= price <= 9999999)%N /\
    In unit [[]; str "/LB"; str "/CS"; str "/EA"] /\
    c = str "$" ++ format_2f price ++ unit.

(** The three spellings of an absent id. *)
Definition absent_spellings : list pystr := [str "N/A"; str "NA"; str "-"].

(** ** Lines of the CSV answer *)

(** A character that is no quote and no line break, and a field without
    quote, line break or comma. *)
Definition plain_chr (c : ascii) : bool := negb (chr_eqb c dquote || gemini_rows.is_crnl c).
Definition plain_field (f : pystr) : Prop :=
  forallb (fun c => plain_chr c && negb (chr_eqb "," c)) f = true.

(** ** Batches *)

(** The requests to the model among the calls. *)
Definition requests (calls : list event) : nat :=
  length (filter (fun e => match e with CallGenerateContent _ => true | _ => false end)
                 calls).

(** ** Export rows *)

Definition export_row_id (row : app.ExportRow) : pystr :=
  match row with
  | app.PlainRow product_id _ _ => product_id
  | app.PriceRow product_id _ _ _ => product_id
  end.

(** The row of a record that is exported as it is. *)
Definition plain_row (item : LineItem) : app.ExportRow :=
  app.PlainRow (item_product_id item) (item_description item) (item_cost item).

(** ** Records of the vendors *)

(** A record of RW Zant: an id of one to six digits, a dollar amount of
    at most 1000.00 with two decimals, a description with two letters or
    more. *)
Definition rw_zant_record (item : LineItem) : Prop :=
  run_of isdigit 1 6 (item_product_id item) /\
  (exists price : cents,
     (price <= 100000)%N /\ item_cost item = str "$" ++ format_2f price) /\
  2 <= count_alpha (item_description item).

(** A record of Kruse & Sons: a code of one to three digits or the
    sentinel, a price per pound between 0.01 and 9999.99, a description
    with two letters or more. *)
Definition kruse_record (item : LineItem) : Prop :=
  (item_product_id item = str "N/A" \/ run_of isdigit 1 3 (item_product_id item)) /\
  (exists price : cents,
     (1 <= price <= 999999)%N /\
     item_cost item = str "$" ++ format_2f price ++ str "/LB") /\
  2 <= count_alpha (item_description item).

(** ** Extraction *)

(** [item] is the first of the records found that has its id. *)
Definition first_with_id (found : list LineItem) (item : LineItem) : Prop :=
  find (fun other => eqb (item_product_id other) (item_product_id item)) found
  = Some item.

(** The record a parser reads from a line of the text of a page, blank
    lines left out. *)
Definition line_record (parser : pdf_tables.Parser) (line : pystr) : option LineItem :=
  if negb (truthy (strip line)) then None
  else
    match pdf_tables.parse_text_line parser line with
    | Ok (Some item) => Some item
    | _ => None
    end.

(** The records read from the pages the OCR could read. *)
Definition page_records (parser : pdf_tables.Parser) (page : result pystr)
    : list LineItem :=
  match page with
  | Ok raw_text => keep_some (line_record parser) (split_chr newline raw_text)
  | Raise _ => []
  end.

(** The records of the two halves of a page, the left half first. *)
Definition halves_records (VENDOR_PARSERS : list (pystr * pdf_tables.Parser))
    (vendor : pystr) (page : pdf_tables.HalfPage * pdf_tables.HalfPage)
    : list LineItem :=
  pdf_tables.process_half_page VENDOR_PARSERS (fst page) vendor
  ++ pdf_tables.process_half_page VENDOR_PARSERS (snd page) vendor.

(** [data] holds, of the records found, the first one of every id. *)
Definition firsts_of (found data : list LineItem) : Prop :=
  NoDup (map item_product_id data) /\
  forall item, In item data <-> first_with_id found item.

(** Both methods of a parser answer only records with a property. *)
Definition parser_keeps (R : LineItem -> Prop) (parser : pdf_tables.Parser) : Prop :=
  (forall row item, pdf_tables.parse_table_row parser row = Ok (Some item) -> R item) /\
  (forall line item, pdf_tables.parse_text_line parser line = Ok (Some item) -> R item).

(* ================================================================== *)
(** * Strings *)
(* ================================================================== *)

Arguments str : simpl never.
Arguments normalize_product_id : simpl never.
Arguments select_simplest_product_id : simpl never.
Arguments match_product_with_gemini : simpl never.

Lemma eqb_eq (a b : pystr) : eqb a b = true <-> a = b.
Proof.
  revert b; induction a as [|x a IH]; intros [|y b]; simpl; split;
    try congruence; try reflexivity.
  - intros H. apply andb_true_iff in H as [Hx Hab].
    apply Ascii.eqb_eq in Hx. apply IH in Hab. congruence.
  - intros H. injection H as -> ->. apply andb_true_iff. split.
    + apply Ascii.eqb_refl.
    + now apply IH.
Qed.

Lemma eqb_neq (a b : pystr) : eqb a b = false <-> a <> b.
Proof.
  split.
  - intros H E. apply eqb_eq in E. congruence.
  - intros H. destruct (eqb a b) eqn:E; [|reflexivity].
    apply eqb_eq in E. contradiction.
Qed.

Lemma rstrip_by_keep (p : ascii -> bool) (c : ascii) (t : pystr) :
  p c = false -> rstrip_by p (c :: t) = c :: rstrip_by p t.
Proof.
  intros H. cbn [rstrip_by]. destruct (rstrip_by p t); [now rewrite H | reflexivity].
Qed.

Lemma startswith_stars_strip (d : pystr) :
  startswith d (str "**") = true -> startswith (strip d) (str "**") = true.
Proof.
  change (str "**") with ["*"%char; "*"%char].
  destruct d as [|a [|b t]]; cbn [startswith];
    [discriminate | rewrite andb_false_r; discriminate |].
  intros H. apply andb_true_iff in H as [Ha H]. apply andb_true_iff in H as [Hb _].
  apply Ascii.eqb_eq in Ha, Hb. subst a b.
  unfold strip, strip_by. cbn [lstrip_by].
  change (isspace "*") with false. cbv iota.
  rewrite !rstrip_by_keep by reflexivity. reflexivity.
Qed.

(** Stripping and upper-casing keep a string free of a class that
    upper-casing respects. *)
Lemma existsb_lstrip_by (p q : ascii -> bool) (s : pystr) :
  existsb p s = false -> existsb p (lstrip_by q s) = false.
Proof.
  induction s as [|c t IH]; cbn [lstrip_by]; [auto|].
  intros H. destruct (q c); [|exact H].
  cbn in H. apply orb_false_iff in H as [_ H]. auto.
Qed.

Lemma existsb_rstrip_by (p q : ascii -> bool) (s : pystr) :
  existsb p s = false -> existsb p (rstrip_by q s) = false.
Proof.
  induction s as [|c t IH]; cbn [rstrip_by]; [auto|].
  intros H. cbn in H. apply orb_false_iff in H as [Hc Ht].
  specialize (IH Ht). destruct (rstrip_by q t) as [|a l].
  - destruct (q c); cbn; [reflexivity | now rewrite Hc].
  - change (existsb p (c :: a :: l)) with (p c || existsb p (a :: l)).
    now rewrite Hc, IH.
Qed.

Lemma isdigit_upper_chr (c : ascii) : isdigit (upper_chr c) = isdigit c.
Proof. destruct c as [[] [] [] [] [] [] [] []]; reflexivity. Qed.

Lemma existsb_isdigit_upper (s : pystr) :
  existsb isdigit (upper s) = existsb isdigit s.
Proof.
  induction s as [|c t IH]; [reflexivity|].
  cbn [upper map existsb]. fold (upper t). now rewrite isdigit_upper_chr, IH.
Qed.

Lemma cleaned_digit_free (s : pystr) :
  existsb isdigit s = false -> existsb isdigit (upper (strip s)) = false.
Proof.
  intros H. rewrite existsb_isdigit_upper.
  unfold strip, strip_by. now apply existsb_rstrip_by, existsb_lstrip_by.
Qed.

Lemma span_app_stop (p : ascii -> bool) (ds rest : pystr) :
  forallb p ds = true ->
  match rest with [] => True | x :: _ => p x = false end ->
  span p (ds ++ rest) = (ds, rest).
Proof.
  intros F S. induction ds as [|d ds IH]; cbn [app span].
  - destruct rest as [|x t]; [reflexivity|]. cbn [span]. now rewrite S.
  - cbn in F. apply andb_true_iff in F as [Fd F]. now rewrite Fd, IH.
Qed.

Lemma firstn_consumed {T} (w t : list T) :
  firstn (length (w ++ t) - length t) (w ++ t) = w.
Proof.
  rewrite length_app, Nat.add_sub, firstn_app, Nat.sub_diag, firstn_all.
  cbn [firstn]. apply app_nil_r.
Qed.

(* ================================================================== *)
(** * The matcher *)
(* ================================================================== *)

(** ** The fuel of a starred pattern is enough *)

Section StarLoop.
Context {A : Type}.
Variable body : mstate -> (mstate -> option A) -> option A.
Variable greedy : bool.

(** The body only uses its continuation at positions that are not
    before the current one. *)
Hypothesis body_ext : forall st k1 k2,
  (forall st', length (m_rest st') <= length (m_rest st) -> k1 st' = k2 st') ->
  body st k1 = body st k2.

Lemma star_loop_ext (fuel : nat) : forall st k1 k2,
  (forall st', length (m_rest st') <= length (m_rest st) -> k1 st' = k2 st') ->
  star_loop body greedy k1 fuel st = star_loop body greedy k2 fuel st.
Proof.
  induction fuel as [|f IH]; intros st k1 k2 H; cbn [star_loop].
  - apply H. lia.
  - rewrite (H st) by lia.
    rewrite (body_ext st
      (fun st1 => if length (m_rest st1) <? length (m_rest st)
                  then star_loop body greedy k1 f st1 else None)
      (fun st1 => if length (m_rest st1) <? length (m_rest st)
                  then star_loop body greedy k2 f st1 else None)).
    + reflexivity.
    + intros st1 L. destruct (length (m_rest st1) <? length (m_rest st)) eqn:E;
        [|reflexivity].
      apply IH. intros st' L'. apply H. lia.
Qed.

Lemma star_loop_fuel (k : mstate -> option A) (n : nat) : forall st f1 f2,
  length (m_rest st) <= n ->
  length (m_rest st) < f1 -> length (m_rest st) < f2 ->
  star_loop body greedy k f1 st = star_loop body greedy k f2 st.
Proof.
  induction n as [|n IH]; intros st f1 f2 Ln L1 L2;
    (destruct f1 as [|f1]; [lia|]); (destruct f2 as [|f2]; [lia|]);
    cbn [star_loop];
    rewrite (body_ext st
      (fun st1 => if length (m_rest st1) <? length (m_rest st)
                  then star_loop body greedy k f1 st1 else None)
      (fun st1 => if length (m_rest st1) <? length (m_rest st)
                  then star_loop body greedy k f2 st1 else None));
    try reflexivity; intros st1 L;
    destruct (length (m_rest st1) <? length (m_rest st)) eqn:E; try reflexivity;
    apply Nat.ltb_lt in E.
  - lia.
  - apply IH; lia.
Qed.
End StarLoop.

Lemma exec_ext (r : regex) : forall A st (k1 k2 : mstate -> option A),
  (forall st', length (m_rest st') <= length (m_rest st) -> k1 st' = k2 st') ->
  exec r st k1 = exec r st k2.
Proof.
  induction r as [|p|r1 IH1 r2 IH2|r1 IH1 r2 IH2|g r IH|n r IH| | |];
    intros A st k1 k2 H; cbn [exec].
  - apply H. lia.
  - destruct (m_rest st) as [|c t] eqn:R; [reflexivity|].
    destruct (p c); [|reflexivity]. apply H. cbn. lia.
  - apply IH1. intros st1 L1. apply IH2. intros st2 L2. apply H. lia.
  - rewrite (IH1 A st k1 k2 H), (IH2 A st k1 k2 H). reflexivity.
  - apply star_loop_ext; [|exact H]. intros st0 j1 j2 J. now apply IH.
  - apply IH. intros st1 L1. apply H. exact L1.
  - destruct (m_prev st); [reflexivity|]. apply H. lia.
  - destruct (at_eol st); [|reflexivity]. apply H. lia.
  - destruct (at_wordb st); [|reflexivity]. apply H. lia.
Qed.

(** With any fuel above the length of the text that is left, the loop
    of a starred pattern gives what the matcher gives: the matcher never
    stops for lack of fuel. *)
Lemma star_fuel_irrelevant {A} (r : regex) (g : bool) (k : mstate -> option A)
    (st : mstate) (fuel : nat) :
  length (m_rest st) < fuel ->
  star_loop (exec r) g k fuel st = exec (Star g r) st k.
Proof.
  intros L. cbn [exec].
  apply (@star_loop_fuel A (exec r) g (fun st0 k1 k2 => @exec_ext r A st0 k1 k2) k
           (length (m_rest st)) st fuel (S (length (m_rest st)))); lia.
Qed.

(** ** The matcher only accepts words of the pattern *)

Lemma star_loop_accepts {A} (r : regex) (g : bool)
    (body : mstate -> (mstate -> option A) -> option A) (k : mstate -> option A) :
  accepts_only r body ->
  forall fuel st x, star_loop body g k fuel st = Some x ->
    exists w c st',
      parse (Star g r) w c /\ m_rest st = w ++ m_rest st' /\
      m_caps st' = c ++ m_caps st /\ k st' = Some x.
Proof.
  intros Hb. induction fuel as [|f IH]; intros st x H; cbn [star_loop] in H.
  - exists [], [], st. repeat split; [constructor | exact H].
  - assert (Stop : k st = Some x ->
      exists w c st', parse (Star g r) w c /\ m_rest st = w ++ m_rest st' /\
                      m_caps st' = c ++ m_caps st /\ k st' = Some x).
    { intros E. exists [], [], st. repeat split; [constructor | exact E]. }
    assert (Again :
      body st (fun st1 => if length (m_rest st1) <? length (m_rest st)
                          then star_loop body g k f st1 else None) = Some x ->
      exists w c st', parse (Star g r) w c /\ m_rest st = w ++ m_rest st' /\
                      m_caps st' = c ++ m_caps st /\ k st' = Some x).
    { intros E. apply Hb in E as (w1 & c1 & st1 & P1 & R1 & C1 & K1).
      destruct (length (m_rest st1) <? length (m_rest st)); [|discriminate].
      apply IH in K1 as (w2 & c2 & st2 & P2 & R2 & C2 & K2).
      exists (w1 ++ w2), (c2 ++ c1), st2. repeat split.
      - now constructor.
      - rewrite R1, R2. now rewrite app_assoc.
      - rewrite C2, C1. now rewrite app_assoc.
      - exact K2. }
    destruct g; unfold orelse in H.
    + destruct (body st _) eqn:E in H.
      * injection H as ->. now apply Again.
      * now apply Stop.
    + destruct (k st) eqn:E in H.
      * injection H as ->. now apply Stop.
      * now apply Again.
Qed.

Lemma exec_accepts (r : regex) : forall A, accepts_only r (@exec A r).
Proof.
  induction r as [|p|r1 IH1 r2 IH2|r1 IH1 r2 IH2|g r IH|n r IH| | |];
    intros A st k x H; cbn [exec] in H.
  - exists [], [], st. repeat split; [constructor | exact H].
  - destruct (m_rest st) as [|c t] eqn:R; [discriminate|].
    destruct (p c) eqn:Pc; [|discriminate].
    exists [c], [], (advance c t st). repeat split; [now constructor | exact H].
  - apply IH1 in H as (w1 & c1 & st1 & P1 & R1 & C1 & K1).
    apply IH2 in K1 as (w2 & c2 & st2 & P2 & R2 & C2 & K2).
    exists (w1 ++ w2), (c2 ++ c1), st2. repeat split.
    + now constructor.
    + rewrite R1, R2. now rewrite app_assoc.
    + rewrite C2, C1. now rewrite app_assoc.
    + exact K2.
  - unfold orelse in H. destruct (exec r1 st k) eqn:E.
    + injection H as ->. apply IH1 in E as (w & c & st' & P & R & C & K).
      exists w, c, st'. repeat split; [now apply P_alt_l | | |]; assumption.
    + apply IH2 in H as (w & c & st' & P & R & C & K).
      exists w, c, st'. repeat split; [now apply P_alt_r | | |]; assumption.
  - apply (star_loop_accepts (r := r)) in H; [exact H | apply IH].
  - apply IH in H as (w & c & st1 & P & R & C & K).
    exists w, ((n, w) :: c), (close_group n st st1). repeat split.
    + now constructor.
    + exact R.
    + unfold close_group; cbn [m_caps]. rewrite C, R.
      now rewrite firstn_consumed.
    + exact K.
  - destruct (m_prev st); [discriminate|].
    exists [], [], st. repeat split; [constructor | exact H].
  - destruct (at_eol st); [|discriminate].
    exists [], [], st. repeat split; [constructor | exact H].
  - destruct (at_wordb st); [|discriminate].
    exists [], [], st. repeat split; [constructor | exact H].
Qed.

Lemma match_at_parse (r : regex) (prev : option ascii) (start : nat) (s : pystr)
    (m : match_obj) :
  match_at r prev start s = Some m ->
  parse r (mo_text m) (mo_caps m) /\ s = mo_text m ++ mo_after m /\ mo_start m = start.
Proof.
  unfold match_at. intros H.
  apply exec_accepts in H as (w & c & st' & P & R & C & K).
  cbn [m_rest m_caps] in R, C. injection K as <-. subst s.
  cbn [mo_text mo_caps mo_after mo_start].
  rewrite C, app_nil_r, firstn_consumed. auto.
Qed.

Lemma search_from_parse (r : regex) (s : pystr) :
  forall prev start m,
    search_from r prev start s = Some m ->
    parse r (mo_text m) (mo_caps m) /\
    exists before, s = before ++ mo_text m ++ mo_after m /\
                   mo_start m = start + length before.
Proof.
  induction s as [|c t IH]; intros prev start m H; cbn [search_from] in H.
  - destruct (match_at r prev start []) eqn:E; [|discriminate].
    injection H as ->. apply match_at_parse in E as (P & R & St).
    split; [exact P|]. exists []. now rewrite Nat.add_0_r.
  - destruct (match_at r prev start (c :: t)) eqn:E.
    + injection H as ->. apply match_at_parse in E as (P & R & St).
      split; [exact P|]. exists []. now rewrite Nat.add_0_r.
    + apply IH in H as (P & before & R & St).
      split; [exact P|]. exists (c :: before). cbn [length app].
      rewrite <- R. split; [reflexivity | lia].
Qed.

Lemma re_search_parse (r : regex) (s : pystr) (m : match_obj) :
  re_search r s = Some m -> parse r (mo_text m) (mo_caps m).
Proof. intros H. now apply search_from_parse in H as [P _]. Qed.

(** A search for one character of a class finds it when it is there. *)
Lemma search_from_class_complete (p : ascii -> bool) (s : pystr) :
  existsb p s = true ->
  forall prev start, is_some (search_from (Cls p) prev start s) = true.
Proof.
  induction s as [|c t IH]; [discriminate|].
  intros H prev start. cbn [search_from match_at exec m_rest].
  destruct (p c) eqn:Pc; [reflexivity|].
  cbn in H. rewrite Pc in H. now apply IH.
Qed.

(** ** Patterns that need a character of a class *)

Lemma all_ascii_complete (c : ascii) : In c all_ascii.
Proof.
  unfold all_ascii. rewrite <- (ascii_nat_embedding c).
  apply in_map, in_seq. pose proof (nat_ascii_bounded c). lia.
Qed.

Lemma needs_parse (p : ascii -> bool) (r : regex) (w : pystr) (c : list (nat * pystr)) :
  parse r w c -> needs p r = true -> existsb p w = true.
Proof.
  induction 1 as [ |q x Hq|r1 r2 u v c1 c2 _ IH1 _ IH2|r1 r2 u c _ IH|r1 r2 u c _ IH
                 | | |n r u c _ IH| | | ]; cbn [needs]; intros N; try discriminate.
  - rewrite forallb_forall in N. specialize (N x (all_ascii_complete x)).
    rewrite Hq in N. cbn in N. cbn. now rewrite N.
  - rewrite existsb_app. apply orb_true_iff in N as [N | N];
      [rewrite (IH1 N) | rewrite (IH2 N)]; auto using orb_true_r.
  - apply andb_true_iff in N as [N _]. auto.
  - apply andb_true_iff in N as [_ N]. auto.
  - auto.
Qed.

Lemma re_match_needs (p : ascii -> bool) (r : regex) (s : pystr) :
  needs p r = true -> existsb p s = false -> re_match r s = None.
Proof.
  intros N D. destruct (re_match r s) as [m|] eqn:E; [|reflexivity].
  apply match_at_parse in E as (P & R & _).
  apply (needs_parse p) in P; [|exact N].
  rewrite R, existsb_app, P in D. discriminate.
Qed.

Lemma search_from_needs (p : ascii -> bool) (r : regex) (s : pystr)
    (prev : option ascii) (start : nat) :
  needs p r = true -> existsb p s = false -> search_from r prev start s = None.
Proof.
  intros N D. destruct (search_from r prev start s) as [m|] eqn:E; [|reflexivity].
  apply search_from_parse in E as (P & before & R & _).
  apply (needs_parse p) in P; [|exact N].
  rewrite R, !existsb_app, P, orb_true_r in D. discriminate.
Qed.

Lemma findall_needs (p : ascii -> bool) (r : regex) (s : pystr) :
  needs p r = true -> existsb p s = false -> findall r s = [].
Proof.
  intros N D. unfold findall. cbn [matches_from].
  now rewrite (search_from_needs p r s None 0 N D).
Qed.

(** ** Words of the price patterns *)

Lemma parse_nogroups (r : regex) (w : pystr) (c : list (nat * pystr)) :
  parse r w c -> nogroups r = true -> c = [].
Proof.
  induction 1; cbn [nogroups]; intros N; try reflexivity; try discriminate;
    try (apply andb_true_iff in N as [N1 N2]); auto.
  - now rewrite IHparse1, IHparse2.
  - now rewrite IHparse1, IHparse2.
Qed.

Lemma parse_cat (r1 r2 : regex) (w : pystr) (c : list (nat * pystr)) :
  parse (Cat r1 r2) w c ->
  exists u v c1 c2, w = u ++ v /\ c = c2 ++ c1 /\ parse r1 u c1 /\ parse r2 v c2.
Proof. inversion 1; subst. eauto 10. Qed.

Lemma parse_alt (r1 r2 : regex) (w : pystr) (c : list (nat * pystr)) :
  parse (Alt r1 r2) w c -> parse r1 w c \/ parse r2 w c.
Proof. inversion 1; subst; auto. Qed.

Lemma parse_cls (p : ascii -> bool) (w : pystr) (c : list (nat * pystr)) :
  parse (Cls p) w c -> exists x, w = [x] /\ c = [] /\ p x = true.
Proof. inversion 1; subst. eauto. Qed.

Lemma parse_eps (w : pystr) (c : list (nat * pystr)) :
  parse Eps w c -> w = [] /\ c = [].
Proof. inversion 1; auto. Qed.

Lemma parse_grp (n : nat) (r : regex) (w : pystr) (c : list (nat * pystr)) :
  parse (Grp n r) w c -> exists c', c = (n, w) :: c' /\ parse r w c'.
Proof. inversion 1; subst. eauto. Qed.

Lemma parse_times_cls (p : ascii -> bool) (n : nat) : forall w c,
  parse (times n (Cls p)) w c -> forallb p w = true /\ length w = n.
Proof.
  induction n as [|n IH]; intros w c H.
  - apply parse_eps in H as [-> _]. auto.
  - destruct n as [|n].
    + apply parse_cls in H as (x & -> & _ & Px). cbn. now rewrite Px.
    + change (times (S (S n)) (Cls p)) with (Cat (Cls p) (times (S n) (Cls p))) in H.
      apply parse_cat in H as (u & v & c1 & c2 & -> & _ & Hu & Hv).
      apply parse_cls in Hu as (x & -> & _ & Px).
      apply IH in Hv as [Fv Lv]. cbn. rewrite Px, Fv, Lv. auto.
Qed.

Lemma parse_upto_cls (p : ascii -> bool) (n : nat) : forall w c,
  parse (upto n (Cls p)) w c -> forallb p w = true /\ length w <= n.
Proof.
  induction n as [|n IH]; intros w c H.
  - apply parse_eps in H as [-> _]. auto.
  - cbn [upto] in H. unfold opt in H. apply parse_alt in H as [H | H].
    + apply parse_cat in H as (u & v & c1 & c2 & -> & _ & Hu & Hv).
      apply parse_cls in Hu as (x & -> & _ & Px).
      apply IH in Hv as [Fv Lv]. cbn. rewrite Px, Fv. split; [reflexivity | lia].
    + apply parse_eps in H as [-> _]. cbn. split; [reflexivity | lia].
Qed.

Lemma parse_between_cls (p : ascii -> bool) (lo hi : nat) (w : pystr)
    (c : list (nat * pystr)) :
  parse (between (S lo) hi (Cls p)) w c ->
  forallb p w = true /\ w <> [] /\ S lo <= length w <= S lo + (hi - S lo).
Proof.
  unfold between. intros H.
  apply parse_cat in H as (u & v & c1 & c2 & -> & _ & Hu & Hv).
  apply parse_times_cls in Hu as [Fu Lu]. apply parse_upto_cls in Hv as [Fv Lv].
  rewrite forallb_app, Fu, Fv, length_app. split; [reflexivity|].
  split; [destruct u; discriminate | lia].
Qed.

Lemma parse_point_two_digits (w : pystr) (c : list (nat * pystr)) :
  parse (Cat (lit ".") (times 2 digit)) w c ->
  exists a b, w = ["."%char; a; b] /\ isdigit a = true /\ isdigit b = true.
Proof.
  intros H. apply parse_cat in H as (u & v & c1 & c2 & -> & _ & Hu & Hv).
  apply parse_cls in Hu as (x & -> & _ & Px). apply Ascii.eqb_eq in Px. subst x.
  change (times 2 digit) with (Cat digit digit) in Hv.
  apply parse_cat in Hv as (u & v' & c3 & c4 & -> & _ & Ha & Hb).
  apply parse_cls in Ha as (a & -> & _ & Da). apply parse_cls in Hb as (b & -> & _ & Db).
  exists a, b. auto.
Qed.

(* ================================================================== *)
(** * Normalisation of product ids *)
(* ================================================================== *)

(** C1: the five examples of the specification: "Z156171" gives "156171",
    "G0015050194" gives "15050194", "K002013-01" gives "13-01",
    "156171-01" is kept and "156171A" gives "156171". *)
Theorem normalize_product_id_examples :
  normalize_product_id (str "Z156171") = str "156171" /\
  normalize_product_id (str "G0015050194") = str "15050194" /\
  normalize_product_id (str "K002013-01") = str "13-01" /\
  normalize_product_id (str "156171-01") = str "156171-01" /\
  normalize_product_id (str "156171A") = str "156171".
Proof. repeat split; vm_compute; reflexivity. Qed.

(** The other examples of the docstring, and the fallback on the longest
    digit run, which is reached when a line feed stands before the first
    digit. *)
Example normalize_product_id_docstring :
  map normalize_product_id
      [str "K156171"; str "G015050194"; str "K002019-01"; str "Z156171-01";
       str "G015050194-01"; str "Z156171B"; "A"%char :: newline :: str "007 12345"]
  = [str "156171"; str "15050194"; str "19-01"; str "156171-01";
     str "15050194-01"; str "156171"; str "12345"].
Proof. vm_compute. reflexivity. Qed.




(* ================================================================== *)
(** * The matcher of extracted records *)
(* ================================================================== *)

(** Closes a goal that asks for the calls and the result of a branch
    that returns. *)
Ltac returns := repeat eexists; reflexivity.

Lemma normalize_NA : normalize_product_id (str "N/A") = [].
Proof. reflexivity. Qed.

Lemma matching_products_of_In (n : pystr) (db : list Product) (p : Product) :
  In p (matching_products_of n db) ->
  In p db /\
  (n = normalize_product_id (product_id p) \/
   n ++ str "-01" = normalize_product_id (product_id p)).
Proof.
  induction db as [|q db IH]; cbn [matching_products_of In]; [tauto|].
  destruct (eqb n (normalize_product_id (product_id q))) eqn:E1.
  - apply eqb_eq in E1. intros H. destruct H as [->|H]; [tauto|].
    apply IH in H. tauto.
  - destruct (eqb (n ++ str "-01") (normalize_product_id (product_id q))) eqn:E2.
    + apply eqb_eq in E2. intros H. destruct H as [->|H]; [tauto|].
      apply IH in H. tauto.
    + intros H. apply IH in H. tauto.
Qed.

(** The test that sends a record to the AI-assisted matcher fails as soon
    as the normalized id is not empty. *)
Lemma deterministic_route (extracted_id : pystr) :
  normalize_product_id extracted_id <> [] ->
  negb (truthy (normalize_product_id extracted_id))
  || eqb extracted_id (str "N/A") = false.
Proof.
  intros Hn. apply orb_false_iff. split.
  - destruct (normalize_product_id extracted_id); [congruence|reflexivity].
  - apply eqb_neq. intros ->. now rewrite normalize_NA in Hn.
Qed.

(** ** Empty catalog *)

(** C10: on an empty reference database the answer is NO_MATCH with
    confidence 0.0 and no description, whatever the record and the
    fallback flag, and the AI-assisted matcher is not called (the list of
    calls is empty). *)
Theorem match_product_by_id_empty_database
    (env : Env) (extracted_product : Extracted) (confidence_threshold : float_lit)
    (use_ai_fallback : bool) :
  match_product_by_id env extracted_product [] confidence_threshold use_ai_fallback
  = ([], Ok {| matched_id := PStr (str "NO_MATCH");
               confidence := PFloat (str "0.0");
               reasoning := PStr (str "Reference database is empty");
               matched_description := None |}).
Proof. reflexivity. Qed.

(** ** The suffix-extension rule *)

(** A single candidate is returned with confidence 1.0. *)
Lemma match_product_by_id_single_candidate
    (env : Env) (extracted_product : Extracted) (reference_database : list Product)
    (entry : Product) (confidence_threshold : float_lit) (use_ai_fallback : bool) :
  let normalized_extracted :=
    normalize_product_id (get_or_na (e_product_id extracted_product)) in
  normalized_extracted <> [] ->
  matching_products_of normalized_extracted reference_database = [entry] ->
  exists why,
    match_product_by_id env extracted_product reference_database
                        confidence_threshold use_ai_fallback
    = ([], Ok {| matched_id := PStr (product_id entry);
                 confidence := PFloat (str "1.0");
                 reasoning := PStr why;
                 matched_description := Some (description entry) |}).
Proof.
  intros ne Hne Hm. subst ne.
  destruct reference_database as [|q db]; [discriminate|].
  unfold match_product_by_id.
  rewrite (deterministic_route _ Hne), Hm. returns.
Qed.



(** The same in a catalog with other entries, as long as the entry is
    the only candidate. *)
Example suffix_extension_among_other_entries :
  let extracted := {| e_product_id := Some (str "Z11");
                      e_description := Some (str "SMOKED HAM") |} in
  let db := [ {| product_id := str "Z75880"; description := str "Ground Beef" |};
              {| product_id := str "K002011-01"; description := str "HAM" |};
              {| product_id := str "K002111-01"; description := str "TURKEY" |} ] in
  exists why,
    match_product_by_id offline extracted db (str "0.8") true
    = ([], Ok {| matched_id := PStr (str "K002011-01");
                 confidence := PFloat (str "1.0");
                 reasoning := PStr why;
                 matched_description := Some (str "HAM") |}).
Proof.
  intros extracted db.
  apply (@match_product_by_id_single_candidate offline extracted db
           {| product_id := str "K002011-01"; description := str "HAM" |}).
  - vm_compute. discriminate.
  - vm_compute. reflexivity.
Qed.

(** ** The simplicity tie-break *)

(** C8: of the two candidates "K002019-01" and "K002019-01FZ", in either
    order and whatever their descriptions, the tie-break selects
    "K002019-01"; and when these two are the candidates of a record,
    match_product_by_id returns "K002019-01" with confidence 1.0, without
    calling the AI-assisted matcher. *)
Theorem simplest_of_K002019_pair (d1 d2 : pystr) :
  select_simplest_product_id [K002019_01 d1; K002019_01FZ d2] = Some (K002019_01 d1) /\
  select_simplest_product_id [K002019_01FZ d2; K002019_01 d1] = Some (K002019_01 d1) /\
  forall (env : Env) (extracted_product : Extracted) (reference_database : list Product)
         (confidence_threshold : float_lit) (use_ai_fallback : bool),
    (let candidates :=
       matching_products_of
         (normalize_product_id (get_or_na (e_product_id extracted_product)))
         reference_database in
     candidates = [K002019_01 d1; K002019_01FZ d2] \/
     candidates = [K002019_01FZ d2; K002019_01 d1]) ->
    exists why,
      match_product_by_id env extracted_product reference_database
                          confidence_threshold use_ai_fallback
      = ([], Ok {| matched_id := PStr (str "K002019-01");
                   confidence := PFloat (str "1.0");
                   reasoning := PStr why;
                   matched_description := Some d1 |}).
Proof.
  assert (S1 : select_simplest_product_id [K002019_01 d1; K002019_01FZ d2]
               = Some (K002019_01 d1)) by (vm_compute; reflexivity).
  assert (S2 : select_simplest_product_id [K002019_01FZ d2; K002019_01 d1]
               = Some (K002019_01 d1)) by (vm_compute; reflexivity).
  split; [exact S1|]. split; [exact S2|].
  intros env e db thr ai Hc. cbv zeta in Hc.
  set (n := normalize_product_id (get_or_na (e_product_id e))) in *.
  assert (Hin : In (K002019_01 d1) (matching_products_of n db))
    by (destruct Hc as [-> | ->]; simpl; tauto).
  apply matching_products_of_In in Hin as [_ Hn].
  replace (normalize_product_id (product_id (K002019_01 d1))) with (str "19-01") in Hn
    by (vm_compute; reflexivity).
  assert (Hne : n <> []).
  { intros E. rewrite E in Hn. destruct Hn as [Hn | Hn]; vm_compute in Hn; discriminate. }
  destruct db as [|q db]; [destruct Hc as [Hc | Hc]; discriminate|].
  unfold match_product_by_id. subst n.
  rewrite (deterministic_route (get_or_na (e_product_id e)) Hne).
  destruct Hc as [Hc | Hc]; rewrite Hc; [rewrite S1 | rewrite S2]; returns.
Qed.

Lemma simplest_of_K002019_pair_witness :
  let extracted := {| e_product_id := Some (str "19");
                      e_description := Some (str "TURKEY BREAST") |} in
  let db := [ {| product_id := str "Z75880"; description := str "GROUND BEEF" |};
              K002019_01FZ (str "TURKEY FROZEN");
              K002019_01 (str "TURKEY") ] in
  exists why,
    match_product_by_id offline extracted db (str "0.8") true
    = ([], Ok {| matched_id := PStr (str "K002019-01");
                 confidence := PFloat (str "1.0");
                 reasoning := PStr why;
                 matched_description := Some (str "TURKEY") |}).
Proof.
  intros extracted db.
  apply (proj2 (proj2 (simplest_of_K002019_pair (str "TURKEY") (str "TURKEY FROZEN")))).
  right. vm_compute. reflexivity.
Defined.

(** The other examples of the docstring of the tie-break. *)
Example select_simplest_product_id_docstring :
  let entry (id : pystr) := {| product_id := id; description := [] |} in
  select_simplest_product_id
    [entry (str "K002019-01FZ-SABYS"); entry (str "K002019-01FZ");
     entry (str "K002019-01")]
  = Some (entry (str "K002019-01")) /\
  select_simplest_product_id [entry (str "CG00001"); entry (str "Kruse01")]
  = Some (entry (str "Kruse01")) /\
  select_simplest_product_id [entry (str "Kruse05"); entry (str "Kruse5")] = None.
Proof. repeat split; vm_compute; reflexivity. Qed.

(** ** Totality *)

Lemma match_product_with_gemini_outcome
    (env : Env) (e : Extracted) (db : list Product) (thr : float_lit) :
  (key_is_set env = true /\
   exists t r, match_product_with_gemini env e db thr = (t, Ok r)) \/
  (key_is_set env = false /\
   match_product_with_gemini env e db thr
   = ([CallMatchWithGemini e db], Raise missing_key_error)).
Proof.
  unfold match_product_with_gemini.
  destruct (key_is_set env); cbn [negb]; [left | right; split; reflexivity].
  split; [reflexivity|].
  destruct db as [|p db]; [returns|].
  destruct (generate_content env _) as [text | ex].
  - destruct (parse_gemini_matching_response text (p :: db)); returns.
  - returns.
Qed.



(** ** Where a matched id comes from *)

Lemma insert_by_In {A K} (lt : K -> K -> bool) (key : A -> K) (x y : A) (l : list A) :
  In y (insert_by lt key x l) <-> y = x \/ In y l.
Proof.
  induction l as [|z l IH]; simpl.
  - intuition congruence.
  - destruct (lt (key z) (key x)); simpl; rewrite ?IH; intuition congruence.
Qed.

Lemma sorted_by_In {A K} (lt : K -> K -> bool) (key : A -> K) (y : A) (l : list A) :
  In y (sorted_by lt key l) <-> In y l.
Proof.
  induction l as [|x l IH]; simpl; [tauto|].
  rewrite insert_by_In, IH. intuition congruence.
Qed.

Lemma select_simplest_product_id_In (l : list Product) (p : Product) :
  select_simplest_product_id l = Some p -> In p l.
Proof.
  unfold select_simplest_product_id.
  destruct l as [|a [|b l]]; [discriminate | intros [= ->]; simpl; tauto |].
  set (ps := a :: b :: l).
  destruct (kruse01_over_cg00001 ps) eqn:K1.
  { intros [= <-]. unfold kruse01_over_cg00001 in K1.
    destruct (_ && _) in K1; [|discriminate].
    apply find_some in K1. tauto. }
  destruct (kruse_over_cg ps) eqn:K2.
  { intros [= <-]. unfold kruse_over_cg in K2.
    destruct (_ && _) in K2; [|discriminate].
    destruct (filter _ ps) as [|k [|k' ks]] eqn:F in K2; try discriminate.
    injection K2 as <-.
    assert (Hk : In k (filter (fun p0 => startswith (upper (product_id p0)) (str "KRUSE")) ps))
      by (rewrite F; simpl; tauto).
    apply filter_In in Hk. tauto. }
  destruct (kruse5_and_kruse05 ps); [discriminate|].
  unfold clear_winner.
  destruct (sorted_by _ _ ps) as [|x xs] eqn:So; [discriminate|].
  destruct (has_extra_suffix x =? 0); [|discriminate].
  destruct (filter _ xs); [|discriminate].
  intros [= <-]. apply (sorted_by_In score_ltb (fun p0 => complexity_score (product_id p0))).
  rewrite So. simpl. tauto.
Qed.

Lemma match_product_with_gemini_calls
    (env : Env) (e : Extracted) (db : list Product) (thr : float_lit) :
  fst (match_product_with_gemini env e db thr) <> [].
Proof.
  unfold match_product_with_gemini.
  destruct (negb (key_is_set env)); [discriminate|].
  destruct db; discriminate.
Qed.




(** The same through the lenient parse: the answer is not JSON, the id is
    recovered by pattern extraction and returned with confidence None. *)
Example lenient_parse_outside_catalog :
  parse_gemini_matching_response
    (quoted "The best candidate is 'matched_id': 'Z99999' I think")
    [ {| product_id := str "Z75880"; description := str "Ground Beef 80/20" |} ]
  = Ok {| matched_id := PStr (str "Z99999");
          confidence := PNone;
          reasoning := PStr (str "Parsed from malformed JSON");
          matched_description := None |}.
Proof. vm_compute. reflexivity. Qed.

(** What every path of the matcher does keep: a description is only
    attached to the id of the catalog entry it comes from. *)
Lemma lookup_description_In (v : pyval) (db : list Product) (d : pystr) :
  lookup_description v db = Some d ->
  exists p, In p db /\ v = PStr (product_id p) /\ d = description p.
Proof.
  unfold lookup_description.
  destruct (find _ db) as [p|] eqn:F; [|discriminate].
  intros [= <-]. apply find_some in F as [Hin Hs].
  exists p. split; [exact Hin|]. split; [|reflexivity].
  destruct v; try discriminate. cbn in Hs. apply eqb_eq in Hs. now subst.
Qed.

Lemma parsed_description_is_in_catalog (text : pystr) (db : list Product)
    (r : MatchResult) (d : pystr) :
  parse_gemini_matching_response text db = Ok r ->
  matched_description r = Some d ->
  exists p, In p db /\ matched_id r = PStr (product_id p) /\ d = description p.
Proof.
  unfold parse_gemini_matching_response.
  destruct (json_loads _) as [[ | | | | | |dict] | [msg|msg|msg]]; try discriminate.
  - intros [= <-]. cbn [matched_description matched_id].
    destruct (negb _); [|discriminate]. apply lookup_description_In.
  - destruct (re_search _ _); intros [= <-]; discriminate.
Qed.

Lemma described_match_is_in_catalog
    (env : Env) (extracted_product : Extracted) (reference_database : list Product)
    (confidence_threshold : float_lit) (use_ai_fallback : bool)
    (calls : list event) (result : MatchResult) (d : pystr) :
  match_product_by_id env extracted_product reference_database
                      confidence_threshold use_ai_fallback
  = (calls, Ok result) ->
  matched_description result = Some d ->
  exists p, In p reference_database /\
            matched_id result = PStr (product_id p) /\ d = description p.
Proof.
  unfold match_product_by_id.
  destruct reference_database as [|q db]; [intros [= _ <-]; discriminate|].
  set (id := get_or_na (e_product_id extracted_product)).
  set (n := normalize_product_id id).
  assert (AI : forall l, (forall p, In p l -> In p (q :: db)) ->
    match_product_with_gemini env extracted_product l confidence_threshold
    = (calls, Ok result) ->
    matched_description result = Some d ->
    exists p, In p (q :: db) /\
              matched_id result = PStr (product_id p) /\ d = description p).
  { intros l Sub. unfold match_product_with_gemini.
    destruct (negb (key_is_set env)); [discriminate|].
    destruct l as [|c l]; [intros [= _ <-]; discriminate|].
    destruct (generate_content env _) as [text | ex]; [|intros [= _ <-]; discriminate].
    destruct (parse_gemini_matching_response text (c :: l)) as [r | ex] eqn:P;
      [|intros [= _ <-]; discriminate].
    intros [= _ <-] Hd.
    destruct (parsed_description_is_in_catalog _ _ P Hd) as (p & Hp & Hid & Hdesc).
    exists p. auto. }
  assert (Sub : forall p, In p (matching_products_of n (q :: db)) -> In p (q :: db)).
  { intros p Hp. now apply (matching_products_of_In n (q :: db)). }
  destruct (negb (truthy n) || eqb id (str "N/A")).
  { destruct use_ai_fallback; [now apply AI|]. intros [= _ <-]; discriminate. }
  destruct (matching_products_of n (q :: db)) as [|m1 [|m2 ms]] eqn:M.
  - intros [= _ <-]; discriminate.
  - intros [= _ <-] [= <-]. exists m1. split; [apply Sub; simpl; tauto | auto].
  - destruct (select_simplest_product_id (m1 :: m2 :: ms)) as [w|] eqn:S.
    + intros [= _ <-] [= <-]. exists w.
      split; [apply Sub; now apply select_simplest_product_id_In | auto].
    + destruct (all_digits n && (length n <=? 2)); cbn [andb].
      * destruct use_ai_fallback; [now apply AI|].
        intros [= _ <-] [= <-]. exists m1. split; [apply Sub; simpl; tauto | auto].
      * intros [= _ <-] [= <-]. exists m1. split; [apply Sub; simpl; tauto | auto].
Qed.

(* ================================================================== *)
(** * Cost cleaning *)
(* ================================================================== *)

(** ** The texts handed to [float] *)

Lemma float_of_digits (ds : pystr) :
  forallb isdigit ds = true -> ds <> [] -> float_of ds <> None.
Proof.
  intros F N. unfold float_of.
  rewrite <- (app_nil_r ds) at 1. rewrite (span_app_stop isdigit ds [] F I).
  destruct ds; [contradiction | discriminate].
Qed.

Lemma float_of_decimal (ds : pystr) (a b : ascii) :
  forallb isdigit ds = true -> ds <> [] -> isdigit a = true -> isdigit b = true ->
  float_of (ds ++ ["."%char; a; b]) <> None.
Proof.
  intros F N Da Db. unfold float_of.
  rewrite (span_app_stop isdigit ds ["."%char; a; b] F eq_refl).
  destruct ds; [contradiction|].
  change (chr_eqb "." ".") with true. rewrite Da, Db. discriminate.
Qed.

(** In clean_cost of the base parser the group is always a text that
    [float] reads: the [ValueError] that the source does not catch cannot
    occur. *)
Lemma base_price_is_read (s : pystr) (m : match_obj) :
  re_search BaseParser.re_dollar_price s = Some m ->
  float_of (group_str m 1) <> None.
Proof.
  intros H. apply re_search_parse in H. unfold group_str, group.
  revert H. generalize (mo_text m) (mo_caps m). intros w c H.
  unfold BaseParser.re_dollar_price in H. cbn [seq] in H.
  apply parse_cat in H as (u1 & v1 & c1 & c2 & _ & -> & H1 & H).
  apply parse_nogroups in H1 as ->; [|reflexivity].
  apply parse_cat in H as (u2 & v2 & c3 & c4 & _ & -> & H2 & H).
  apply parse_nogroups in H2 as ->; [|reflexivity].
  apply parse_grp in H as (c5 & -> & H).
  cbn [app lookup Nat.eqb].
  apply parse_cat in H as (ds & fr & c6 & c7 & -> & _ & Hd & Hf).
  apply parse_between_cls in Hd as (Fd & Nd & _).
  unfold opt in Hf. apply parse_alt in Hf as [Hf | Hf].
  - apply parse_point_two_digits in Hf as (a & b & -> & Da & Db).
    now apply float_of_decimal.
  - apply parse_eps in Hf as [-> _]. rewrite app_nil_r. now apply float_of_digits.
Qed.

(** The same for the two patterns of Kruse & Sons. *)
Lemma kruse_price_is_read (s : pystr) (m : match_obj) :
  re_search KruseSonsParser.re_decimal s = Some m \/
  re_search KruseSonsParser.re_whole s = Some m ->
  float_of (group_str m 1) <> None.
Proof.
  intros [H | H]; apply re_search_parse in H; unfold group_str, group;
    revert H; generalize (mo_text m) (mo_caps m); intros w c H.
  - unfold KruseSonsParser.re_decimal in H. cbn [seq] in H.
    apply parse_grp in H as (c5 & -> & H). cbn [lookup Nat.eqb].
    apply parse_cat in H as (ds & fr & c6 & c7 & -> & _ & Hd & Hf).
    apply parse_between_cls in Hd as (Fd & Nd & _).
    apply parse_point_two_digits in Hf as (a & b & -> & Da & Db).
    now apply float_of_decimal.
  - unfold KruseSonsParser.re_whole in H.
    apply parse_grp in H as (c5 & -> & H). cbn [lookup Nat.eqb].
    apply parse_between_cls in H as (Fd & Nd & _). now apply float_of_digits.
Qed.

(** ** The unit of a price *)

(** A character that a literal of the unit accepts under IGNORECASE is
    that literal once in upper case, and is no blank. *)
Lemma ilit_upper (c x : ascii) :
  In c (str "/LBCSEA") ->
  chr_eqb (lower_chr x) (lower_chr c) = true ->
  upper_chr x = c /\ isspace x = false.
Proof.
  intros Hc H. vm_compute in Hc.
  destruct Hc as [<- | [<- | [<- | [<- | [<- | [<- | [<- | []]]]]]]];
    destruct x as [[] [] [] [] [] [] [] []]; try discriminate H; split; reflexivity.
Qed.

Lemma parse_ilits3 (a b c : ascii) (w : pystr) (caps : list (nat * pystr)) :
  In a (str "/LBCSEA") -> In b (str "/LBCSEA") -> In c (str "/LBCSEA") ->
  parse (Cat (ilit a) (Cat (ilit b) (ilit c))) w caps ->
  upper (strip w) = [a; b; c] /\ truthy w = true.
Proof.
  intros Ha Hb Hc H.
  apply parse_cat in H as (u & v & c1 & c2 & -> & _ & Hu & Hv).
  apply parse_cat in Hv as (v1 & v2 & c3 & c4 & -> & _ & Hv1 & Hv2).
  apply parse_cls in Hu as (x & -> & _ & Px).
  apply parse_cls in Hv1 as (y & -> & _ & Py).
  apply parse_cls in Hv2 as (z & -> & _ & Pz).
  destruct (@ilit_upper a x Ha Px) as [Ux Sx].
  destruct (@ilit_upper b y Hb Py) as [Uy Sy].
  destruct (@ilit_upper c z Hc Pz) as [Uz Sz].
  cbn [app]. split; [|reflexivity].
  unfold strip, strip_by. cbn [lstrip_by]. rewrite Sx.
  rewrite !rstrip_by_keep by assumption. cbn [rstrip_by upper map].
  now rewrite Ux, Uy, Uz.
Qed.

(** The unit that clean_cost of gemini_parser appends is one of the three
    of the pattern, in upper case, or none. *)
Lemma clean_cost_unit (cost_str : pystr) (price_value : cents) (unit_part : pystr) :
  gemini_parser.clean_cost_value cost_str = Some (Amount price_value unit_part) ->
  In (upper unit_part) [[]; str "/LB"; str "/CS"; str "/EA"].
Proof.
  unfold gemini_parser.clean_cost_value.
  destruct (mem _ _); [discriminate|].
  destruct (mem _ _); [discriminate|].
  destruct (re_search re_price_unit _) as [m|] eqn:S; [|discriminate].
  destruct (float_of _); [|discriminate].
  destruct (negb _); [discriminate|].
  intros [= _ <-]. clear - S.
  apply re_search_parse in S. unfold group.
  revert S. generalize (mo_text m) (mo_caps m). intros w c H.
  unfold re_price_unit in H. cbn [seq] in H.
  apply parse_cat in H as (u1 & v1 & c1 & c2 & _ & -> & H1 & H).
  apply parse_grp in H1 as (c1' & -> & H1).
  apply parse_nogroups in H1 as ->; [|reflexivity].
  apply parse_cat in H as (u2 & v2 & c3 & c4 & _ & -> & H2 & H).
  apply parse_nogroups in H2 as ->; [|reflexivity].
  unfold opt in H. apply parse_alt in H as [H | H].
  - apply parse_grp in H as (c5 & -> & H). cbn [app lookup Nat.eqb].
    assert (U : (upper (strip v2) = str "/LB" \/ upper (strip v2) = str "/CS" \/
                 upper (strip v2) = str "/EA") /\ truthy v2 = true).
    { apply parse_alt in H as [H | H]; [|apply parse_alt in H as [H | H]];
        (apply parse_ilits3 in H as [E T]; [|vm_compute; tauto ..]);
        (split; [|exact T]); rewrite E;
        [left | right; left | right; right]; reflexivity. }
    destruct U as [U ->]. destruct U as [-> | [-> | ->]]; vm_compute; tauto.
  - apply parse_eps in H as [_ ->]. cbn [app lookup Nat.eqb]. vm_compute. tauto.
Qed.

(** ** The ranges *)




(** The base parser, for its part, accepts the amount 0.00, which is
    below 0.01, and rejects what is above 1000.00. *)
Example base_clean_cost_accepts_zero :
  BaseParser.clean_cost (str "$0.00") = Some (str "$0.00") /\
  ~ in_spec_range 0%N /\
  BaseParser.clean_cost (str "$1000.01") = None.
Proof.
  split; [vm_compute; reflexivity|].
  split; [unfold in_spec_range; lia | vm_compute; reflexivity].
Qed.

(** The range of Kruse & Sons is the one of the specification. *)
Example kruse_clean_cost_range :
  map KruseSonsParser.clean_cost
      [str "0.00"; str "0.01"; str "9999.99"; str "10000.00"; str "2.15"]
  = [None; Some (str "$0.01/LB"); Some (str "$9999.99/LB"); None;
     Some (str "$2.15/LB")].
Proof. vm_compute. reflexivity. Qed.

(* ================================================================== *)
(** * Table rows with an unreadable product id *)
(* ================================================================== *)

Lemma kruse_clean_cost_has_digit (raw_price cost : pystr) :
  KruseSonsParser.clean_cost raw_price = Some cost ->
  truthy raw_price = true /\ existsb isdigit raw_price = true /\ truthy cost = true.
Proof.
  unfold KruseSonsParser.clean_cost. intros H.
  destruct (truthy raw_price); [|discriminate]. cbn [negb] in H.
  split; [reflexivity|].
  destruct (existsb isdigit raw_price) eqn:D.
  - split; [reflexivity|].
    destruct (match re_search KruseSonsParser.re_decimal _ with Some m => _ | None => _ end);
      [|discriminate].
    destruct (float_of _); [|discriminate].
    destruct (negb _); [discriminate|]. now injection H as <-.
  - apply cleaned_digit_free in D. unfold re_search in H.
    rewrite (search_from_needs isdigit KruseSonsParser.re_decimal _ None 0) in H
      by (exact D || reflexivity).
    rewrite (search_from_needs isdigit KruseSonsParser.re_whole _ None 0) in H
      by (exact D || reflexivity).
    discriminate.
Qed.




(** What an id cell has to be for Kruse & Sons: one to three digits,
    then a word boundary. *)
Example kruse_id_cells :
  map kruse_id_invalid [str "07"; str "123"; str "1234"; str "12A"; str "ABC"; str "12-3"]
  = [false; false; true; true; true; false].
Proof. vm_compute. reflexivity. Qed.

(* ================================================================== *)
(** * process_pdf when every strategy fails *)
(* ================================================================== *)

(** C5, as the code has it: when every strategy of the vendor's list
    fails, process_pdf raises if the image-based table extraction of the
    vendor's block raises, or else if the final OCR extraction raises;
    when these fail by returning no record, process_pdf returns the empty
    list. *)
Theorem process_pdf_when_all_strategies_fail
    (ex : Extractors) (filepath vendor : pystr) :
  all_strategies_fail ex filepath vendor ->
  match image_block vendor, extract_image_tables_structured ex filepath vendor,
        extract_image_tables ex filepath vendor with
  | Some label, Raise e, _ =>
      process_pdf ex filepath vendor
      = Raise (Exception (str "Failed to extract data from " ++ label
                          ++ str " PDF: " ++ exn_msg e))
  | _, _, Raise e =>
      process_pdf ex filepath vendor
      = Raise (Exception (str "Failed to extract data from PDF: " ++ exn_msg e))
  | _, _, Ok _ => process_pdf ex filepath vendor = Ok []
  end.
Proof.
  unfold all_strategies_fail, strategy_list. intros H.
  apply Forall_app in H as [Hg H]. apply Forall_app in H as [Hi H].
  inversion H as [|t l Ht H' E]; subst; clear H.
  inversion H' as [|o l Ho _ E]; subst; clear H'.
  unfold process_pdf, image_stage, text_stage, ocr_stage.
  destruct (mem vendor gemini_vendors && HAS_GEMINI ex);
    [inversion Hg as [|g l Hg' _ E]; subst; clear Hg;
     destruct (parse_pdf_with_gemini ex filepath vendor) as [gd | ge];
     [simpl in Hg'; subst; cbn [has_records] |] |];
    (destruct (image_block vendor) as [label|];
     [inversion Hi as [|i l Hi' _ E]; subst; clear Hi;
      destruct (extract_image_tables_structured ex filepath vendor) as [idata | ie];
      [simpl in Hi'; subst; cbn [has_records] | reflexivity]
     | destruct (extract_image_tables_structured ex filepath vendor) as [idata | ie]]);
    destruct (extract_text_tables ex filepath vendor) as [td | te];
    destruct (extract_image_tables ex filepath vendor) as [od | oe];
    simpl in Ht, Ho; subst; reflexivity.
Qed.

Lemma process_pdf_when_all_strategies_fail_witness :
  process_pdf nothing_found (str "pricelist.pdf") (str "rw_zant") = Ok [].
Proof.
  apply (@process_pdf_when_all_strategies_fail nothing_found
           (str "pricelist.pdf") (str "rw_zant")).
  repeat constructor.
Defined.

(** C5, as stated, fails: every strategy returns zero records and
    process_pdf returns the empty list instead of raising. *)
Lemma process_pdf_returns_empty_list :
  ~ (forall (ex : Extractors) (filepath vendor : pystr),
       all_strategies_fail ex filepath vendor ->
       exists e, process_pdf ex filepath vendor = Raise e).
Proof.
  intros H.
  destruct (H nothing_found (str "pricelist.pdf") (str "rw_zant")) as [e E].
  - repeat constructor.
  - vm_compute in E. discriminate.
Qed.

(** The same for a vendor that goes through every stage, and the case
    where the last stage raises. *)
Example process_pdf_stages :
  process_pdf nothing_found (str "pricelist.pdf") (str "kruse_sons") = Ok [] /\
  process_pdf
    {| HAS_GEMINI := false;
       parse_pdf_with_gemini := fun _ _ => Ok [];
       extract_image_tables_structured := fun _ _ => Ok [];
       extract_text_tables := fun _ _ => Raise (Exception (str "no text layer"));
       extract_image_tables := fun _ _ => Raise (Exception (str "tesseract missing")) |}
    (str "pricelist.pdf") (str "rw_zant")
  = Raise (Exception (str "Failed to extract data from PDF: tesseract missing")).
Proof. split; vm_compute; reflexivity. Qed.

Lemma steps_length (r : regex) (st st' : mstate) :
  steps r st st' -> length (m_rest st') <= length (m_rest st).
Proof.
  induction 1; simpl in *; try lia.
  rewrite H. simpl. lia.
Qed.

(** The matcher finds a way whenever there is one the continuation
    accepts. *)
Lemma exec_complete (r : regex) (st st' : mstate) :
  steps r st st' ->
  forall A (k : mstate -> option A), k st' <> None -> exec r st k <> None.
Proof.
  induction 1; intros A k Hk; cbn [exec].
  - exact Hk.
  - rewrite H, H0. exact Hk.
  - apply IHsteps1. apply IHsteps2. exact Hk.
  - unfold orelse. destruct (exec r1 st k) eqn:E; [discriminate|].
    exfalso. exact (IHsteps A k Hk E).
  - unfold orelse. destruct (exec r1 st k); [discriminate|].
    apply IHsteps. exact Hk.
  - cbn [star_loop]. unfold orelse.
    destruct g.
    + destruct (exec r st _); [discriminate | exact Hk].
    + destruct (k st); [discriminate | now elim Hk].
  - cbn [star_loop]. unfold orelse.
    assert (Hagain :
      exec r st (fun st1' =>
        if length (m_rest st1') <? length (m_rest st)
        then star_loop (exec r) g k (length (m_rest st)) st1' else None) <> None).
    { apply IHsteps1.
      apply Nat.ltb_lt in H0 as H0'. rewrite H0'.
      rewrite star_fuel_irrelevant by exact H0.
      apply IHsteps2. exact Hk. }
    destruct g.
    + destruct (exec r st _); [discriminate | now elim Hagain].
    + destruct (k st); [discriminate | exact Hagain].
  - apply IHsteps. exact Hk.
  - rewrite H. exact Hk.
  - rewrite H. exact Hk.
  - rewrite H. exact Hk.
Qed.

Lemma star_loop_sound {A} (r : regex) (g : bool)
    (body : mstate -> (mstate -> option A) -> option A) (k : mstate -> option A) :
  sound_body r body ->
  forall fuel st x, star_loop body g k fuel st = Some x ->
    exists st', steps (Star g r) st st' /\ k st' = Some x.
Proof.
  intros Hb. induction fuel as [|f IH]; intros st x H; cbn [star_loop] in H.
  - exists st. split; [constructor | exact H].
  - assert (Hagain : forall y,
      body st (fun st1 =>
        if length (m_rest st1) <? length (m_rest st)
        then star_loop body g k f st1 else None) = Some y ->
      exists st', steps (Star g r) st st' /\ k st' = Some y).
    { intros y Hy. apply Hb in Hy as (st1 & S1 & K1).
      destruct (length (m_rest st1) <? length (m_rest st)) eqn:L; [|discriminate].
      apply Nat.ltb_lt in L.
      apply IH in K1 as (st2 & S2 & K2).
      exists st2. split; [|exact K2].
      eapply S_star_cons; eassumption. }
    unfold orelse in H. destruct g.
    + destruct (body st _) eqn:E.
      * injection H as <-. apply Hagain. reflexivity.
      * exists st. split; [constructor | exact H].
    + destruct (k st) eqn:E.
      * injection H as <-. exists st. split; [constructor | exact E].
      * apply Hagain. exact H.
Qed.

Lemma exec_sound (r : regex) : forall A, sound_body r (@exec A r).
Proof.
  induction r; intros A st k x H; cbn [exec] in H.
  - exists st. split; [constructor | exact H].
  - destruct (m_rest st) as [|c t] eqn:E; [discriminate|].
    destruct (p c) eqn:P; [|discriminate].
    exists (advance c t st). split; [now constructor | exact H].
  - apply IHr1 in H as (st1 & S1 & H). apply IHr2 in H as (st2 & S2 & H).
    exists st2. split; [econstructor; eassumption | exact H].
  - unfold orelse in H. destruct (exec r1 st k) eqn:E.
    + injection H as <-. apply IHr1 in E as (st1 & S1 & K1).
      exists st1. split; [now apply S_alt_l | exact K1].
    + apply IHr2 in H as (st1 & S1 & K1).
      exists st1. split; [now apply S_alt_r | exact K1].
  - eapply star_loop_sound; [apply IHr | exact H].
  - apply IHr in H as (st1 & S1 & K1).
    exists (close_group n st st1). split; [now constructor | exact K1].
  - destruct (m_prev st) eqn:E; [discriminate|].
    exists st. split; [now constructor | exact H].
  - destruct (at_eol st) eqn:E; [|discriminate].
    exists st. split; [now constructor | exact H].
  - destruct (at_wordb st) eqn:E; [|discriminate].
    exists st. split; [now constructor | exact H].
Qed.

(** When every accepted way gives the same answer, that is the answer. *)
Lemma exec_determined {A} (r : regex) (st st' : mstate) (k : mstate -> option A) (x : A) :
  steps r st st' -> k st' = Some x ->
  (forall st'', steps r st st'' -> k st'' = None \/ k st'' = Some x) ->
  exec r st k = Some x.
Proof.
  intros S K U.
  destruct (exec r st k) as [y|] eqn:E.
  - apply exec_sound in E as (st'' & S'' & K'').
    destruct (U st'' S'') as [N | E']; congruence.
  - exfalso. eapply exec_complete; [exact S | | exact E]. congruence.
Qed.

(** ** More on strings *)

Lemma strip_by_free (p : ascii -> bool) (s : pystr) :
  existsb p s = false -> strip_by p s = s.
Proof.
  intros H. unfold strip_by.
  assert (L : lstrip_by p s = s).
  { destruct s as [|c t]; [reflexivity|]. cbn in H |- *.
    apply orb_false_iff in H as [-> _]. reflexivity. }
  rewrite L. clear L. induction s as [|c t IH]; [reflexivity|].
  cbn in H. apply orb_false_iff in H as [Hc Ht].
  rewrite rstrip_by_keep by exact Hc. now rewrite IH.
Qed.

Lemma digits_no_space (w : pystr) : forallb isdigit w = true -> existsb isspace w = false.
Proof.
  induction w as [|c t IH]; [reflexivity|]. cbn. intros H.
  apply andb_true_iff in H as [Hc Ht]. rewrite (IH Ht), orb_false_r.
  destruct c as [[] [] [] [] [] [] [] []]; try discriminate Hc; reflexivity.
Qed.

Lemma digits_upper (w : pystr) : forallb isdigit w = true -> upper w = w.
Proof.
  induction w as [|c t IH]; [reflexivity|]. cbn. intros H.
  apply andb_true_iff in H as [Hc Ht]. fold (upper t). rewrite (IH Ht). f_equal.
  destruct c as [[] [] [] [] [] [] [] []]; try discriminate Hc; reflexivity.
Qed.

Lemma existsb_isdigit_lstrip (s : pystr) :
  existsb isdigit (lstrip_by isspace s) = existsb isdigit s.
Proof.
  induction s as [|c t IH]; [reflexivity|]. cbn [lstrip_by].
  destruct (isspace c) eqn:S; [|reflexivity].
  rewrite IH. cbn [existsb].
  destruct c as [[] [] [] [] [] [] [] []]; try discriminate S; reflexivity.
Qed.

Lemma existsb_isdigit_rstrip (s : pystr) :
  existsb isdigit (rstrip_by isspace s) = existsb isdigit s.
Proof.
  induction s as [|c t IH]; [reflexivity|]. cbn [rstrip_by].
  destruct (rstrip_by isspace t) as [|a l] eqn:R.
  - cbn [existsb] in *. rewrite <- IH, orb_false_r.
    destruct (isspace c) eqn:S; cbn; [|now rewrite orb_false_r].
    destruct c as [[] [] [] [] [] [] [] []]; try discriminate S; reflexivity.
  - change (existsb isdigit (c :: a :: l)) with (isdigit c || existsb isdigit (a :: l)).
    now rewrite IH.
Qed.

Lemma existsb_isdigit_cleaned (s : pystr) :
  existsb isdigit (upper (strip s)) = existsb isdigit s.
Proof.
  rewrite existsb_isdigit_upper. unfold strip, strip_by.
  now rewrite existsb_isdigit_rstrip, existsb_isdigit_lstrip.
Qed.

(** ** Leading zeros *)

Lemma lstrip_zeros_digits (w : pystr) :
  forallb isdigit w = true ->
  forallb isdigit (lstrip_chr "0" w) = true /\
  startswith (lstrip_chr "0" w) (str "0") = false \/ lstrip_chr "0" w = [].
Proof.
  unfold lstrip_chr. induction w as [|c t IH]; [now right|].
  cbn [forallb lstrip_by]. intros H. apply andb_true_iff in H as [Hc Ht].
  destruct (chr_eqb "0" c) eqn:Z; [now apply IH|].
  left. split.
  - cbn [forallb]. now rewrite Hc, Ht.
  - change (str "0") with ["0"%char]. cbn [startswith]. now rewrite Z.
Qed.

Lemma strip_zeros_canonical (w : pystr) :
  forallb isdigit w = true -> canonical_digits (strip_zeros w) = true.
Proof.
  intros H. unfold strip_zeros.
  destruct (lstrip_zeros_digits w H) as [[F S] | E].
  - destruct (lstrip_chr "0" w) as [|c t] eqn:L; [reflexivity|].
    unfold canonical_digits, all_digits. cbn [truthy]. rewrite F, S.
    cbn. now rewrite orb_true_r.
  - rewrite E. reflexivity.
Qed.

Lemma canonical_digits_inv (d : pystr) :
  canonical_digits d = true ->
  forallb isdigit d = true /\ d <> [] /\
  (d = str "0" \/ startswith d (str "0") = false).
Proof.
  unfold canonical_digits, all_digits. intros H.
  apply andb_true_iff in H as [H1 H2]. apply andb_true_iff in H1 as [T F].
  split; [exact F|]. split; [destruct d; discriminate|].
  apply orb_true_iff in H2 as [E | S].
  - left. now apply eqb_eq.
  - right. now apply negb_true_iff.
Qed.

Lemma strip_zeros_fixed (d : pystr) : canonical_digits d = true -> strip_zeros d = d.
Proof.
  intros H. apply canonical_digits_inv in H as (_ & N & [-> | S]); [reflexivity|].
  unfold strip_zeros, lstrip_chr. destruct d as [|c t]; [contradiction|].
  change (str "0") with ["0"%char] in S. cbn [startswith] in S.
  rewrite andb_true_r in S. cbn [lstrip_by]. now rewrite S.
Qed.

(** ** Runs of a class *)

Lemma parse_star_cls (p : ascii -> bool) (g : bool) (w : pystr) (c : list (nat * pystr)) :
  parse (Star g (Cls p)) w c -> forallb p w = true.
Proof.
  remember (Star g (Cls p)) as r eqn:R. induction 1; try discriminate; [reflexivity|].
  injection R as -> ->. apply parse_cls in H as (x & -> & _ & Px).
  cbn. rewrite Px. now apply IHparse2.
Qed.

Lemma parse_plus_cls (p : ascii -> bool) (w : pystr) (c : list (nat * pystr)) :
  parse (plus (Cls p)) w c -> forallb p w = true /\ w <> [].
Proof.
  unfold plus. intros H.
  apply parse_cat in H as (u & v & c1 & c2 & -> & _ & Hu & Hv).
  apply parse_cls in Hu as (x & -> & _ & Px). apply parse_star_cls in Hv.
  cbn. rewrite Px, Hv. split; [reflexivity | discriminate].
Qed.

Lemma last_chr_cons (prev : option ascii) (c : ascii) (w : pystr) :
  last_chr prev (c :: w) = last_chr (Some c) w.
Proof.
  unfold last_chr. cbn [rev]. destruct (rev w) as [|x l]; reflexivity.
Qed.

Lemma star_loop_S {A} (body : mstate -> (mstate -> option A) -> option A)
    (g : bool) (k : mstate -> option A) (f : nat) (st : mstate) :
  star_loop body g k (S f) st
  = let again (_ : unit) :=
      body st (fun st1 =>
        if length (m_rest st1) <? length (m_rest st)
        then star_loop body g k f st1 else None) in
    if g then orelse (again tt) (fun _ => k st) else orelse (k st) again.
Proof. reflexivity. Qed.

Lemma exec_star {A} (g : bool) (r : regex) (st : mstate) (k : mstate -> option A) :
  exec (Star g r) st k = star_loop (exec r) g k (S (length (m_rest st))) st.
Proof. reflexivity. Qed.

Lemma exec_cls {A} (p : ascii -> bool) (st : mstate) (k : mstate -> option A) :
  exec (Cls p) st k
  = match m_rest st with
    | c :: t => if p c then k (advance c t st) else None
    | [] => None
    end.
Proof. reflexivity. Qed.

Lemma exec_cat {A} (r1 r2 : regex) (st : mstate) (k : mstate -> option A) :
  exec (Cat r1 r2) st k = exec r1 st (fun st1 => exec r2 st1 k).
Proof. reflexivity. Qed.

Lemma exec_alt {A} (r1 r2 : regex) (st : mstate) (k : mstate -> option A) :
  exec (Alt r1 r2) st k = orelse (exec r1 st k) (fun _ => exec r2 st k).
Proof. reflexivity. Qed.

Lemma exec_grp {A} (n : nat) (r : regex) (st : mstate) (k : mstate -> option A) :
  exec (Grp n r) st k = exec r st (fun st1 => k (close_group n st st1)).
Proof. reflexivity. Qed.

Lemma exec_bol {A} (st : mstate) (k : mstate -> option A) :
  exec Bol st k = match m_prev st with None => k st | Some _ => None end.
Proof. reflexivity. Qed.

Lemma exec_eol {A} (st : mstate) (k : mstate -> option A) :
  exec Eol st k = if at_eol st then k st else None.
Proof. reflexivity. Qed.

(** A greedy run of a class takes every character of the class when the
    continuation accepts what follows. *)
Lemma exec_star_greedy_cls {A} (p : ascii -> bool) (k : mstate -> option A)
    (rest : pystr) (caps : list (nat * pystr)) :
  match rest with [] => True | c :: _ => p c = false end ->
  forall (ds : pystr) (prev : option ascii),
    forallb p ds = true ->
    k (MState (last_chr prev ds) rest caps) <> None ->
    exec (Star true (Cls p)) (MState prev (ds ++ rest) caps) k
    = k (MState (last_chr prev ds) rest caps).
Proof.
  intros Hrest. induction ds as [|d ds IH]; intros prev F K.
  - cbn [app last_chr rev] in *. rewrite exec_star, star_loop_S. cbv zeta.
    rewrite exec_cls.
    destruct rest as [|c t]; cbn [m_rest orelse]; [reflexivity|].
    now rewrite Hrest.
  - cbn [forallb] in F. apply andb_true_iff in F as [Fd F].
    rewrite last_chr_cons in K |- *.
    specialize (IH (Some d) F K).
    rewrite exec_star, star_loop_S. cbv zeta.
    rewrite exec_cls. cbn [m_rest app]. rewrite Fd.
    unfold advance. cbn [m_rest m_caps length].
    assert (L : (length (ds ++ rest) <? S (length (ds ++ rest))) = true)
      by (apply Nat.ltb_lt; lia).
    rewrite L.
    rewrite star_fuel_irrelevant by (cbn [m_rest]; lia).
    rewrite IH. unfold orelse.
    destruct (k _); [reflexivity | contradiction].
Qed.

(** ** Every item of [findall] is a word of the pattern *)

Lemma matches_from_parse (r : regex) (fuel : nat) : forall prev s m,
  In m (matches_from r fuel prev s) -> parse r (mo_text m) (mo_caps m).
Proof.
  induction fuel as [|f IH]; intros prev s m H; cbn [matches_from] in H; [contradiction|].
  destruct (search_from r prev 0 s) as [m0|] eqn:E; [|contradiction].
  apply search_from_parse in E as [P _]. revert H.
  destruct (mo_text m0) eqn:T; [destruct (mo_after m0)|];
    (intros [<- | H]; [rewrite T; exact P|]); try contradiction; eapply IH; exact H.
Qed.

Lemma findall_parse (r : regex) (s x : pystr) :
  In x (findall r s) -> exists m, x = mo_text m /\ parse r (mo_text m) (mo_caps m).
Proof.
  unfold findall. intros H. apply in_map_iff in H as (m & <- & H).
  exists m. split; [reflexivity|]. eapply matches_from_parse. exact H.
Qed.

Lemma longest_In (parts : list pystr) : forall best,
  longest parts best = best \/ In (longest parts best) parts.
Proof.
  induction parts as [|p t IH]; intros best; cbn [longest]; [now left|].
  destruct (length best <? length p).
  - destruct (IH p) as [-> | H]; [right; now left | right; now right].
  - destruct (IH best) as [-> | H]; [now left | right; now right].
Qed.

(** A search for a run of a class finds one when a character of the
    class is there. *)
Lemma search_from_plus_complete (p : ascii -> bool) (s : pystr) :
  existsb p s = true ->
  forall prev start, search_from (plus (Cls p)) prev start s <> None.
Proof.
  induction s as [|c t IH]; [discriminate|].
  intros H prev start. cbn [search_from].
  destruct (match_at (plus (Cls p)) prev start (c :: t)) eqn:E; [discriminate|].
  cbn in H. destruct (p c) eqn:Pc.
  - exfalso. revert E. unfold match_at.
    eapply exec_complete; [|discriminate].
    unfold plus. eapply S_cat; [now eapply S_cls with (c := c) (t := t) | apply S_star_nil].
  - now apply IH.
Qed.

(** ** The normal form *)

Lemma has_digit_not_sentinel (s : pystr) :
  existsb isdigit s = true -> negb (truthy s) || eqb s (str "N/A") = false.
Proof.
  intros H. destruct s as [|c t]; [discriminate|]. cbn [truthy negb orb].
  apply eqb_neq. intros E. rewrite E in H. vm_compute in H. discriminate.
Qed.

Lemma normal_form_core (w : pystr) :
  forallb isdigit w = true -> is_normal_form (strip_zeros w).
Proof.
  intros F. exists (strip_zeros w). split; [now apply strip_zeros_canonical | now left].
Qed.

Lemma normal_form_suffix (w v : pystr) (c : list (nat * pystr)) :
  forallb isdigit w = true ->
  parse (Cat (lit "-") (times 2 digit)) v c ->
  is_normal_form (strip_zeros w ++ v).
Proof.
  intros F H. exists (strip_zeros w). split; [now apply strip_zeros_canonical|].
  right.
  apply parse_cat in H as (u & v' & c1 & c2 & -> & _ & Hu & Hv).
  apply parse_cls in Hu as (x & -> & _ & Px). apply Ascii.eqb_eq in Px. subst x.
  change (times 2 digit) with (Cat digit digit) in Hv.
  apply parse_cat in Hv as (u & v'' & c3 & c4 & -> & _ & Ha & Hb).
  apply parse_cls in Ha as (a & -> & _ & Da). apply parse_cls in Hb as (b & -> & _ & Db).
  exists a, b. auto.
Qed.

(** An id that has a digit normalizes to a numeric core without leading
    zeros, followed or not by a hyphen and two digits. *)
Lemma normalize_product_id_shape (product_id : pystr) :
  existsb isdigit product_id = true ->
  is_normal_form (normalize_product_id product_id).
Proof.
  intros D. unfold normalize_product_id.
  rewrite (has_digit_not_sentinel _ D).
  pose proof (existsb_isdigit_cleaned product_id) as C. rewrite D in C.
  set (cleaned := upper (strip product_id)) in *.
  destruct (re_match re_k002 cleaned) as [m|] eqn:E1.
  { apply match_at_parse in E1 as (H & _). unfold group_str, group.
    revert H. generalize (mo_text m) (mo_caps m). intros w c H.
    unfold re_k002 in H. cbn [seq] in H.
    apply parse_cat in H as (u1 & v1 & c1 & c2 & _ & -> & H1 & H).
    apply parse_nogroups in H1 as ->; [|reflexivity].
    apply parse_cat in H as (u2 & v2 & c3 & c4 & _ & -> & H2 & H).
    apply parse_nogroups in H2 as ->; [|reflexivity].
    apply parse_cat in H as (u3 & v3 & c5 & c6 & _ & -> & H3 & H).
    apply parse_grp in H3 as (c5' & -> & H3).
    apply parse_cat in H as (u4 & v4 & c7 & c8 & _ & -> & H4 & H).
    apply parse_grp in H4 as (c7' & -> & H4).
    apply parse_nogroups in H as ->; [|reflexivity].
    pose proof (parse_nogroups H3 eq_refl) as ->.
    pose proof (parse_nogroups H4 eq_refl) as ->.
    cbn [app lookup Nat.eqb].
    apply parse_times_cls in H3 as [F3 _].
    eapply normal_form_suffix; eassumption. }
  destruct (re_match re_core_suffix cleaned) as [m|] eqn:E2.
  { apply match_at_parse in E2 as (H & _). unfold group_str, group.
    revert H. generalize (mo_text m) (mo_caps m). intros w c H.
    unfold re_core_suffix in H. cbn [seq] in H.
    apply parse_cat in H as (u1 & v1 & c1 & c2 & _ & -> & H1 & H).
    apply parse_nogroups in H1 as ->; [|reflexivity].
    apply parse_cat in H as (u2 & v2 & c3 & c4 & _ & -> & H2 & H).
    apply parse_nogroups in H2 as ->; [|reflexivity].
    apply parse_cat in H as (u3 & v3 & c5 & c6 & _ & -> & H3 & H).
    apply parse_grp in H3 as (c5' & -> & H3).
    apply parse_cat in H as (u4 & v4 & c7 & c8 & _ & -> & H4 & H).
    apply parse_grp in H4 as (c7' & -> & H4).
    apply parse_nogroups in H as ->; [|reflexivity].
    pose proof (parse_nogroups H3 eq_refl) as ->.
    pose proof (parse_nogroups H4 eq_refl) as ->.
    cbn [app lookup Nat.eqb].
    apply parse_plus_cls in H3 as [F3 _].
    eapply normal_form_suffix; eassumption. }
  destruct (re_match re_core cleaned) as [m|] eqn:E3.
  { apply match_at_parse in E3 as (H & _). unfold group_str, group.
    revert H. generalize (mo_text m) (mo_caps m). intros w c H.
    unfold re_core in H. cbn [seq] in H.
    apply parse_cat in H as (u1 & v1 & c1 & c2 & _ & -> & H1 & H).
    apply parse_nogroups in H1 as ->; [|reflexivity].
    apply parse_cat in H as (u2 & v2 & c3 & c4 & _ & -> & H2 & H).
    apply parse_nogroups in H2 as ->; [|reflexivity].
    apply parse_grp in H as (c5' & -> & H3).
    cbn [app lookup Nat.eqb].
    apply parse_plus_cls in H3 as [F3 _].
    now apply normal_form_core. }
  destruct (findall re_digits cleaned) as [|p t] eqn:E4.
  { exfalso. unfold findall in E4. cbn [matches_from] in E4.
    pose proof (@search_from_plus_complete isdigit cleaned C None 0) as S.
    unfold re_digits, digit in E4.
    destruct (search_from (plus (Cls isdigit)) None 0 cleaned) as [m|]; [|contradiction].
    destruct (mo_text m); [destruct (mo_after m)|]; discriminate. }
  apply normal_form_core.
  assert (I : In (longest t p) (findall re_digits cleaned)).
  { rewrite E4. destruct (longest_In t p) as [-> | H]; [now left | now right]. }
  apply findall_parse in I as (m & -> & H).
  now apply parse_plus_cls in H as [F _].
Qed.

Lemma digit_is_not (c d : ascii) :
  isdigit d = true -> isdigit c = false -> chr_eqb c d = false.
Proof.
  intros Hd Hc. destruct (chr_eqb c d) eqn:E; [|reflexivity].
  apply Ascii.eqb_eq in E. congruence.
Qed.

Lemma digits_free_of (c : ascii) (w : pystr) :
  isdigit c = false -> forallb isdigit w = true -> existsb (fun x => chr_eqb x c) w = false.
Proof.
  intros Hc. induction w as [|d t IH]; [reflexivity|]. cbn. intros H.
  apply andb_true_iff in H as [Hd Ht]. rewrite (IH Ht), orb_false_r.
  rewrite Ascii.eqb_sym. now apply digit_is_not.
Qed.

(** A digit string is no word of the K002 pattern. *)
Lemma re_k002_digit (d : ascii) (t : pystr) :
  isdigit d = true -> re_match re_k002 (d :: t) = None.
Proof.
  intros Hd. unfold re_match, match_at, re_k002.
  cbn [seq]. unfold lits. change (str "K002") with ["K"; "0"; "0"; "2"]%char.
  cbn [map seq]. unfold lit at 1.
  cbn [exec m_prev m_rest]. now rewrite (@digit_is_not "K" d Hd eq_refl).
Qed.

(** The pattern of the numeric core reads a digit string as its core. *)
Lemma re_core_digits (w : pystr) :
  forallb isdigit w = true -> w <> [] ->
  exists m, re_match re_core w = Some m /\ group_str m 1 = w.
Proof.
  intros F N. destruct w as [|d ds]; [contradiction|].
  cbn [forallb] in F. apply andb_true_iff in F as [Fd F].
  unfold re_match, match_at, re_core. cbn [seq].
  unfold lazy_star, plus, digit.
  rewrite exec_cat, exec_bol. cbn [m_prev].
  rewrite exec_cat, exec_star, star_loop_S. cbv zeta.
  rewrite exec_grp, exec_cat, exec_cls. cbn [m_rest]. rewrite Fd.
  unfold advance. cbn [m_caps].
  match goal with |- context [exec (Star true (Cls isdigit)) _ ?k] =>
    pose proof (@exec_star_greedy_cls _ isdigit k [] [] I ds (Some d) F) as G end.
  rewrite app_nil_r in G. rewrite G by discriminate. clear G.
  unfold orelse, close_group. cbn [m_rest m_caps m_prev length].
  eexists. split; [reflexivity|].
  unfold group_str, group. cbn [mo_caps lookup Nat.eqb].
  rewrite Nat.sub_0_r. exact (firstn_all (d :: ds)).
Qed.

(** The pattern of the core with a suffix reads a digit string, a hyphen
    and two digits as its two groups. *)
Lemma re_core_suffix_digits (w : pystr) (a b : ascii) :
  forallb isdigit w = true -> w <> [] -> isdigit a = true -> isdigit b = true ->
  exists m, re_match re_core_suffix (w ++ ["-"%char; a; b]) = Some m /\
            group_str m 1 = w /\ group_str m 2 = ["-"%char; a; b].
Proof.
  intros F N Da Db. destruct w as [|d ds]; [contradiction|].
  cbn [forallb] in F. apply andb_true_iff in F as [Fd F].
  unfold re_match, match_at, re_core_suffix. cbn [seq].
  unfold lazy_star, plus, star, digit.
  rewrite exec_cat, exec_bol. cbn [m_prev].
  rewrite exec_cat, exec_star, star_loop_S. cbv zeta.
  rewrite exec_cat, exec_grp, exec_cat, exec_cls. cbn [m_rest app]. rewrite Fd.
  unfold advance. cbn [m_caps].
  match goal with |- context [exec (Star true (Cls isdigit)) _ ?k] => set (K := k) end.
  assert (KV : exists m,
    K {| m_prev := last_chr (Some d) ds; m_rest := ["-"%char; a; b]; m_caps := [] |}
    = Some m /\ group_str m 1 = d :: ds /\ group_str m 2 = ["-"%char; a; b]).
  { subst K. cbv beta.
    rewrite exec_cat, exec_grp, exec_cat. unfold lit.
    rewrite exec_cls. unfold close_group. cbn [m_rest m_caps m_prev].
    change (chr_eqb "-" "-") with true. cbv iota.
    unfold advance. cbn [m_rest m_caps m_prev].
    change (times 2 (Cls isdigit)) with (Cat (Cls isdigit) (Cls isdigit)).
    rewrite exec_cat, exec_cls. cbn [m_rest]. rewrite Da.
    rewrite exec_cls. unfold advance. cbn [m_rest m_caps m_prev].
    rewrite Db.
    rewrite exec_cat, exec_star, star_loop_S. cbv zeta.
    rewrite exec_cls. cbn [m_rest orelse].
    rewrite exec_eol. cbn [at_eol m_rest m_caps].
    eexists. split; [reflexivity|].
    unfold group_str, group. cbn [mo_caps lookup Nat.eqb length].
    rewrite length_app. cbn [length].
    replace (S (length ds + 3) - 3) with (S (length ds)) by lia.
    split; [|reflexivity].
    change (d :: ds ++ ["-"%char; a; b]) with ((d :: ds) ++ ["-"%char; a; b]).
    rewrite firstn_app. change (S (length ds)) with (length (d :: ds)).
    now rewrite firstn_all, Nat.sub_diag, app_nil_r. }
  destruct KV as (m & KV & G1 & G2).
  rewrite (@exec_star_greedy_cls _ isdigit K ["-"%char; a; b] [] eq_refl ds (Some d) F)
    by (rewrite KV; discriminate).
  rewrite KV. exists m. auto.
Qed.

Lemma normal_form_has_digit (n : pystr) :
  is_normal_form n -> existsb isdigit n = true.
Proof.
  intros (core & C & H). apply canonical_digits_inv in C as (F & N & _).
  assert (E : existsb isdigit core = true).
  { destruct core as [|c t]; [contradiction|]. cbn in F |- *.
    apply andb_true_iff in F as [-> _]. reflexivity. }
  destruct H as [-> | (a & b & _ & _ & ->)]; [exact E|].
  now rewrite existsb_app, E.
Qed.

Lemma normalize_normal_form (n : pystr) :
  is_normal_form n -> normalize_product_id n = n.
Proof.
  intros H. pose proof (@normal_form_has_digit n H) as D.
  destruct H as (core & C & H).
  pose proof (@strip_zeros_fixed core C) as Z.
  apply canonical_digits_inv in C as (F & N & _).
  unfold normalize_product_id. rewrite (has_digit_not_sentinel _ D).
  destruct H as [-> | (a & b & Da & Db & ->)].
  - unfold strip. rewrite (@strip_by_free isspace core (@digits_no_space core F)).
    rewrite (@digits_upper core F).
    destruct core as [|d ds] eqn:Ec; [contradiction|].
    cbn [forallb] in F. apply andb_true_iff in F as [Fd Fds].
    rewrite (@re_k002_digit d ds Fd). rewrite <- Ec in *.
    rewrite (re_match_needs (fun x => chr_eqb x "-") re_core_suffix);
      [| reflexivity | apply digits_free_of; [reflexivity | subst; cbn; now rewrite Fd]].
    destruct (@re_core_digits core) as (m & -> & G); [subst; cbn; now rewrite Fd | subst; discriminate |].
    now rewrite G.
  - assert (Fall : forallb (fun c => isdigit c || chr_eqb c "-") (core ++ ["-"%char; a; b]) = true).
    { rewrite forallb_app. cbn. rewrite Da, Db. cbn. rewrite andb_true_r.
      clear - F. induction core as [|c t IH]; [reflexivity|]. cbn in *.
      apply andb_true_iff in F as [-> F]. now apply IH. }
    assert (Sp : existsb isspace (core ++ ["-"%char; a; b]) = false).
    { clear - Fall. induction (core ++ ["-"%char; a; b]) as [|c t IH]; [reflexivity|].
      cbn in *. apply andb_true_iff in Fall as [Hc Ht]. rewrite (IH Ht), orb_false_r.
      destruct c as [[] [] [] [] [] [] [] []]; try discriminate Hc; reflexivity. }
    assert (Up : upper (core ++ ["-"%char; a; b]) = core ++ ["-"%char; a; b]).
    { clear - Fall. induction (core ++ ["-"%char; a; b]) as [|c t IH]; [reflexivity|].
      cbn in *. apply andb_true_iff in Fall as [Hc Ht]. fold (upper t).
      rewrite (IH Ht). f_equal.
      destruct c as [[] [] [] [] [] [] [] []]; try discriminate Hc; reflexivity. }
    unfold strip. rewrite (@strip_by_free isspace _ Sp), Up.
    destruct core as [|d ds] eqn:Ec; [contradiction|].
    cbn [forallb] in F. apply andb_true_iff in F as [Fd Fds].
    cbn [app]. rewrite (@re_k002_digit d _ Fd).
    change (d :: ds ++ ["-"%char; a; b]) with ((d :: ds) ++ ["-"%char; a; b]).
    rewrite <- Ec in *.
    destruct (@re_core_suffix_digits core a b) as (m & -> & G1 & G2);
      [subst; cbn; now rewrite Fd | subst; discriminate | exact Da | exact Db |].
    now rewrite G1, G2, Z.
Qed.

(** An id without digit, the sentinel apart, is only cleaned. *)
Lemma normalize_digit_free (s : pystr) :
  existsb isdigit s = false -> s <> str "N/A" ->
  normalize_product_id s = upper (strip s).
Proof.
  intros D NA. unfold normalize_product_id.
  destruct s as [|c t]; [reflexivity|].
  cbn [truthy negb orb]. apply eqb_neq in NA. rewrite NA.
  pose proof (@cleaned_digit_free _ D) as C.
  rewrite (@re_match_needs isdigit re_k002) by (exact C || reflexivity).
  rewrite (@re_match_needs isdigit re_core_suffix) by (exact C || reflexivity).
  rewrite (@re_match_needs isdigit re_core) by (exact C || reflexivity).
  rewrite (@findall_needs isdigit re_digits) by (exact C || reflexivity).
  reflexivity.
Qed.

Lemma normal_form_not_empty (n : pystr) : is_normal_form n -> n <> [].
Proof.
  intros H E. apply normal_form_has_digit in H. rewrite E in H. discriminate.
Qed.

Lemma strip_empty_no_digit (s : pystr) : strip s = [] -> existsb isdigit s = false.
Proof.
  intros H. rewrite <- existsb_isdigit_cleaned, H. reflexivity.
Qed.

(** X1: normalize_product_id gives a normal form for every id that has a digit:
    a digit string without leading zeros, alone or followed by a hyphen and
    two digits. *)
Theorem normalize_product_id_normal_form (product_id : pystr) :
  existsb isdigit product_id = true ->
  exists core,
    canonical_digits core = true /\
    (normalize_product_id product_id = core \/
     exists a b, isdigit a = true /\ isdigit b = true /\
                 normalize_product_id product_id = core ++ ["-"%char; a; b]).
Proof. exact (@normalize_product_id_shape product_id). Qed.

Lemma normalize_product_id_normal_form_witness :
  exists core,
    canonical_digits core = true /\
    (normalize_product_id (str " tys-0042-07b ") = core \/
     exists a b, isdigit a = true /\ isdigit b = true /\
                 normalize_product_id (str " tys-0042-07b ") = core ++ ["-"%char; a; b]).
Proof.
  apply (@normalize_product_id_normal_form (str " tys-0042-07b ")).
  reflexivity.
Defined.

Lemma normalize_empty_iff (product_id : pystr) :
  normalize_product_id product_id = [] <->
  strip product_id = [] \/ product_id = str "N/A".
Proof.
  split.
  - intros H. destruct (existsb isdigit product_id) eqn:D.
    + exfalso. apply (@normal_form_not_empty (normalize_product_id product_id)); [|exact H].
      now apply normalize_product_id_shape.
    + destruct (eqb product_id (str "N/A")) eqn:E.
      * right. now apply eqb_eq.
      * left. apply eqb_neq in E. rewrite (normalize_digit_free D E) in H.
        unfold upper in H. now apply map_eq_nil in H.
  - intros [H | ->]; [|reflexivity].
    assert (NA : product_id <> str "N/A") by (intros ->; discriminate).
    rewrite (normalize_digit_free (strip_empty_no_digit _ H) NA), H. reflexivity.
Qed.


(** ** Cleaning twice *)

Lemma lstrip_by_idem (p : ascii -> bool) (s : pystr) :
  lstrip_by p (lstrip_by p s) = lstrip_by p s.
Proof.
  induction s as [|c t IH]; [reflexivity|]. cbn [lstrip_by].
  destruct (p c) eqn:Pc; [exact IH|]. cbn [lstrip_by]. now rewrite Pc.
Qed.

Lemma rstrip_by_idem (p : ascii -> bool) (s : pystr) :
  rstrip_by p (rstrip_by p s) = rstrip_by p s.
Proof.
  induction s as [|c t IH]; [reflexivity|]. cbn [rstrip_by].
  destruct (rstrip_by p t) as [|a l] eqn:R.
  - destruct (p c) eqn:Pc; [reflexivity|]. cbn [rstrip_by]. now rewrite Pc.
  - change (rstrip_by p (c :: a :: l)) with
      (match rstrip_by p (a :: l) with [] => if p c then [] else [c] | t' => c :: t' end).
    now rewrite IH.
Qed.

Lemma strip_by_commute (p : ascii -> bool) (s : pystr) :
  lstrip_by p (rstrip_by p s) = rstrip_by p (lstrip_by p s).
Proof.
  induction s as [|c t IH]; [reflexivity|].
  destruct (p c) eqn:Pc.
  - cbn [lstrip_by rstrip_by]. rewrite Pc.
    destruct (rstrip_by p t) as [|a l] eqn:R.
    + now rewrite <- IH.
    + cbn [lstrip_by]. rewrite Pc. exact IH.
  - rewrite rstrip_by_keep by exact Pc. cbn [lstrip_by]. rewrite Pc.
    now rewrite rstrip_by_keep by exact Pc.
Qed.

Lemma strip_idem (s : pystr) : strip (strip s) = strip s.
Proof.
  unfold strip, strip_by.
  now rewrite strip_by_commute, rstrip_by_idem, lstrip_by_idem.
Qed.

Lemma isspace_upper_chr (c : ascii) : isspace (upper_chr c) = isspace c.
Proof. destruct c as [[] [] [] [] [] [] [] []]; reflexivity. Qed.

Lemma upper_chr_idem (c : ascii) : upper_chr (upper_chr c) = upper_chr c.
Proof. destruct c as [[] [] [] [] [] [] [] []]; reflexivity. Qed.

Lemma upper_idem (s : pystr) : upper (upper s) = upper s.
Proof.
  unfold upper. rewrite map_map. apply map_ext. exact upper_chr_idem.
Qed.

Lemma lstrip_upper (s : pystr) :
  lstrip_by isspace (upper s) = upper (lstrip_by isspace s).
Proof.
  induction s as [|c t IH]; [reflexivity|].
  cbn [upper map lstrip_by]. rewrite isspace_upper_chr.
  destruct (isspace c); [exact IH | reflexivity].
Qed.

Lemma rstrip_upper (s : pystr) :
  rstrip_by isspace (upper s) = upper (rstrip_by isspace s).
Proof.
  induction s as [|c t IH]; [reflexivity|].
  cbn [upper map rstrip_by]. fold (upper t). rewrite IH, isspace_upper_chr.
  destruct (rstrip_by isspace t); cbn [upper map]; [destruct (isspace c)|]; reflexivity.
Qed.

Lemma strip_upper (s : pystr) : strip (upper s) = upper (strip s).
Proof. unfold strip, strip_by. now rewrite lstrip_upper, rstrip_upper. Qed.

Lemma cleaned_idem (s : pystr) :
  upper (strip (upper (strip s))) = upper (strip s).
Proof. now rewrite strip_upper, strip_idem, upper_idem. Qed.



(** X4: two ids that are equal up to case and surrounding blanks have the
    same normal form, when neither is the sentinel "N/A" as written. *)
Theorem normalize_product_id_case_and_blanks (a b : pystr) :
  upper (strip a) = upper (strip b) ->
  a <> str "N/A" -> b <> str "N/A" ->
  normalize_product_id a = normalize_product_id b.
Proof.
  intros E Na Nb.
  destruct (existsb isdigit a) eqn:Da.
  - assert (Db : existsb isdigit b = true)
      by now rewrite <- existsb_isdigit_cleaned, <- E, existsb_isdigit_cleaned.
    unfold normalize_product_id.
    rewrite (has_digit_not_sentinel _ Da), (has_digit_not_sentinel _ Db), E.
    reflexivity.
  - assert (Db : existsb isdigit b = false)
      by now rewrite <- existsb_isdigit_cleaned, <- E, existsb_isdigit_cleaned.
    now rewrite (normalize_digit_free Da Na), (normalize_digit_free Db Nb).
Qed.

Lemma normalize_product_id_case_and_blanks_witness :
  normalize_product_id (str " z156171b ") = normalize_product_id (str "Z156171B").
Proof.
  apply (@normalize_product_id_case_and_blanks (str " z156171b ") (str "Z156171B")).
  - reflexivity.
  - discriminate.
  - discriminate.
Defined.

(** ** The sort of the candidates *)

Lemma insert_by_perm {A K} (lt : K -> K -> bool) (key : A -> K) (x : A) (l : list A) :
  Permutation (insert_by lt key x l) (x :: l).
Proof.
  induction l as [|y t IH]; cbn [insert_by]; [reflexivity|].
  destruct (lt (key y) (key x)); [|reflexivity].
  rewrite IH. apply perm_swap.
Qed.

Lemma sorted_by_perm {A K} (lt : K -> K -> bool) (key : A -> K) (l : list A) :
  Permutation (sorted_by lt key l) l.
Proof.
  induction l as [|x t IH]; cbn [sorted_by]; [reflexivity|].
  rewrite insert_by_perm. now apply perm_skip.
Qed.

Lemma filter_perm {A} (f : A -> bool) (l l' : list A) :
  Permutation l l' -> Permutation (filter f l) (filter f l').
Proof.
  induction 1; cbn [filter].
  - reflexivity.
  - destruct (f x); [now apply perm_skip | assumption].
  - destruct (f x), (f y); try reflexivity. apply perm_swap.
  - etransitivity; eassumption.
Qed.

Lemma score_ltb_first (a b : Product) :
  (score_ltb (score_of a) (score_of b) = true -> has_extra_suffix a <= has_extra_suffix b) /\
  (score_ltb (score_of a) (score_of b) = false -> has_extra_suffix b <= has_extra_suffix a).
Proof.
  unfold has_extra_suffix, score_of.
  destruct (complexity_score (product_id a)) as [[[a1 a2] a3] a4].
  destruct (complexity_score (product_id b)) as [[[b1 b2] b3] b4].
  unfold score_ltb.
  destruct (a1 <? b1) eqn:L1; [apply Nat.ltb_lt in L1; split; [lia | discriminate]|].
  apply Nat.ltb_ge in L1.
  destruct (b1 <? a1) eqn:L2; [apply Nat.ltb_lt in L2; split; [discriminate | lia]|].
  apply Nat.ltb_ge in L2. split; lia.
Qed.

(** The head of the sorted candidates has the least first component. *)
Lemma sorted_by_head_min (l : list Product) (x : Product) (others : list Product) :
  sorted_by score_ltb score_of l = x :: others ->
  forall y, In y others -> has_extra_suffix x <= has_extra_suffix y.
Proof.
  revert x others. induction l as [|a t IH]; intros x others E; [discriminate|].
  cbn [sorted_by] in E.
  destruct (sorted_by score_ltb score_of t) as [|b s] eqn:S.
  - cbn in E. injection E as <- <-. intros y [].
  - specialize (IH b s eq_refl). cbn [insert_by] in E.
    destruct (score_ltb (score_of b) (score_of a)) eqn:L.
    + injection E as <- <-. intros y Hy.
      apply insert_by_In in Hy as [-> | Hy]; [|now apply IH].
      now apply (proj1 (score_ltb_first b a)).
    + injection E as <- <-. intros y [<- | Hy].
      * now apply (proj2 (score_ltb_first b a)).
      * apply (proj2 (score_ltb_first b a)) in L. specialize (IH y Hy). lia.
Qed.

Lemma has_extra_suffix_01 (p : Product) : has_extra_suffix p = 0 \/ has_extra_suffix p = 1.
Proof.
  unfold has_extra_suffix, complexity_score.
  destruct (is_some _); [now right|]. destruct (is_some _); [now right | now left].
Qed.

(** The clear winner is the only candidate without extra suffix. *)
Lemma clear_winner_unique_plain (l : list Product) :
  clear_winner l = match filter plain l with [p] => Some p | _ => None end.
Proof.
  unfold clear_winner. fold score_of.
  pose proof (filter_perm plain (sorted_by_perm score_ltb score_of l)) as P.
  destruct (sorted_by score_ltb score_of l) as [|x others] eqn:S.
  - cbn in P. apply Permutation_nil in P. now rewrite P.
  - pose proof (@sorted_by_head_min l x others S) as M.
    cbn [filter] in P. fold (plain x). unfold plain at 1 in P. unfold plain at 1.
    destruct (has_extra_suffix x =? 0) eqn:H0.
    + fold plain.
      destruct (filter plain others) as [|o os] eqn:F.
      * apply Permutation_length_1_inv in P. now rewrite P.
      * destruct (filter plain l) as [|f1 [|f2 fs]] eqn:Fl.
        -- symmetry in P. now apply Permutation_nil in P.
        -- apply Permutation_length in P. discriminate.
        -- reflexivity.
    + assert (N : filter plain others = []).
      { apply Nat.eqb_neq in H0.
        clear - M H0. induction others as [|o os IH]; [reflexivity|].
        cbn [filter]. unfold plain at 1.
        assert (has_extra_suffix o <> 0) by (specialize (M o (or_introl eq_refl)); lia).
        apply Nat.eqb_neq in H. rewrite H. apply IH.
        intros y Hy. apply M. now right. }
      rewrite N in P. apply Permutation_nil in P. now rewrite P.
Qed.

Lemma mem_upper_ids (x : pystr) (l : list Product) :
  mem x (map (fun p => upper (product_id p)) l) = true ->
  exists p, In p l /\ upper (product_id p) = x.
Proof.
  unfold mem. intros H. apply existsb_exists in H as (y & Hy & E).
  apply in_map_iff in Hy as (p & <- & Hp). apply eqb_eq in E.
  exists p. auto.
Qed.

Lemma no_kruse_special_cases (l : list Product) :
  no_kruse l ->
  kruse01_over_cg00001 l = None /\ kruse_over_cg l = None /\ kruse5_and_kruse05 l = false.
Proof.
  intros N. repeat split.
  - unfold kruse01_over_cg00001.
    destruct (mem (str "KRUSE01") _) eqn:M; [|reflexivity].
    apply mem_upper_ids in M as (p & Hp & E). apply N in Hp. rewrite E in Hp. discriminate.
  - unfold kruse_over_cg.
    assert (F : filter (fun p => startswith (upper (product_id p)) (str "KRUSE")) l = []).
    { clear - N. induction l as [|a t IH]; [reflexivity|]. cbn [filter].
      rewrite (N a (or_introl eq_refl)). apply IH. intros p Hp. apply N. now right. }
    rewrite F. reflexivity.
  - unfold kruse5_and_kruse05.
    destruct (mem (str "KRUSE5") _) eqn:M; [|reflexivity].
    apply mem_upper_ids in M as (p & Hp & E). apply N in Hp. rewrite E in Hp. discriminate.
Qed.

(** X5: among two or more candidates, none of them a Kruse product,
    select_simplest_product_id returns a candidate exactly when one
    candidate alone has no extra suffix, and returns that one, wherever it
    stands in the list. *)
Theorem select_simplest_product_id_unique_plain (matching_products : list Product) :
  2 <= length matching_products ->
  no_kruse matching_products ->
  select_simplest_product_id matching_products
  = match filter plain matching_products with
    | [p] => Some p
    | _ => None
    end.
Proof.
  intros L N. destruct (no_kruse_special_cases N) as (K1 & K2 & K3).
  unfold select_simplest_product_id.
  destruct matching_products as [|a [|b t]]; [cbn in L; lia | cbn in L; lia |].
  rewrite K1, K2, K3. apply clear_winner_unique_plain.
Qed.

Lemma select_simplest_product_id_unique_plain_witness :
  let entry (id : pystr) := {| product_id := id; description := [] |} in
  select_simplest_product_id
    [entry (str "K002019-01FZ"); entry (str "K002019-01"); entry (str "K002019-01-SP")]
  = Some (entry (str "K002019-01")).
Proof.
  intros entry.
  apply (@select_simplest_product_id_unique_plain
           [entry (str "K002019-01FZ"); entry (str "K002019-01");
            entry (str "K002019-01-SP")]).
  - cbn. lia.
  - intros p [<- | [<- | [<- | []]]]; reflexivity.
Defined.

(** X6: what select_simplest_product_id returns is one of the candidates
    it was given. *)
Theorem select_simplest_product_id_is_candidate
    (matching_products : list Product) (chosen : Product) :
  select_simplest_product_id matching_products = Some chosen ->
  In chosen matching_products.
Proof. apply select_simplest_product_id_In. Qed.

Lemma select_simplest_product_id_is_candidate_witness :
  let entry (id : pystr) := {| product_id := id; description := [] |} in
  In (entry (str "Kruse01")) [entry (str "CG00001"); entry (str "Kruse01")].
Proof.
  intros entry.
  apply (@select_simplest_product_id_is_candidate
           [entry (str "CG00001"); entry (str "Kruse01")] (entry (str "Kruse01"))).
  reflexivity.
Defined.

Lemma absent_route (extracted_id : pystr) :
  negb (truthy (normalize_product_id extracted_id)) || eqb extracted_id (str "N/A") = true
  <-> absent_id extracted_id.
Proof.
  unfold absent_id. rewrite <- normalize_empty_iff. split.
  - intros H. apply orb_true_iff in H as [H | H].
    + destruct (normalize_product_id extracted_id); [reflexivity | discriminate].
    + apply eqb_eq in H. subst. reflexivity.
  - intros ->. reflexivity.
Qed.

(** X7: without AI fallback match_product_by_id calls nothing and returns a
    result that either names no entry, with confidence 0.0, or names an
    entry of the catalog whose normal form is the one of the extracted id
    (or that one followed by "-01"), with confidence 1.0 or 0.9 and the
    description of that entry. *)
Theorem match_product_by_id_without_fallback
    (env : Env) (extracted_product : Extracted) (reference_database : list Product)
    (confidence_threshold : float_lit) :
  let n := normalize_product_id (get_or_na (e_product_id extracted_product)) in
  exists result,
    match_product_by_id env extracted_product reference_database
                        confidence_threshold false
    = ([], Ok result) /\
    (unmatched result \/
     exists p, In p reference_database /\ same_normal_form n (product_id p) /\
               (matched_to p "1.0" result \/ matched_to p "0.9" result)).
Proof.
  cbv zeta. unfold match_product_by_id.
  destruct reference_database as [|q db].
  { eexists. split; [reflexivity|]. left. repeat split. }
  set (id := get_or_na (e_product_id extracted_product)).
  set (n := normalize_product_id id).
  destruct (negb (truthy n) || eqb id (str "N/A")).
  { eexists. split; [reflexivity|]. left. repeat split. }
  assert (J : forall p, In p (matching_products_of n (q :: db)) ->
                        In p (q :: db) /\ same_normal_form n (product_id p)).
  { intros p Hp. apply matching_products_of_In in Hp as [Hin [E | E]].
    - split; [exact Hin|]. left. now symmetry.
    - split; [exact Hin|]. right. now symmetry. }
  destruct (matching_products_of n (q :: db)) as [|m1 [|m2 ms]] eqn:M.
  - eexists. split; [reflexivity|]. left. repeat split.
  - eexists. split; [reflexivity|]. right. exists m1.
    destruct (J m1 (or_introl eq_refl)) as [J1 J2].
    split; [exact J1|]. split; [exact J2|]. left. repeat split.
  - destruct (select_simplest_product_id (m1 :: m2 :: ms)) as [w|] eqn:S.
    + eexists. split; [reflexivity|]. right. exists w.
      apply select_simplest_product_id_In in S.
      destruct (J w S) as [J1 J2].
      split; [exact J1|]. split; [exact J2|]. left. repeat split.
    + rewrite andb_false_r.
      eexists. split; [reflexivity|]. right. exists m1.
      destruct (J m1 (or_introl eq_refl)) as [J1 J2].
      split; [exact J1|]. split; [exact J2|]. right. repeat split.
Qed.


(** X9: without AI fallback, two records whose ids have the same normal
    form, neither being the sentinel as written, are matched to the same
    entry with the same confidence: the deterministic matcher sees the
    extracted id only through its normal form. *)
Theorem match_product_by_id_by_normal_form
    (env : Env) (first second : Extracted) (reference_database : list Product)
    (confidence_threshold : float_lit) :
  let id1 := get_or_na (e_product_id first) in
  let id2 := get_or_na (e_product_id second) in
  normalize_product_id id1 = normalize_product_id id2 ->
  id1 <> str "N/A" -> id2 <> str "N/A" ->
  exists r1 r2,
    match_product_by_id env first reference_database confidence_threshold false
    = ([], Ok r1) /\
    match_product_by_id env second reference_database confidence_threshold false
    = ([], Ok r2) /\
    matched_id r1 = matched_id r2 /\ confidence r1 = confidence r2 /\
    matched_description r1 = matched_description r2.
Proof.
  cbv zeta. intros E N1 N2. unfold match_product_by_id.
  destruct reference_database as [|q db]; [do 2 eexists; repeat split|].
  rewrite <- E. apply eqb_neq in N1, N2. rewrite N1, N2, !orb_false_r.
  set (n := normalize_product_id (get_or_na (e_product_id first))).
  destruct (negb (truthy n)); [do 2 eexists; repeat split|].
  destruct (matching_products_of n (q :: db)) as [|m1 [|m2 ms]];
    [do 2 eexists; repeat split | do 2 eexists; repeat split |].
  destruct (select_simplest_product_id (m1 :: m2 :: ms));
    [do 2 eexists; repeat split|].
  rewrite andb_false_r. do 2 eexists; repeat split.
Qed.

Lemma match_product_by_id_by_normal_form_witness :
  let db := [ {| product_id := str "Z156171"; description := str "PORK LOIN" |};
              {| product_id := str "Z75880"; description := str "GROUND BEEF" |} ] in
  let record (id : pystr) := {| e_product_id := Some id; e_description := None |} in
  exists r1 r2,
    match_product_by_id offline (record (str "156171B")) db (str "0.8") false
    = ([], Ok r1) /\
    match_product_by_id offline (record (str " g00156171 ")) db (str "0.8") false
    = ([], Ok r2) /\
    matched_id r1 = matched_id r2 /\ confidence r1 = confidence r2 /\
    matched_description r1 = matched_description r2.
Proof.
  intros db record.
  apply (@match_product_by_id_by_normal_form offline (record (str "156171B"))
           (record (str " g00156171 ")) db (str "0.8")).
  - vm_compute. reflexivity.
  - discriminate.
  - discriminate.
Defined.


(** [json.loads] raises nothing but its decoding error. *)
Lemma json_loads_raises (s : pystr) (e : exn) :
  json_loads s = Raise e -> exists msg, e = JSONDecodeError msg.
Proof.
  unfold json_loads. destruct (scan_once _ _) as [[v r]|].
  - destruct (skip_ws r); [discriminate|]. intros [= <-]. eauto.
  - intros [= <-]. eauto.
Qed.


(** ** Words read by the patterns without group *)

Lemma mstate_eq (a b : mstate) :
  m_prev a = m_prev b -> m_rest a = m_rest b -> m_caps a = m_caps b -> a = b.
Proof. destruct a, b. cbn. now intros -> -> ->. Qed.

Lemma app_same_length_tail {T} (w t : list T) : t = w ++ t -> w = [].
Proof.
  intros H. apply (f_equal (@length T)) in H. rewrite length_app in H.
  destruct w; [reflexivity | cbn in H; lia].
Qed.

Lemma reads_nil (st st' : mstate) : reads [] st st' <-> st' = st.
Proof.
  unfold reads. split.
  - intros (R & P & C). apply mstate_eq; auto.
  - intros ->. auto.
Qed.

Lemma last_chr_app (prev : option ascii) (u v : pystr) :
  last_chr prev (u ++ v) = last_chr (last_chr prev u) v.
Proof.
  revert prev. induction u as [|c u IH]; intros prev; [reflexivity|].
  cbn [app]. now rewrite !last_chr_cons, IH.
Qed.

Lemma reads_app (u v : pystr) (st st1 st2 : mstate) :
  reads u st st1 -> reads v st1 st2 -> reads (u ++ v) st st2.
Proof.
  intros (R1 & P1 & C1) (R2 & P2 & C2). repeat split.
  - now rewrite R1, R2, app_assoc.
  - now rewrite last_chr_app, <- P1.
  - congruence.
Qed.

(** The position after the prefix [u] of a word that is read. *)
Lemma reads_split (u v : pystr) (st st2 : mstate) :
  reads (u ++ v) st st2 ->
  exists st1, reads u st st1 /\ reads v st1 st2.
Proof.
  intros (R & P & C).
  exists {| m_prev := last_chr (m_prev st) u; m_rest := v ++ m_rest st2;
            m_caps := m_caps st |}.
  split; repeat split; cbn [m_rest m_prev m_caps].
  - now rewrite R, app_assoc.
  - now rewrite P, last_chr_app.
  - exact C.
Qed.

Lemma steps_cls_iff (p : ascii -> bool) (st st' : mstate) :
  steps (Cls p) st st' <-> exists c, p c = true /\ reads [c] st st'.
Proof.
  split.
  - inversion 1; subst. exists c. split; [assumption|]. repeat split; assumption.
  - intros (c & Pc & R & P & C).
    replace st' with (advance c (m_rest st') st); [now constructor|].
    apply mstate_eq; cbn; auto.
Qed.

Lemma steps_cat_iff (r1 r2 : regex) (st st' : mstate) :
  steps (Cat r1 r2) st st' <-> exists st1, steps r1 st st1 /\ steps r2 st1 st'.
Proof.
  split.
  - inversion 1; subst. eauto.
  - intros (st1 & H1 & H2). econstructor; eassumption.
Qed.

Lemma steps_alt_iff (r1 r2 : regex) (st st' : mstate) :
  steps (Alt r1 r2) st st' <-> steps r1 st st' \/ steps r2 st st'.
Proof.
  split.
  - inversion 1; subst; auto.
  - intros [H | H]; [now apply S_alt_l | now apply S_alt_r].
Qed.

Lemma steps_eps_iff (st st' : mstate) : steps Eps st st' <-> st' = st.
Proof. split; [inversion 1; reflexivity | intros ->; constructor]. Qed.

Lemma steps_bol_iff (st st' : mstate) :
  steps Bol st st' <-> st' = st /\ m_prev st = None.
Proof. split; [inversion 1; auto | intros [-> H]; now constructor]. Qed.

Lemma steps_eol_iff (st st' : mstate) :
  steps Eol st st' <-> st' = st /\ at_eol st = true.
Proof. split; [inversion 1; auto | intros [-> H]; now constructor]. Qed.

Lemma steps_wordb_iff (st st' : mstate) :
  steps WordB st st' <-> st' = st /\ at_wordb st = true.
Proof. split; [inversion 1; auto | intros [-> H]; now constructor]. Qed.

Lemma steps_grp_iff (n : nat) (r : regex) (st st' : mstate) :
  steps (Grp n r) st st' <-> exists st1, steps r st st1 /\ st' = close_group n st st1.
Proof.
  split.
  - inversion 1; subst. eauto.
  - intros (st1 & H & ->). now constructor.
Qed.

(** r{n} on a class *)
Lemma steps_times_cls (p : ascii -> bool) (n : nat) : forall st st',
  steps (times n (Cls p)) st st' <->
  exists w, length w = n /\ forallb p w = true /\ reads w st st'.
Proof.
  induction n as [|n IH]; intros st st'.
  - cbn [times]. rewrite steps_eps_iff. split.
    + intros ->. exists []. repeat split.
    + intros (w & L & _ & R). destruct w; [|discriminate]. now apply reads_nil.
  - destruct n as [|n].
    + cbn [times]. rewrite steps_cls_iff. split.
      * intros (c & Pc & R). exists [c]. cbn. rewrite Pc.
        split; [reflexivity|]. split; [reflexivity | exact R].
      * intros (w & L & F & R). destruct w as [|c [|]]; try discriminate.
        exists c. cbn in F. rewrite andb_true_r in F. split; assumption.
    + change (times (S (S n)) (Cls p)) with (Cat (Cls p) (times (S n) (Cls p))).
      rewrite steps_cat_iff. split.
      * intros (st1 & H1 & H2). apply steps_cls_iff in H1 as (c & Pc & R1).
        apply IH in H2 as (w & L & F & R2).
        exists (c :: w). cbn. rewrite Pc, F, L.
        split; [reflexivity|]. split; [reflexivity|]. exact (reads_app R1 R2).
      * intros (w & L & F & R). destruct w as [|c w]; [discriminate|].
        cbn in F. apply andb_true_iff in F as [Pc F]. injection L as L.
        change (c :: w) with ([c] ++ w) in R.
        apply reads_split in R as (st1 & R1 & R2).
        exists st1. split.
        -- apply steps_cls_iff. eauto.
        -- apply IH. eauto.
Qed.

(** r{0,n} on a class *)
Lemma steps_upto_cls (p : ascii -> bool) (n : nat) : forall st st',
  steps (upto n (Cls p)) st st' <->
  exists w, length w <= n /\ forallb p w = true /\ reads w st st'.
Proof.
  induction n as [|n IH]; intros st st'.
  - cbn [upto]. rewrite steps_eps_iff. split.
    + intros ->. exists []. repeat split. cbn. lia.
    + intros (w & L & _ & R). destruct w; [|cbn in L; lia]. now apply reads_nil.
  - cbn [upto]. unfold opt. rewrite steps_alt_iff, steps_cat_iff, steps_eps_iff. split.
    + intros [(st1 & H1 & H2) | ->].
      * apply steps_cls_iff in H1 as (c & Pc & R1).
        apply IH in H2 as (w & L & F & R2).
        exists (c :: w). cbn. rewrite Pc, F.
        split; [lia|]. split; [reflexivity|]. exact (reads_app R1 R2).
      * exists []. repeat split. cbn. lia.
    + intros (w & L & F & R). destruct w as [|c w].
      * right. now apply reads_nil.
      * left. cbn in F. apply andb_true_iff in F as [Pc F]. cbn in L.
        change (c :: w) with ([c] ++ w) in R.
        apply reads_split in R as (st1 & R1 & R2).
        exists st1. split.
        -- apply steps_cls_iff. eauto.
        -- apply IH. exists w. split; [lia|]. split; assumption.
Qed.

(** r{lo,hi} on a class *)
Lemma steps_between_cls (p : ascii -> bool) (lo hi : nat) (st st' : mstate) :
  lo <= hi ->
  steps (between lo hi (Cls p)) st st' <->
  exists w, lo <= length w <= hi /\ forallb p w = true /\ reads w st st'.
Proof.
  intros Hle. unfold between. destruct lo as [|lo].
  - rewrite steps_upto_cls.
    split; intros (w & L & F & R); exists w; (split; [lia|]); split; assumption.
  - rewrite steps_cat_iff. split.
    + intros (st1 & H1 & H2).
      apply steps_times_cls in H1 as (u & Lu & Fu & Ru).
      apply steps_upto_cls in H2 as (v & Lv & Fv & Rv).
      exists (u ++ v). rewrite length_app, forallb_app, Fu, Fv.
      split; [lia|]. split; [reflexivity|]. exact (reads_app Ru Rv).
    + intros (w & L & F & R).
      rewrite <- (firstn_skipn (S lo) w) in R, F.
      rewrite forallb_app in F. apply andb_true_iff in F as [Fu Fv].
      apply reads_split in R as (st1 & Ru & Rv).
      exists st1. split.
      * apply steps_times_cls. exists (firstn (S lo) w).
        rewrite firstn_length_le by lia. split; [reflexivity|]. split; assumption.
      * apply steps_upto_cls. exists (skipn (S lo) w).
        rewrite length_skipn. split; [lia|]. split; assumption.
Qed.

(** r* and r+ on a class *)
Lemma steps_star_cls (p : ascii -> bool) (g : bool) (st st' : mstate) :
  steps (Star g (Cls p)) st st' <->
  exists w, forallb p w = true /\ reads w st st'.
Proof.
  split.
  - remember (Star g (Cls p)) as r eqn:E. induction 1; try discriminate.
    + exists []. split; [reflexivity | now apply reads_nil].
    + injection E as -> ->. apply steps_cls_iff in H as (c & Pc & R1).
      destruct (IHsteps2 eq_refl) as (w & F & R2).
      exists (c :: w). cbn. rewrite Pc, F. split; [reflexivity|].
      exact (reads_app R1 R2).
  - intros (w & F & R). revert st R. induction w as [|c w IH]; intros st R.
    + apply reads_nil in R. subst. constructor.
    + cbn in F. apply andb_true_iff in F as [Pc F].
      change (c :: w) with ([c] ++ w) in R.
      apply reads_split in R as (st1 & R1 & R2).
      eapply S_star_cons.
      * apply steps_cls_iff. eauto.
      * destruct R1 as (R1 & _). rewrite R1. cbn. lia.
      * now apply IH.
Qed.

Lemma steps_plus_cls (p : ascii -> bool) (st st' : mstate) :
  steps (plus (Cls p)) st st' <->
  exists w, w <> [] /\ forallb p w = true /\ reads w st st'.
Proof.
  unfold plus. rewrite steps_cat_iff. split.
  - intros (st1 & H1 & H2). apply steps_cls_iff in H1 as (c & Pc & R1).
    apply steps_star_cls in H2 as (w & F & R2).
    exists (c :: w). cbn. rewrite Pc, F.
    split; [discriminate|]. split; [reflexivity|]. exact (reads_app R1 R2).
  - intros (w & N & F & R). destruct w as [|c w]; [contradiction|].
    cbn in F. apply andb_true_iff in F as [Pc F].
    change (c :: w) with ([c] ++ w) in R.
    apply reads_split in R as (st1 & R1 & R2).
    exists st1. split; [apply steps_cls_iff | apply steps_star_cls]; eauto.
Qed.

(** A match at the start of the subject, seen from the pattern. *)
Lemma re_match_iff (r : regex) (s : pystr) :
  is_some (re_match r s) = true <->
  exists st', steps r {| m_prev := None; m_rest := s; m_caps := [] |} st'.
Proof.
  unfold re_match, match_at. split.
  - destruct (exec r _ _) eqn:E; [|discriminate]. intros _.
    apply exec_sound in E as (st' & S & _). eauto.
  - intros (st' & S).
    destruct (exec r _ _) eqn:E; [reflexivity|].
    exfalso. eapply exec_complete; [exact S | | exact E]. discriminate.
Qed.

Lemma span_spec (p : ascii -> bool) (s : pystr) :
  forall a b, span p s = (a, b) -> s = a ++ b /\ forallb p a = true /\ stops p b.
Proof.
  induction s as [|c t IH]; intros a b H; cbn [span] in H.
  - injection H as <- <-. repeat split.
  - destruct (p c) eqn:Pc.
    + destruct (span p t) as [a' b']. injection H as <- <-.
      destruct (IH a' b' eq_refl) as (-> & F & S). cbn. rewrite Pc, F. auto.
    + injection H as <- <-. cbn. auto.
Qed.

Lemma re_match_sound (r : regex) (s : pystr) (m : match_obj) :
  re_match r s = Some m ->
  exists st', steps r {| m_prev := None; m_rest := s; m_caps := [] |} st' /\
              mo_caps m = m_caps st' /\ mo_after m = m_rest st'.
Proof.
  unfold re_match, match_at. intros H.
  apply exec_sound in H as (st' & S & K). injection K as <-.
  exists st'. auto.
Qed.

Lemma last_chr_class (p : ascii -> bool) (prev : option ascii) (w : pystr) :
  w <> [] -> forallb p w = true -> exists c, last_chr prev w = Some c /\ p c = true.
Proof.
  revert prev. induction w as [|a w IH]; intros prev N F; [contradiction|].
  cbn in F. apply andb_true_iff in F as [Pa F]. rewrite last_chr_cons.
  destruct w as [|b w].
  - exists a. auto.
  - apply IH; [discriminate | exact F].
Qed.

(** ** RW Zant: the leading digits *)

Lemma rw_zant_leading_digits (t digits rest : pystr) :
  span isdigit t = (digits, rest) ->
  match digits with
  | [] => re_match RWZantParser.re_leading_digits t = None
  | _ :: _ => exists m, re_match RWZantParser.re_leading_digits t = Some m /\
                        group_str m 1 = digits
  end.
Proof.
  intros H. apply span_spec in H as (-> & F & S).
  unfold re_match, match_at, RWZantParser.re_leading_digits. cbn [seq].
  unfold plus, digit. rewrite exec_cat, exec_bol. cbn [m_prev].
  rewrite exec_grp, exec_cat, exec_cls. cbn [m_rest].
  destruct digits as [|d ds].
  - cbn [app]. destruct rest as [|c r]; [reflexivity|]. cbn in S. now rewrite S.
  - cbn [app]. cbn in F. apply andb_true_iff in F as [Fd F]. rewrite Fd.
    unfold advance. cbn [m_caps].
    rewrite (@exec_star_greedy_cls _ isdigit _ rest [] S ds (Some d) F) by discriminate.
    eexists. split; [reflexivity|].
    unfold group_str, group, close_group. cbn [mo_caps m_caps m_rest lookup Nat.eqb].
    change (d :: ds ++ rest) with ((d :: ds) ++ rest).
    apply firstn_consumed.
Qed.

Lemma firstn_digits (n : nat) (w : pystr) :
  forallb isdigit w = true -> forallb isdigit (firstn n w) = true.
Proof.
  revert n. induction w as [|c w IH]; intros [|n] F; try reflexivity.
  cbn in F |- *. apply andb_true_iff in F as [-> F]. now apply IH.
Qed.

Lemma rw_zant_extract_spec (text : pystr) :
  let (digits, rest) := span isdigit (strip text) in
  match RWZantParser.extract_product_id text with
  | (Some product_id, remaining) =>
      digits <> [] /\ product_id = firstn 6 digits /\
      RWZantParser.validate_product_id product_id = true /\
      remaining = (if 6 <? length digits
                   then skipn 6 digits ++ str " " ++ strip rest
                   else strip rest)
  | (None, remaining) => digits = [] /\ remaining = strip text
  end.
Proof.
  destruct (span isdigit (strip text)) as [digits rest] eqn:Sp.
  pose proof (rw_zant_leading_digits _ Sp) as M.
  apply span_spec in Sp as (E & F & S).
  unfold RWZantParser.extract_product_id.
  destruct digits as [|d ds].
  - rewrite M. auto.
  - destruct M as (m & -> & G). rewrite G.
    assert (Sk : skipn (length (d :: ds)) (strip text) = rest).
    { rewrite E. rewrite skipn_app, skipn_all, Nat.sub_diag. reflexivity. }
    rewrite Sk.
    destruct (6 <? length (d :: ds)) eqn:L.
    + split; [discriminate|]. split; [reflexivity|]. split; [|reflexivity].
      apply Nat.ltb_lt in L. unfold RWZantParser.validate_product_id, all_digits.
      rewrite (firstn_digits 6 _ F).
      assert (Len : length (firstn 6 (d :: ds)) = 6) by (apply firstn_length_le; lia).
      rewrite Len. destruct (firstn 6 (d :: ds)); [discriminate | reflexivity].
    + split; [discriminate|]. split; [|split; [|reflexivity]].
      * apply Nat.ltb_ge in L. symmetry. apply firstn_all2. exact L.
      * unfold RWZantParser.validate_product_id, all_digits. rewrite F, L. reflexivity.
Qed.



(** ** Kruse & Sons: the code *)

Lemma digit_isword (c : ascii) : isdigit c = true -> isword c = true.
Proof. unfold isword. intros ->. now rewrite orb_true_r. Qed.

(** The position after a code of one to three digits is a word boundary
    exactly when the text stops being a word there. *)
Lemma wordb_after_digits (w rest : pystr) (caps : list (nat * pystr)) (prev : option ascii) :
  w <> [] -> forallb isdigit w = true -> prev = last_chr None w ->
  at_wordb {| m_prev := prev; m_rest := rest; m_caps := caps |}
  = match rest with [] => true | c :: _ => negb (isword c) end.
Proof.
  intros N F ->. destruct (@last_chr_class isdigit None w N F) as (c & -> & Dc).
  unfold at_wordb. cbn [m_prev m_rest]. rewrite (@digit_isword c Dc).
  destruct rest; reflexivity.
Qed.

Lemma kruse_code_sound (t : pystr) (m : match_obj) :
  re_match KruseSonsParser.re_code t = Some m ->
  exists w rest, t = w ++ rest /\ 1 <= length w <= 3 /\ forallb isdigit w = true /\
                 stops isword rest /\ group_str m 1 = w.
Proof.
  intros H. apply re_match_sound in H as (st' & H & Caps & _).
  unfold KruseSonsParser.re_code in H. cbn [seq] in H.
  apply steps_cat_iff in H as (st1 & H1 & H). apply steps_bol_iff in H1 as [-> _].
  apply steps_cat_iff in H as (st2 & H2 & H3).
  apply steps_grp_iff in H2 as (st3 & H2 & ->).
  apply steps_between_cls in H2 as (w & L & F & R & P & C); [|lia].
  apply steps_wordb_iff in H3 as [-> W].
  cbn [m_rest m_prev m_caps] in R, P, C.
  assert (N : w <> []) by (destruct w; [cbn in L; lia | discriminate]).
  exists w, (m_rest st3).
  split; [exact R|]. split; [exact L|]. split; [exact F|]. split.
  - unfold close_group in W.
    rewrite (@wordb_after_digits w _ _ _ N F P) in W.
    destruct (m_rest st3); [exact I|]. cbn. now apply negb_true_iff.
  - unfold group_str, group. rewrite Caps. unfold close_group.
    cbn [m_caps m_rest lookup Nat.eqb]. rewrite R. apply firstn_consumed.
Qed.

Lemma kruse_code_complete (w rest : pystr) :
  1 <= length w <= 3 -> forallb isdigit w = true -> stops isword rest ->
  re_match KruseSonsParser.re_code (w ++ rest) <> None.
Proof.
  intros L F S.
  assert (N : w <> []) by (destruct w; [cbn in L; lia | discriminate]).
  set (st0 := {| m_prev := None; m_rest := w ++ rest; m_caps := [] |}).
  set (st3 := {| m_prev := last_chr None w; m_rest := rest; m_caps := [] |}).
  assert (H : steps KruseSonsParser.re_code st0 (close_group 1 st0 st3)).
  { unfold KruseSonsParser.re_code. cbn [seq].
    apply steps_cat_iff. exists st0. split; [now apply steps_bol_iff|].
    apply steps_cat_iff. exists (close_group 1 st0 st3). split.
    - apply steps_grp_iff. exists st3. split; [|reflexivity].
      apply steps_between_cls; [lia|]. exists w.
      split; [exact L|]. split; [exact F|]. repeat split.
    - apply steps_wordb_iff. split; [reflexivity|].
      unfold close_group, st3. cbn [m_prev m_rest m_caps].
      rewrite (@wordb_after_digits w _ _ _ N F eq_refl).
      destruct rest; [reflexivity|]. cbn in S. now rewrite S. }
  unfold re_match, match_at. fold st0.
  eapply exec_complete; [exact H | discriminate].
Qed.

Lemma stops_word_digit (rest : pystr) : stops isword rest -> stops isdigit rest.
Proof.
  destruct rest as [|c r]; [auto|]. cbn. intros H.
  destruct (isdigit c) eqn:D; [|reflexivity].
  now rewrite (@digit_isword c D) in H.
Qed.

(** A code of one to three digits is a code on its own. *)
Lemma kruse_code_only (w : pystr) :
  1 <= length w <= 3 -> forallb isdigit w = true ->
  is_some (re_match KruseSonsParser.re_code_only w) = true.
Proof.
  intros L F. apply re_match_iff.
  exists {| m_prev := last_chr None w; m_rest := []; m_caps := [] |}.
  unfold KruseSonsParser.re_code_only. cbn [seq].
  apply steps_cat_iff. eexists. split; [now apply steps_bol_iff|].
  apply steps_cat_iff. eexists. split; [|now apply steps_eol_iff].
  apply steps_between_cls; [lia|]. exists w.
  split; [exact L|]. split; [exact F|]. repeat split. cbn. now rewrite app_nil_r.
Qed.

Lemma kruse_extract_spec (text : pystr) :
  let (digits, rest) := span isdigit (strip text) in
  match KruseSonsParser.extract_product_id text with
  | (Some product_id, remaining) =>
      product_id = digits /\ 1 <= length digits <= 3 /\ stops isword rest /\
      KruseSonsParser.validate_product_id product_id = true /\
      remaining = strip rest
  | (None, remaining) =>
      remaining = strip text /\ ~ (1 <= length digits <= 3 /\ stops isword rest)
  end.
Proof.
  destruct (span isdigit (strip text)) as [digits rest] eqn:Sp.
  unfold KruseSonsParser.extract_product_id.
  destruct (re_match KruseSonsParser.re_code (strip text)) as [m|] eqn:M.
  - apply kruse_code_sound in M as (w & r & E & L & F & S & G).
    rewrite G, E in *.
    rewrite (@span_app_stop isdigit w r F (stops_word_digit _ S)) in Sp.
    injection Sp as <- <-.
    split; [reflexivity|]. split; [exact L|]. split; [exact S|]. split.
    + unfold KruseSonsParser.validate_product_id.
      destruct w as [|c w]; [cbn in L; lia|]. cbn [truthy negb].
      destruct (mem _ _); [reflexivity|].
      now rewrite (@kruse_code_only (c :: w) L F).
    + now rewrite skipn_app, skipn_all, Nat.sub_diag.
  - split; [reflexivity|]. intros (L & S).
    apply span_spec in Sp as (E & F & _).
    apply (@kruse_code_complete digits rest L F S). now rewrite <- E.
Qed.


Lemma row_raw_id_stripped (row : list cell) :
  strip (RWZantParser.row_raw_id row) = RWZantParser.row_raw_id row.
Proof.
  unfold RWZantParser.row_raw_id. destruct (RWZantParser.cell_truthy _); [|reflexivity].
  apply strip_idem.
Qed.

Lemma rw_zant_table_row_spec (row : list cell) (item : LineItem) :
  RWZantParser.parse_table_row row = Some item ->
  let (digits, _) := span isdigit (RWZantParser.row_raw_id row) in
  digits <> [] /\ item_product_id item = firstn 6 digits /\
  (exists price : cents,
     (price <= 100000)%N /\ item_cost item = str "$" ++ format_2f price) /\
  2 <= count_alpha (item_description item).
Proof.
  unfold RWZantParser.parse_table_row.
  destruct (length row <? 3); [discriminate|].
  destruct (RWZantParser.find_cost_idx row 0) as [cost_idx|]; [|discriminate].
  destruct (negb _ || _); [discriminate|].
  unfold RWZantParser.clean_cost, BaseParser.clean_cost.
  destruct (BaseParser.clean_cost_value _) as [price|] eqn:C; [|discriminate].
  cbn [option_map]. destruct (falsy _); [discriminate|].
  pose proof (rw_zant_extract_spec (RWZantParser.row_raw_id row)) as X.
  rewrite row_raw_id_stripped in X.
  destruct (span isdigit (RWZantParser.row_raw_id row)) as [digits rest].
  destruct (RWZantParser.extract_product_id _) as [[product_id|] extra_text];
    [|discriminate].
  destruct X as (N & -> & V & _).
  destruct (negb _ || _); [discriminate|].
  match goal with |- context [RWZantParser.is_valid_description ?d] =>
    set (description := d) end.
  destruct (RWZantParser.is_valid_description description) eqn:D; [|discriminate].
  intros [= <-]. cbn [item_product_id item_cost item_description].
  split; [exact N|]. split; [reflexivity|]. split.
  - exists price. split; [|reflexivity].
    unfold BaseParser.clean_cost_value in C.
    destruct (negb _); [discriminate|]. destruct (negb _); [discriminate|].
    destruct (re_search _ _); [|discriminate].
    destruct (float_of _) as [pv|]; [|discriminate].
    destruct (100000 <? pv)%N eqn:R; [discriminate|].
    injection C as <-. now apply N.ltb_ge in R.
  - unfold RWZantParser.is_valid_description, BaseParser.is_valid_description in D.
    destruct (negb _) in D; [discriminate|].
    destruct (count_alpha description <? 2) eqn:A; [discriminate|].
    now apply Nat.ltb_ge in A.
Qed.



Lemma kruse_table_row_spec (row : list cell) (item : LineItem) :
  KruseSonsParser.parse_table_row row = Some item ->
  (item_product_id item = str "N/A" \/
   forallb isdigit (item_product_id item) = true /\
   1 <= length (item_product_id item) <= 3) /\
  (exists price : cents,
     (1 <= price <= 999999)%N /\
     item_cost item = str "$" ++ format_2f price ++ str "/LB") /\
  item_description item = KruseSonsParser.clean_cell (nth 1 row None) /\
  2 <= count_alpha (item_description item) /\
  startswith (item_description item) (str "**") = false.
Proof.
  unfold KruseSonsParser.parse_table_row.
  destruct (length row <? 3) eqn:L3; [discriminate|].
  set (row_clean := map KruseSonsParser.clean_cell row).
  destruct (startswith (nth 1 row_clean []) (str "**")) eqn:St; [discriminate|].
  destruct (negb _ || _); [discriminate|].
  destruct (negb _ || negb (KruseSonsParser.is_valid_description _)) eqn:V;
    [discriminate|].
  destruct (KruseSonsParser.clean_cost _) as [cost|] eqn:C; [|discriminate].
  destruct (falsy _); [discriminate|].
  intros [= <-]. cbn [item_product_id item_cost item_description].
  split; [|split; [|split; [|split]]].
  - unfold KruseSonsParser.row_product_id.
    destruct (negb (truthy (nth 0 row_clean [])) || _); [now left|].
    pose proof (kruse_extract_spec (nth 0 row_clean [])) as X.
    destruct (span isdigit _) as [digits rest] eqn:Sp.
    destruct (KruseSonsParser.extract_product_id _) as [[product_id|] remaining];
      [|now left].
    destruct X as (-> & L & _ & _ & _).
    destruct (negb (truthy digits) || _); [now left|]. right.
    apply span_spec in Sp as (_ & F & _). split; assumption.
  - unfold KruseSonsParser.clean_cost in C.
    destruct (negb (truthy (last row_clean []))); [discriminate|].
    destruct (match re_search KruseSonsParser.re_decimal _ with
              | Some m => Some m | None => _ end); [|discriminate].
    destruct (float_of _) as [v|]; [|discriminate].
    destruct ((1 <=? v)%N && (v <=? 999999)%N) eqn:R; [|discriminate].
    cbn [negb] in C. injection C as <-. exists v. split; [|reflexivity].
    apply andb_true_iff in R as [R1 R2]. apply N.leb_le in R1, R2. lia.
  - exact (map_nth KruseSonsParser.clean_cell row None 1).
  - apply orb_false_iff in V as [_ V]. apply negb_false_iff in V.
    unfold KruseSonsParser.is_valid_description in V.
    destruct (negb _) in V; [discriminate|]. destruct (startswith _ _) in V; [discriminate|].
    destruct (count_alpha _ <? 2) eqn:A; [discriminate|]. now apply Nat.ltb_ge in A.
  - exact St.
Qed.



(** ** process_pdf: the first strategy that finds records *)

Lemma has_records_fails (d : list LineItem) :
  has_records d = false <-> strategy_fails (Ok d).
Proof. destruct d; cbn; split; intros; congruence. Qed.

Lemma ocr_stage_first (ex : Extractors) (filepath vendor : pystr)
    (before after : list (result (list LineItem))) (data : list LineItem) :
  [extract_image_tables ex filepath vendor] = before ++ Ok data :: after ->
  data <> [] -> ocr_stage ex filepath vendor = Ok data.
Proof.
  intros E N. destruct before as [|b [|b' before]]; try discriminate E.
  injection E as E _. unfold ocr_stage. rewrite E.
  destruct data; [contradiction | reflexivity].
Qed.

Lemma text_stage_first (ex : Extractors) (filepath vendor : pystr)
    (before after : list (result (list LineItem))) (data : list LineItem) :
  [extract_text_tables ex filepath vendor; extract_image_tables ex filepath vendor]
  = before ++ Ok data :: after ->
  Forall strategy_fails before ->
  data <> [] -> text_stage ex filepath vendor = Ok data.
Proof.
  intros E F N. unfold text_stage. destruct before as [|b before].
  - injection E as E _. rewrite E. destruct data; [contradiction | reflexivity].
  - injection E as Eb E. inversion F as [|x l Fb F']; subst.
    destruct (extract_text_tables ex filepath vendor) as [td|te].
    + apply has_records_fails in Fb. rewrite Fb. eapply ocr_stage_first; eassumption.
    + eapply ocr_stage_first; eassumption.
Qed.

Lemma image_stage_first (ex : Extractors) (filepath vendor : pystr)
    (before after : list (result (list LineItem))) (data : list LineItem) :
  (match image_block vendor with
   | Some _ => [extract_image_tables_structured ex filepath vendor]
   | None => []
   end)
  ++ [extract_text_tables ex filepath vendor; extract_image_tables ex filepath vendor]
  = before ++ Ok data :: after ->
  Forall strategy_fails before ->
  data <> [] ->
  (forall e, image_block vendor <> None ->
             extract_image_tables_structured ex filepath vendor <> Raise e) ->
  image_stage ex filepath vendor = Ok data.
Proof.
  intros E F N Img. unfold image_stage.
  destruct (image_block vendor) as [label|];
    [|eapply text_stage_first; eassumption].
  cbn [app] in E. destruct before as [|b before].
  - injection E as E _. rewrite E. destruct data; [contradiction | reflexivity].
  - injection E as Eb E. inversion F as [|x l Fb F']; subst.
    destruct (extract_image_tables_structured ex filepath vendor) as [idata|ie] eqn:Im.
    + apply has_records_fails in Fb. rewrite Fb. eapply text_stage_first; eassumption.
    + exfalso. now apply (Img ie).
Qed.



(** ** Words of the anchored patterns *)

Lemma reads_words_between (p : ascii -> bool) (lo hi : nat) :
  lo <= hi -> reads_words (between lo hi (Cls p)) (run_of p lo hi).
Proof.
  intros L st st'. rewrite (steps_between_cls p st st' L). unfold run_of.
  split; intros (w & H); exists w; tauto.
Qed.

Lemma reads_words_times (p : ascii -> bool) (n : nat) :
  reads_words (times n (Cls p)) (run_of p n n).
Proof.
  intros st st'. rewrite steps_times_cls. unfold run_of.
  split; intros (w & H); exists w; intuition lia.
Qed.

Lemma reads_words_lit (c : ascii) : reads_words (lit c) (fun w => w = [c]).
Proof.
  intros st st'. unfold lit. rewrite steps_cls_iff. split.
  - intros (x & E & R). apply Ascii.eqb_eq in E. subst x. eauto.
  - intros (w & -> & R). exists c. split; [apply Ascii.eqb_refl | exact R].
Qed.

Lemma at_eol_iff (st : mstate) :
  at_eol st = true <-> m_rest st = [] \/ m_rest st = [newline].
Proof.
  unfold at_eol. destruct (m_rest st) as [|c [|d t]].
  - split; auto.
  - split.
    + intros H. apply Ascii.eqb_eq in H. subst. now right.
    + intros [H | H]; [discriminate|]. injection H as ->. apply Ascii.eqb_refl.
  - split; [discriminate | intros [H | H]; discriminate].
Qed.

Lemma reads_to_end_eol : reads_to_end Eol (fun w => w = []).
Proof.
  intros st. split.
  - intros (st' & H). apply steps_eol_iff in H as [_ H]. apply at_eol_iff in H.
    exists []. split; [reflexivity | exact H].
  - intros (w & -> & H). exists st. apply steps_eol_iff. split; [reflexivity|].
    now apply at_eol_iff.
Qed.

Lemma reads_to_end_cat (r t : regex) (W1 W2 : pystr -> Prop) :
  reads_words r W1 -> reads_to_end t W2 ->
  reads_to_end (Cat r t) (fun w => exists u v, w = u ++ v /\ W1 u /\ W2 v).
Proof.
  intros H1 H2 st. split.
  - intros (st' & H). apply steps_cat_iff in H as (st1 & S1 & S2).
    apply H1 in S1 as (u & Wu & R & _).
    destruct (proj1 (H2 st1) (ex_intro _ st' S2)) as (v & Wv & E).
    exists (u ++ v). split; [exists u, v; auto|].
    rewrite R. destruct E as [-> | ->]; [now left | right; now rewrite app_assoc].
  - intros (w & (u & v & -> & Wu & Wv) & E).
    set (st1 := {| m_prev := last_chr (m_prev st) u;
                   m_rest := skipn (length u) (m_rest st); m_caps := m_caps st |}).
    assert (Sk : m_rest st = u ++ skipn (length u) (m_rest st)).
    { destruct E as [-> | ->]; rewrite <- ?app_assoc;
        now rewrite skipn_app, skipn_all, Nat.sub_diag. }
    assert (R : reads u st st1) by (repeat split; exact Sk).
    assert (E1 : m_rest st1 = v \/ m_rest st1 = v ++ [newline]).
    { cbn [st1 m_rest]. destruct E as [-> | ->]; rewrite <- ?app_assoc;
        rewrite skipn_app, skipn_all, Nat.sub_diag; cbn [skipn app]; auto. }
    destruct (proj2 (H2 st1) (ex_intro _ v (conj Wv E1))) as (st' & S2).
    exists st'. apply steps_cat_iff. exists st1. split; [|exact S2].
    apply H1. eauto.
Qed.

(** A pattern between [^] and [$], matched at the start of a string. *)
Lemma re_match_anchored (t : regex) (W : pystr -> Prop) (s : pystr) :
  reads_to_end t W ->
  is_some (re_match (Cat Bol t) s) = true <-> exists w, W w /\ up_to_newline w s.
Proof.
  intros H. rewrite re_match_iff.
  set (st0 := {| m_prev := None; m_rest := s; m_caps := [] |}).
  pose proof (H st0) as H0. cbn [st0 m_rest] in H0. unfold up_to_newline.
  rewrite <- H0. split.
  - intros (st' & S). apply steps_cat_iff in S as (st1 & S1 & S2).
    apply steps_bol_iff in S1 as [-> _]. eauto.
  - intros (st' & S). exists st'. apply steps_cat_iff. exists st0.
    split; [now apply steps_bol_iff | exact S].
Qed.

Lemma re_match_anchored_run (p : ascii -> bool) (lo hi : nat) (s : pystr) :
  lo <= hi ->
  is_some (re_match (seq [Bol; between lo hi (Cls p); Eol]) s) = true <->
  exists w, run_of p lo hi w /\ up_to_newline w s.
Proof.
  intros L. cbn [seq].
  rewrite (re_match_anchored s
             (reads_to_end_cat (reads_words_between p L) reads_to_end_eol)).
  split.
  - intros (w & (u & v & -> & Wu & ->) & E). rewrite app_nil_r in E. eauto.
  - intros (w & Ww & E). exists w. split; [|exact E].
    exists w, []. now rewrite app_nil_r.
Qed.

Lemma re_match_anchored_times (p : ascii -> bool) (n : nat) (s : pystr) :
  is_some (re_match (seq [Bol; times n (Cls p); Eol]) s) = true <->
  exists w, run_of p n n w /\ up_to_newline w s.
Proof.
  cbn [seq].
  rewrite (re_match_anchored s
             (reads_to_end_cat (reads_words_times p n) reads_to_end_eol)).
  split.
  - intros (w & (u & v & -> & Wu & ->) & E). rewrite app_nil_r in E. eauto.
  - intros (w & Ww & E). exists w. split; [|exact E].
    exists w, []. now rewrite app_nil_r.
Qed.

(** Two runs of digits with a hyphen between them. *)
Lemma re_match_anchored_hyphen (lo1 hi1 lo2 hi2 : nat) (s : pystr) :
  lo1 <= hi1 -> lo2 <= hi2 ->
  is_some (re_match (seq [Bol; between lo1 hi1 digit; lit "-";
                          between lo2 hi2 digit; Eol]) s) = true <->
  exists a b, run_of isdigit lo1 hi1 a /\ run_of isdigit lo2 hi2 b /\
              up_to_newline (a ++ "-"%char :: b) s.
Proof.
  intros L1 L2. cbn [seq]. unfold digit.
  rewrite (re_match_anchored s
             (reads_to_end_cat (reads_words_between isdigit L1)
                (reads_to_end_cat (reads_words_lit "-")
                   (reads_to_end_cat (reads_words_between isdigit L2)
                      reads_to_end_eol)))).
  split.
  - intros (w & (a & v & -> & Wa & (h & v2 & -> & -> & (b & e & -> & Wb & ->))) & E).
    rewrite app_nil_r in E. exists a, b. auto.
  - intros (a & b & Wa & Wb & E). exists (a ++ "-"%char :: b). split; [|exact E].
    exists a, ("-"%char :: b). split; [reflexivity|]. split; [exact Wa|].
    exists ["-"%char], b. split; [reflexivity|]. split; [reflexivity|].
    exists b, []. now rewrite app_nil_r.
Qed.

(** * gemini_parser.py: the id formats *)

Lemma is_some_if (A : Type) (o : option A) :
  (if is_some o then true else false) = is_some o.
Proof. now destruct o. Qed.

Lemma run_of_weaken (p : ascii -> bool) (lo hi lo' hi' : nat) (w : pystr) :
  run_of p lo hi w -> lo' <= lo -> hi <= hi' -> run_of p lo' hi' w.
Proof. unfold run_of. intros [F L] H1 H2. split; [exact F | lia]. Qed.


(** * gemini_parser.py: clean_product_data *)

Lemma gemini_clean_cost_form (cost_str c : pystr) :
  gemini_parser.clean_cost cost_str = Some c -> is_clean_cost c.
Proof.
  unfold gemini_parser.clean_cost.
  destruct (gemini_parser.clean_cost_value cost_str) as [v|] eqn:V; [|discriminate].
  cbn [option_map]. intros [= <-].
  destruct v as [| |price unit_part]; [now left | right; now left |].
  right. right. pose proof (@clean_cost_unit cost_str price unit_part V) as U.
  exists price, (upper unit_part). split; [|split; [exact U|]].
  - unfold gemini_parser.clean_cost_value in V.
    destruct (mem _ _); [discriminate|]. destruct (mem _ _); [discriminate|].
    destruct (re_search _ _); [|discriminate].
    destruct (float_of _) as [pv|]; [|discriminate].
    destruct ((1 <=? pv)%N && (pv <=? 9999999)%N) eqn:R; [|discriminate].
    injection V as -> _. apply andb_true_iff in R as [R1 R2].
    apply N.leb_le in R1, R2. lia.
  - cbn [format_cost]. destruct unit_part; [now rewrite app_nil_r | reflexivity].
Qed.

Lemma clean_product_data_spec
    (product_id description cost vendor : pystr) (item : LineItem) :
  clean_product_data product_id description cost vendor = Some item ->
  item_product_id item <> [] /\
  (item_product_id item = str "N/A" /\
   mem (upper (unquote product_id)) absent_spellings = true \/
   item_product_id item = unquote product_id /\
   product_id_format_ok (unquote product_id) vendor = true) /\
  item_description item = unquote description /\
  2 <= length (item_description item) /\
  gemini_parser.clean_cost (unquote cost) = Some (item_cost item) /\
  is_clean_cost (item_cost item).
Proof.
  unfold clean_product_data.
  destruct (unquote product_id) as [|c t] eqn:U; [discriminate|]. cbn [truthy negb].
  destruct (negb (truthy (unquote description)) || _) eqn:D; [discriminate|].
  destruct (negb (truthy (unquote cost))); [discriminate|].
  destruct (gemini_parser.clean_cost (unquote cost)) as [cost_text|] eqn:C; [|discriminate].
  destruct (falsy _); [discriminate|].
  fold absent_spellings.
  destruct (mem (upper (c :: t)) absent_spellings) eqn:M.
  - change (eqb (str "N/A") (str "N/A")) with true. cbn [negb andb].
    intros [= <-]. cbn [item_product_id item_description item_cost].
    split; [discriminate|]. split; [left; auto|]. split; [reflexivity|].
    split; [|split; [reflexivity | now apply (@gemini_clean_cost_form (unquote cost))]].
    apply orb_false_iff in D as [_ D]. now apply Nat.ltb_ge in D.
  - destruct (eqb (c :: t) (str "N/A")) eqn:E; cbn [negb andb].
    + apply eqb_eq in E. rewrite E in M. vm_compute in M. discriminate.
    + destruct (product_id_format_ok (c :: t) vendor) eqn:F; cbn [negb]; [|discriminate].
      intros [= <-]. cbn [item_product_id item_description item_cost].
      split; [discriminate|]. split; [right; auto|]. split; [reflexivity|].
      split; [|split; [reflexivity | now apply (@gemini_clean_cost_form (unquote cost))]].
      apply orb_false_iff in D as [_ D]. now apply Nat.ltb_ge in D.
Qed.




(** X19: a row whose id is one of the spellings of an absent id ("N/A", "NA"
    or "-", in any case, quoted or not) is treated alike for every vendor:
    the format of the vendor is not checked, and the id of the record is
    "N/A". *)
Theorem clean_product_data_absent_id
    (product_id description cost vendor other_vendor : pystr) :
  mem (upper (unquote product_id)) absent_spellings = true ->
  clean_product_data product_id description cost vendor
  = clean_product_data product_id description cost other_vendor /\
  forall item, clean_product_data product_id description cost vendor = Some item ->
               item_product_id item = str "N/A".
Proof.
  intros M. unfold clean_product_data. fold absent_spellings. rewrite M.
  change (eqb (str "N/A") (str "N/A")) with true. cbn [negb andb].
  split; [reflexivity|].
  intros item.
  destruct (negb (truthy (unquote product_id))); [discriminate|].
  destruct (negb (truthy (unquote description)) || _); [discriminate|].
  destruct (negb (truthy (unquote cost))); [discriminate|].
  destruct (gemini_parser.clean_cost (unquote cost)); [|discriminate].
  destruct (falsy _); [discriminate|]. now intros [= <-].
Qed.

Lemma clean_product_data_absent_id_witness :
  clean_product_data (str "na") (str "PORK LOIN") (str "$3.10") (str "kruse_sons")
  = clean_product_data (str "na") (str "PORK LOIN") (str "$3.10") (str "glen_rose") /\
  forall item,
    clean_product_data (str "na") (str "PORK LOIN") (str "$3.10") (str "kruse_sons")
    = Some item -> item_product_id item = str "N/A".
Proof.
  apply (@clean_product_data_absent_id (str "na") (str "PORK LOIN") (str "$3.10")
           (str "kruse_sons") (str "glen_rose")).
  reflexivity.
Defined.

(** * gemini_parser.py: the CSV answer *)

Lemma split_chr_nonempty (c : ascii) (s : pystr) : split_chr c s <> [].
Proof.
  induction s as [|x t IH]; cbn [split_chr]; [discriminate|].
  destruct (chr_eqb c x); [discriminate|]. destruct (split_chr c t); discriminate.
Qed.

Lemma plain_chr_inv (x : ascii) :
  plain_chr x = true -> chr_eqb x dquote = false /\ is_crnl x = false.
Proof.
  unfold plain_chr. intros H. apply negb_true_iff, orb_false_iff in H. exact H.
Qed.

(** On a line without quote or line break the reader is in the same
    position at the start of a field and inside a field. *)
Lemma process_line_plain (line : pystr) : forall r,
  forallb plain_chr line = true ->
  (cs_state r = START_FIELD /\ cs_field r = [] \/ cs_state r = IN_FIELD) ->
  process_line r line
  = Some {| cs_state := START_RECORD; cs_field := [];
            cs_fields := cs_fields r ++
                         match split_chr "," line with
                         | h :: t => (cs_field r ++ h) :: t
                         | [] => [cs_field r]
                         end |}.
Proof.
  induction line as [|x t IH]; intros r P St.
  - cbn [process_line split_chr]. rewrite app_nil_r.
    unfold parse_process_char. destruct St as [[-> _] | ->]; reflexivity.
  - cbn [forallb] in P. apply andb_true_iff in P as [Px P].
    apply plain_chr_inv in Px as [Q C].
    cbn [process_line split_chr].
    change (chr_eqb "," x) with (Ascii.eqb "," x). rewrite (Ascii.eqb_sym "," x).
    change (Ascii.eqb x ",") with (chr_eqb x ",").
    assert (Step : parse_process_char r (Some x)
                   = Some (if chr_eqb x ","
                           then set_state START_FIELD (parse_save_field r)
                           else set_state IN_FIELD (parse_add_char x r))).
    { unfold parse_process_char. destruct St as [[S F] | S]; rewrite S, C, ?Q.
      - destruct (chr_eqb x ","); [|reflexivity].
        destruct r as [s f fs]. cbn in S. subst s. reflexivity.
      - destruct (chr_eqb x ","); [reflexivity|].
        destruct r as [s f fs]. cbn in S. subst s. reflexivity. }
    rewrite Step. destruct (chr_eqb x ",").
    + rewrite IH; [|exact P | left; split; reflexivity].
      cbn [set_state parse_save_field cs_fields cs_field]. f_equal. f_equal.
      rewrite <- app_assoc, app_nil_r. cbn [app].
      destruct (split_chr "," t) eqn:E; [now elim (@split_chr_nonempty "," t)|].
      reflexivity.
    + rewrite IH; [|exact P | right; reflexivity].
      cbn [set_state parse_add_char cs_fields cs_field]. f_equal. f_equal. f_equal.
      destruct (split_chr "," t); [reflexivity|]. now rewrite <- app_assoc.
Qed.

Lemma lines_of_plain (s : pystr) : forall current,
  forallb plain_chr s = true ->
  lines_of s current = match current ++ s with [] => [] | l => [l] end.
Proof.
  induction s as [|c t IH]; intros current P.
  - cbn [lines_of]. rewrite app_nil_r. destruct current; reflexivity.
  - cbn [forallb] in P. apply andb_true_iff in P as [Pc P].
    apply plain_chr_inv in Pc as [_ C]. unfold is_crnl in C.
    apply orb_false_iff in C as [C _].
    cbn [lines_of]. rewrite C, (IH _ P), <- app_assoc. reflexivity.
Qed.

(** On a line without quote or line break the reader splits at the
    commas. *)
Lemma parse_csv_line_plain (line : pystr) :
  forallb plain_chr line = true -> parse_csv_line line = split_chr "," line.
Proof.
  intros P. unfold parse_csv_line. rewrite (@lines_of_plain line [] P). cbn [app].
  destruct line as [|x t]; [reflexivity|].
  cbn [reader_next].
  assert (E : process_line parse_reset (x :: t)
              = process_line (set_state START_FIELD parse_reset) (x :: t)).
  { cbn [forallb] in P. apply andb_true_iff in P as [Px _].
    apply plain_chr_inv in Px as [_ C].
    cbn [process_line].
    assert (E1 : parse_process_char parse_reset (Some x)
                 = parse_process_char (set_state START_FIELD parse_reset) (Some x)).
    { unfold parse_process_char, parse_reset, set_state. cbn [cs_state].
      now rewrite C. }
    now rewrite E1. }
  rewrite E, (@process_line_plain (x :: t) (set_state START_FIELD parse_reset) P)
    by (left; split; reflexivity).
  cbn [cs_state cs_fields cs_field set_state parse_reset app].
  destruct (split_chr "," (x :: t)) eqn:S; [now elim (@split_chr_nonempty "," (x :: t))|].
  reflexivity.
Qed.

Lemma split_chr_field (c : ascii) (f : pystr) :
  forallb (fun x => negb (chr_eqb c x)) f = true -> split_chr c f = [f].
Proof.
  induction f as [|x t IH]; [reflexivity|]. cbn [forallb split_chr]. intros H.
  apply andb_true_iff in H as [Hx Ht]. apply negb_true_iff in Hx.
  now rewrite Hx, (IH Ht).
Qed.

Lemma split_chr_app (c : ascii) (f rest : pystr) :
  forallb (fun x => negb (chr_eqb c x)) f = true ->
  split_chr c (f ++ c :: rest) = f :: split_chr c rest.
Proof.
  induction f as [|x t IH]; cbn [forallb app split_chr]; intros H.
  - unfold chr_eqb. now rewrite Ascii.eqb_refl.
  - apply andb_true_iff in H as [Hx Ht]. apply negb_true_iff in Hx.
    now rewrite Hx, (IH Ht).
Qed.

Lemma split_chr_join (c : ascii) (fields : list pystr) :
  fields <> [] ->
  Forall (fun f => forallb (fun x => negb (chr_eqb c x)) f = true) fields ->
  split_chr c (join [c] fields) = fields.
Proof.
  induction fields as [|f t IH]; [contradiction|]. intros _ F.
  inversion F as [|f' t' Hf Ht]; subst.
  destruct t as [|g t].
  - cbn [join]. now apply split_chr_field.
  - change (join [c] (f :: g :: t)) with (f ++ c :: join [c] (g :: t)).
    rewrite (@split_chr_app c f _ Hf), IH; [reflexivity | discriminate | exact Ht].
Qed.

(** X20: parse_csv_line gives back the fields of a line made of fields
    joined by commas, when no field has a comma, a quote or a line break. *)
Theorem parse_csv_line_join (fields : list pystr) :
  fields <> [] -> Forall plain_field fields ->
  parse_csv_line (join (str ",") fields) = fields.
Proof.
  intros N F.
  assert (Fc : Forall (fun f => forallb (fun x => negb (chr_eqb "," x)) f = true) fields).
  { eapply Forall_impl; [|exact F]. intros f H. unfold plain_field in H.
    rewrite forallb_forall in H |- *. intros x Hx. specialize (H x Hx).
    now apply andb_true_iff in H as [_ H]. }
  rewrite parse_csv_line_plain; [now apply split_chr_join|].
  clear N Fc. induction fields as [|f t IH]; [reflexivity|].
  inversion F as [|f' t' Hf Ht]; subst.
  assert (Pf : forallb plain_chr f = true).
  { unfold plain_field in Hf. rewrite forallb_forall in Hf |- *. intros x Hx.
    specialize (Hf x Hx). now apply andb_true_iff in Hf as [Hf _]. }
  destruct t as [|g t]; [exact Pf|].
  change (join (str ",") (f :: g :: t)) with (f ++ "," :: join (str ",") (g :: t))%char.
  rewrite forallb_app, Pf. cbn [forallb andb].
  change (plain_chr ",") with true. cbn [andb]. now apply IH.
Qed.

Lemma parse_csv_line_join_witness :
  parse_csv_line (str "711000005-01,BEEF CHUCK - 10 LB,$4.99/LB")
  = [str "711000005-01"; str "BEEF CHUCK - 10 LB"; str "$4.99/LB"].
Proof.
  apply (@parse_csv_line_join
           [str "711000005-01"; str "BEEF CHUCK - 10 LB"; str "$4.99/LB"]).
  - discriminate.
  - repeat constructor.
Defined.

Lemma keep_some_In {A B} (f : A -> option B) (l : list A) (b : B) :
  In b (keep_some f l) <-> exists a, In a l /\ f a = Some b.
Proof.
  induction l as [|a t IH]; cbn [keep_some].
  - split; [contradiction | intros (a & [] & _)].
  - destruct (f a) as [b'|] eqn:E.
    + cbn [In]. rewrite IH. split.
      * intros [<- | (x & Hx & Fx)]; [exists a; auto | exists x; auto].
      * intros (x & [<- | Hx] & Fx); [left; congruence | right; eauto].
    + rewrite IH. split.
      * intros (x & Hx & Fx). exists x. cbn; auto.
      * intros (x & [<- | Hx] & Fx); [congruence | eauto].
Qed.

(** X21: every record of parse_gemini_csv_response comes from one line of
    the answer through clean_product_data: its id is not empty and is
    "N/A" or in the format of the vendor, its description has at least two
    characters, and its cost is "OUT OF STOCK", "QUOTE REQUIRED" or a
    dollar amount between 0.01 and 99999.99. *)
Theorem parse_gemini_csv_response_records
    (response_text vendor : pystr) (item : LineItem) :
  In item (parse_gemini_csv_response response_text vendor) ->
  item_product_id item <> [] /\
  (item_product_id item = str "N/A" \/
   product_id_format_ok (item_product_id item) vendor = true) /\
  2 <= length (item_description item) /\
  is_clean_cost (item_cost item).
Proof.
  unfold parse_gemini_csv_response.
  destruct (split_chr newline _) as [|first rest]; [contradiction|].
  intros H. apply keep_some_In in H as (line & _ & H).
  unfold parse_data_line in H.
  destruct (negb (truthy (strip line))); [discriminate|].
  destruct (_ || _); [discriminate|].
  apply clean_product_data_spec in H as (N & Id & _ & L & _ & C).
  split; [exact N|]. split; [|split; assumption].
  destruct Id as [[E _] | [E F]]; [now left | right; now rewrite E].
Qed.

Lemma parse_gemini_csv_response_records_witness :
  let item := {| item_product_id := str "07";
                 item_description := str "HAM";
                 item_cost := str "$2.44" |} in
  item_product_id item <> [] /\
  (item_product_id item = str "N/A" \/
   product_id_format_ok (item_product_id item) (str "kruse_sons") = true) /\
  2 <= length (item_description item) /\
  is_clean_cost (item_cost item).
Proof.
  intros item.
  apply (@parse_gemini_csv_response_records
           ("`"%char :: "`"%char :: "`"%char :: str "csv" ++ newline
            :: str "Product ID,Product Description,Cost" ++ newline
            :: str "07,HAM,2.44" ++ newline :: str "1234,TURKEY,3.00" ++ newline
            :: ["`"%char; "`"%char; "`"%char])
           (str "kruse_sons") item).
  vm_compute. left. reflexivity.
Defined.

(** * ai_matcher.py: batch_match_products *)

Lemma requests_app (a b : list event) : requests (a ++ b) = requests a + requests b.
Proof. unfold requests. now rewrite filter_app, length_app. Qed.

Lemma match_product_with_gemini_requests
    (env : Env) (e : Extracted) (db : list Product) (thr : float_lit) :
  requests (fst (match_product_with_gemini env e db thr)) <= 1.
Proof.
  unfold match_product_with_gemini.
  destruct (negb (key_is_set env)); [cbn; lia|].
  destruct db; cbn; lia.
Qed.

(** One product: a result, or the error of the missing key, which only
    the AI-assisted matcher raises; at most one request. *)
Lemma match_one_outcome (env : Env) (product : Extracted) (db : list Product)
    (thr : float_lit) (use_id_only use_ai_fallback : bool) :
  let out := match_one env product db thr use_id_only use_ai_fallback in
  requests (fst out) <= 1 /\
  (use_id_only = true -> use_ai_fallback = false -> fst out = []) /\
  ((exists result, snd out = Ok result) \/
   snd out = Raise missing_key_error /\ key_is_set env = false /\
   (use_id_only = false \/ use_ai_fallback = true)).
Proof.
  cbv zeta.
  assert (AI : forall l,
    let out := match_product_with_gemini env product l thr in
    requests (fst out) <= 1 /\
    ((exists result, snd out = Ok result) \/
     snd out = Raise missing_key_error /\ key_is_set env = false)).
  { intros l. cbv zeta. split; [apply match_product_with_gemini_requests|].
    destruct (match_product_with_gemini_outcome env product l thr)
      as [[_ (t & r & E)] | [K E]]; rewrite E; cbn [snd]; [left; eauto | right; auto]. }
  unfold match_one. destruct use_id_only.
  - unfold match_product_by_id.
    assert (Z : forall r : MatchResult,
      requests (fst (@nil event, Ok r)) <= 1 /\
      (true = true -> use_ai_fallback = false -> fst (@nil event, Ok r) = []) /\
      ((exists result, snd (@nil event, Ok r) = Ok result) \/
       snd (@nil event, Ok r) = Raise missing_key_error /\ key_is_set env = false /\
       (true = false \/ use_ai_fallback = true))).
    { intros r. cbn. split; [lia|]. split; [reflexivity|]. left. eauto. }
    assert (G : forall l, use_ai_fallback = true ->
      let out := match_product_with_gemini env product l thr in
      requests (fst out) <= 1 /\
      (true = true -> use_ai_fallback = false -> fst out = []) /\
      ((exists result, snd out = Ok result) \/
       snd out = Raise missing_key_error /\ key_is_set env = false /\
       (true = false \/ use_ai_fallback = true))).
    { intros l U. cbv zeta. destruct (AI l) as [R O]. split; [exact R|].
      split; [intros _ F; congruence|].
      destruct O as [O | [O K]]; [left; exact O | right; auto]. }
    destruct db as [|q db]; [apply Z|].
    destruct (negb _ || eqb _ _).
    + destruct use_ai_fallback eqn:U; [now apply G | apply Z].
    + destruct (matching_products_of _ _) as [|m1 [|m2 ms]]; [apply Z | apply Z |].
      destruct (select_simplest_product_id _); [apply Z|].
      destruct (all_digits _ && _); cbn [andb]; [|apply Z].
      destruct use_ai_fallback eqn:U; [now apply G | apply Z].
  - destruct (AI db) as [R O]. split; [exact R|]. split; [discriminate|].
    destruct O as [O | [O K]]; [left; exact O | right; auto].
Qed.

Lemma batch_loop_spec (env : Env) (db : list Product) (thr : float_lit)
    (use_id_only use_ai_fallback : bool) (products : list Extracted) :
  forall calls results,
    let out := batch_loop env products db thr use_id_only use_ai_fallback calls results in
    requests (fst out) <= requests calls + length products /\
    (use_id_only = true -> use_ai_fallback = false -> fst out = calls) /\
    ((exists added,
        snd out = Ok (results ++ added) /\
        Forall2 (fun product result =>
                   snd (match_one env product db thr use_id_only use_ai_fallback)
                   = Ok result) products added) \/
     snd out = Raise missing_key_error /\ key_is_set env = false /\
     (use_id_only = false \/ use_ai_fallback = true)).
Proof.
  induction products as [|product rest IH]; intros calls results; cbv zeta.
  - cbn [batch_loop fst snd length]. split; [lia|]. split; [reflexivity|].
    left. exists []. rewrite app_nil_r. split; [reflexivity | constructor].
  - cbn [batch_loop length].
    destruct (match_one_outcome env product db thr use_id_only use_ai_fallback)
      as (R & Q & O).
    destruct (match_one env product db thr use_id_only use_ai_fallback)
      as [made [result | e]] eqn:M; cbn [fst snd] in R, Q, O.
    + specialize (IH (calls ++ made) (results ++ [result])). cbv zeta in IH.
      destruct IH as (R' & Q' & O'). rewrite requests_app in R'.
      split; [lia|]. split.
      * intros U F. rewrite (Q' U F), (Q U F). apply app_nil_r.
      * destruct O' as [(added & E & F2) | O']; [left | right; exact O'].
        exists (result :: added). rewrite E, <- app_assoc. split; [reflexivity|].
        constructor; [|exact F2]. now rewrite M.
    + cbn [fst snd]. rewrite requests_app. split; [lia|]. split.
      * intros U F. rewrite (Q U F). apply app_nil_r.
      * right. destruct O as [(r & O) | (O & K & W)]; [discriminate|].
        injection O as ->. auto.
Qed.


(** * app.py: file names *)

Lemma rsplit1_none (sep : ascii) (s : pystr) :
  app.rsplit1 sep s = None <-> contains_chr sep s = false.
Proof.
  unfold contains_chr. induction s as [|x t IH]; cbn [app.rsplit1 existsb].
  - split; reflexivity.
  - destruct (app.rsplit1 sep t) as [[b a]|] eqn:R.
    + split; [discriminate|]. intros H. apply orb_false_iff in H as [_ H].
      apply IH in H. discriminate.
    + destruct IH as [IH _]. rewrite (IH eq_refl), orb_false_r.
      unfold chr_eqb. rewrite (Ascii.eqb_sym sep x).
      destruct (Ascii.eqb x sep); split; congruence.
Qed.

Lemma rsplit1_some (sep : ascii) (s : pystr) : forall before after,
  app.rsplit1 sep s = Some (before, after) <->
  s = before ++ sep :: after /\ contains_chr sep after = false.
Proof.
  induction s as [|x t IH]; intros before after; cbn [app.rsplit1].
  - split; [discriminate|]. intros [E _]. destruct before; discriminate.
  - destruct (app.rsplit1 sep t) as [[b a]|] eqn:R.
    + destruct (IH b a) as [IH1 _]. destruct (IH1 eq_refl) as [-> Ca].
      split.
      * intros [= <- <-]. split; [reflexivity | exact Ca].
      * intros [E C]. destruct before as [|y before'].
        -- cbn [List.app] in E. injection E as -> E. subst after.
           unfold contains_chr in C. rewrite existsb_app in C. cbn [existsb] in C.
           unfold chr_eqb in C. rewrite Ascii.eqb_refl, orb_true_r in C. discriminate.
        -- cbn [List.app] in E. injection E as <- E.
           assert (X : Some (b, a) = Some (before', after))
             by (apply IH; split; [exact E | exact C]).
           injection X as <- <-. reflexivity.
    + apply rsplit1_none in R. split.
      * unfold chr_eqb. destruct (Ascii.eqb x sep) eqn:E; [|discriminate].
        apply Ascii.eqb_eq in E. subst x. intros [= <- <-]. split; [reflexivity | exact R].
      * intros [E C]. destruct before as [|y before'].
        -- cbn [List.app] in E. injection E as -> ->.
           unfold chr_eqb. now rewrite Ascii.eqb_refl.
        -- cbn [List.app] in E. injection E as <- E. subst t.
           unfold contains_chr in R. rewrite existsb_app in R. cbn [existsb] in R.
           unfold chr_eqb in R. rewrite Ascii.eqb_refl, orb_true_r in R. discriminate.
Qed.

Lemma lower_no_dot (s : pystr) : lower s = str "pdf" -> contains_chr "." s = false.
Proof.
  intros H.
  destruct s as [|a [|b [|c [|d s]]]]; try discriminate H.
  cbn in H. injection H as Ha Hb Hc.
  unfold contains_chr. cbn [existsb]. rewrite !orb_false_r.
  assert (Z : forall x y, lower_chr x = y -> isalpha y = true -> chr_eqb "." x = false).
  { intros x y E A. destruct (chr_eqb "." x) eqn:Q; [|reflexivity].
    apply Ascii.eqb_eq in Q. subst x. cbn in E. subst y. discriminate. }
  rewrite (Z a _ Ha eq_refl), (Z b _ Hb eq_refl), (Z c _ Hc eq_refl). reflexivity.
Qed.

(** X23: allowed_file accepts a name exactly when it ends with a dot and
    the extension pdf, in any case. *)
Theorem allowed_file_iff (filename : pystr) :
  app.allowed_file filename = true <->
  exists base extension,
    filename = base ++ str "." ++ extension /\ lower extension = str "pdf".
Proof.
  unfold app.allowed_file, app.ALLOWED_EXTENSIONS, mem. cbn [existsb].
  split.
  - destruct (contains_chr "." filename); [|discriminate]. cbn [negb].
    destruct (app.rsplit1 "." filename) as [[b a]|] eqn:R; [|discriminate].
    rewrite orb_false_r. intros E. apply eqb_eq in E.
    apply rsplit1_some in R as [-> _]. exists b, a. split; [reflexivity | exact E].
  - intros (base & extension & -> & L).
    assert (R : app.rsplit1 "." (base ++ str "." ++ extension) = Some (base, extension)).
    { apply rsplit1_some. split; [reflexivity | now apply lower_no_dot]. }
    rewrite R.
    assert (C : contains_chr "." (base ++ str "." ++ extension) = true).
    { unfold contains_chr. rewrite existsb_app. cbn. now rewrite orb_true_r. }
    rewrite C, L. reflexivity.
Qed.

(** ** The vendor of a file *)

(** The pattern of a leading run of a class, seen from [span]. *)
Lemma leading_run_match (p : ascii -> bool) (t run rest : pystr) :
  span p t = (run, rest) ->
  match run with
  | [] => re_match (seq [Bol; Grp 1 (plus (Cls p))]) t = None
  | _ :: _ => exists m, re_match (seq [Bol; Grp 1 (plus (Cls p))]) t = Some m /\
                        group_str m 1 = run
  end.
Proof.
  intros H. apply span_spec in H as (-> & F & S).
  unfold re_match, match_at. cbn [seq].
  unfold plus. rewrite exec_cat, exec_bol. cbn [m_prev].
  rewrite exec_grp, exec_cat, exec_cls. cbn [m_rest].
  destruct run as [|d ds].
  - cbn [List.app]. destruct rest as [|c r]; [reflexivity|]. cbn in S. now rewrite S.
  - cbn [List.app]. cbn in F. apply andb_true_iff in F as [Fd F]. rewrite Fd.
    unfold advance. cbn [m_caps].
    rewrite (@exec_star_greedy_cls _ p _ rest [] S ds (Some d) F) by discriminate.
    eexists. split; [reflexivity|].
    unfold group_str, group, close_group. cbn [mo_caps m_caps m_rest lookup Nat.eqb].
    change (d :: ds ++ rest) with ((d :: ds) ++ rest).
    apply firstn_consumed.
Qed.

Lemma extract_vendor_name_spec (filename : pystr) :
  let name := app.before_last_dot filename in
  let vendor_name := strip_by app.is_trim_chr (fst (span app.is_name_chr name)) in
  app.extract_vendor_name filename = if truthy vendor_name then vendor_name else name.
Proof.
  cbv zeta. unfold app.extract_vendor_name, app.re_vendor_name.
  destruct (span app.is_name_chr (app.before_last_dot filename)) as [run rest] eqn:Sp.
  pose proof (leading_run_match _ _ Sp) as M. cbn [fst].
  destruct run as [|c run].
  - rewrite M. reflexivity.
  - destruct M as (m & -> & ->). reflexivity.
Qed.


Lemma first_pattern_In (mapping : list (pystr * pystr)) (vendor_name : pystr) :
  In (app.first_pattern mapping vendor_name) (str "unknown" :: map snd mapping).
Proof.
  induction mapping as [|[pattern code] rest IH]; cbn [app.first_pattern map snd].
  - now left.
  - destruct (contains pattern vendor_name); [right; now left|].
    destruct IH as [IH | IH]; [now left | right; now right].
Qed.

Lemma detect_vendor_code_is_configured (filename : pystr) :
  app.configured (app.detect_vendor_code filename) = true.
Proof.
  assert (A : forallb app.configured (str "unknown" :: map snd app.VENDOR_NAME_MAPPING)
              = true) by (vm_compute; reflexivity).
  rewrite forallb_forall in A. apply A. apply first_pattern_In.
Qed.

(** X25: the vendor code detected for a file name is always a key of
    VENDOR_CONFIGS, so that process_single_pdf never raises: it returns the
    records of process_pdf with the status success, or no record with the
    status error and the text of the exception of process_pdf. *)
Theorem process_single_pdf_never_raises
    (path_join : pystr -> pystr -> pystr) (ex : Extractors)
    (filename session_folder : pystr) :
  let vendor_code := app.detect_vendor_code filename in
  In vendor_code (map fst VENDOR_CONFIGS) /\
  exists processed,
    app.process_single_pdf path_join ex filename session_folder = Ok processed /\
    app.p_vendor_code processed = vendor_code /\
    match process_pdf ex (path_join session_folder filename) vendor_code with
    | Ok extracted_data =>
        app.p_status processed = str "success" /\
        app.p_data processed = extracted_data /\ app.p_error processed = None
    | Raise e =>
        app.p_status processed = str "error" /\
        app.p_data processed = [] /\ app.p_error processed = Some (exn_msg e)
    end.
Proof.
  cbv zeta. pose proof (detect_vendor_code_is_configured filename) as C.
  split.
  - unfold app.configured, mem in C. apply existsb_exists in C as (k & Hk & E).
    apply eqb_eq in E. now subst k.
  - unfold app.process_single_pdf. rewrite C. cbn [negb].
    destruct (process_pdf ex _ _) as [data | e]; eexists; repeat split.
Qed.

(** * app.py: restructure_duplicate_products *)

Lemma group_add_keys (groups : list (pystr * list LineItem)) (item : LineItem) :
  map fst (app.group_add groups item)
  = if mem (item_product_id item) (map fst groups) then map fst groups
    else map fst groups ++ [item_product_id item].
Proof.
  unfold mem. induction groups as [|[pid items] rest IH]; cbn [app.group_add map fst existsb].
  - reflexivity.
  - destruct (eqb (item_product_id item) pid); cbn [orb map fst]; [reflexivity|].
    rewrite IH. destruct (existsb _ _); reflexivity.
Qed.

Lemma mem_In (s : pystr) (l : list pystr) : mem s l = true <-> In s l.
Proof.
  unfold mem. rewrite existsb_exists. split.
  - intros (x & Hx & E). apply eqb_eq in E. now subst.
  - intros H. exists s. split; [exact H | now apply eqb_eq].
Qed.

Lemma group_add_keys_In (groups : list (pystr * list LineItem)) (item : LineItem) (k : pystr) :
  In k (map fst (app.group_add groups item)) <->
  In k (map fst groups) \/ k = item_product_id item.
Proof.
  rewrite group_add_keys. destruct (mem _ _) eqn:M.
  - apply mem_In in M. split; [auto|]. intros [H | ->]; assumption.
  - rewrite in_app_iff. cbn [In]. split.
    + intros [H | [H | []]]; auto.
    + intros [H | ->]; auto.
Qed.

Lemma group_add_keys_NoDup (groups : list (pystr * list LineItem)) (item : LineItem) :
  NoDup (map fst groups) -> NoDup (map fst (app.group_add groups item)).
Proof.
  intros N. rewrite group_add_keys. destruct (mem _ _) eqn:M; [exact N|].
  apply NoDup_app; [exact N | repeat constructor; intros [] |].
  intros x Hx [<- | []]. apply mem_In in Hx. congruence.
Qed.

Lemma groups_keys (data : list LineItem) : forall groups,
  NoDup (map fst groups) ->
  NoDup (map fst (fold_left app.group_add data groups)) /\
  forall k, In k (map fst (fold_left app.group_add data groups)) <->
            In k (map fst groups) \/ In k (map item_product_id data).
Proof.
  induction data as [|item rest IH]; intros groups N; cbn [fold_left map In].
  - split; [exact N|]. intros k. tauto.
  - destruct (IH _ (group_add_keys_NoDup groups item N)) as [N' K].
    split; [exact N'|]. intros k. rewrite K, group_add_keys_In.
    intuition (subst; auto).
Qed.

Lemma restructure_group_id (group : pystr * list LineItem) :
  export_row_id (app.restructure_group group) = fst group.
Proof.
  destruct group as [pid items]. unfold app.restructure_group.
  destruct items as [|a [|b l]]; reflexivity.
Qed.

Lemma restructure_ids (data : list LineItem) :
  map export_row_id (app.restructure_duplicate_products data)
  = map fst (fold_left app.group_add data []).
Proof.
  unfold app.restructure_duplicate_products. rewrite map_map.
  apply map_ext. apply restructure_group_id.
Qed.

Lemma restructure_ids_spec (data : list LineItem) :
  let rows := app.restructure_duplicate_products data in
  NoDup (map export_row_id rows) /\
  forall product_id,
    In product_id (map export_row_id rows) <->
    In product_id (map item_product_id data).
Proof.
  cbv zeta. rewrite restructure_ids.
  destruct (@groups_keys data [] (NoDup_nil _)) as [N K].
  split; [exact N|]. intros k. rewrite K. cbn [map In]. tauto.
Qed.

Lemma group_add_new (groups : list (pystr * list LineItem)) (item : LineItem) :
  ~ In (item_product_id item) (map fst groups) ->
  app.group_add groups item = groups ++ [(item_product_id item, [item])].
Proof.
  induction groups as [|[pid items] rest IH]; cbn [app.group_add map fst In List.app]; intros H.
  - reflexivity.
  - destruct (eqb (item_product_id item) pid) eqn:E.
    + apply eqb_eq in E. exfalso. apply H. left. now symmetry.
    + rewrite IH; [reflexivity|]. intros X. apply H. now right.
Qed.

Lemma groups_without_duplicates (data : list LineItem) : forall groups,
  NoDup (map item_product_id data) ->
  (forall item, In item data -> ~ In (item_product_id item) (map fst groups)) ->
  fold_left app.group_add data groups
  = groups ++ map (fun item => (item_product_id item, [item])) data.
Proof.
  induction data as [|item rest IH]; intros groups N D; cbn [fold_left map].
  - now rewrite app_nil_r.
  - cbn [map] in N. inversion N as [|x l Hx Hl]; subst.
    rewrite (group_add_new groups item (D item (or_introl eq_refl))).
    rewrite IH; [now rewrite <- app_assoc | exact Hl |].
    intros other Ho. rewrite map_app, in_app_iff. cbn [map fst In].
    intros [X | [X | []]].
    + exact (D other (or_intror Ho) X).
    + apply Hx. rewrite X. now apply in_map.
Qed.

Lemma restructure_without_duplicates (data : list LineItem) :
  NoDup (map item_product_id data) ->
  app.restructure_duplicate_products data = map plain_row data.
Proof.
  intros N. unfold app.restructure_duplicate_products.
  rewrite (@groups_without_duplicates data [] N) by (intros item _ []).
  cbn [List.app]. rewrite map_map. reflexivity.
Qed.

(** X26: restructure_duplicate_products returns one row for every product
    id of the data and no other row: no two rows have the same id.  Data
    in which no two records have the same product id is exported as it is:
    one row of three columns per record, in the order of the records. *)
Theorem restructure_duplicate_products_rows (data : list LineItem) :
  let rows := app.restructure_duplicate_products data in
  NoDup (map export_row_id rows) /\
  (forall product_id,
     In product_id (map export_row_id rows) <->
     In product_id (map item_product_id data)) /\
  (NoDup (map item_product_id data) -> rows = map plain_row data).
Proof.
  cbv zeta. destruct (restructure_ids_spec data) as [N K].
  split; [exact N|]. split; [exact K|]. apply restructure_without_duplicates.
Qed.

Lemma restructure_duplicate_products_rows_witness :
  let ham := {| item_product_id := str "07"; item_description := str "HAM CASE";
                item_cost := str "$2.44/LB" |} in
  let loin := {| item_product_id := str "11"; item_description := str "PORK LOIN";
                 item_cost := str "$3.10/LB" |} in
  app.restructure_duplicate_products [ham; loin] = map plain_row [ham; loin].
Proof.
  intros ham loin.
  apply (proj2 (proj2 (@restructure_duplicate_products_rows [ham; loin]))).
  repeat constructor; cbn; intuition discriminate.
Defined.

(** * Text lines *)

(** ** What the cleaning of a description keeps *)

Lemma filter_lstrip_by (p q : ascii -> bool) (s : pystr) :
  (forall c, p c = true -> q c = false) ->
  filter q (lstrip_by p s) = filter q s.
Proof.
  intros H. induction s as [|c t IH]; [reflexivity|]. cbn [lstrip_by].
  destruct (p c) eqn:Pc; [|reflexivity]. cbn [filter]. now rewrite (H c Pc).
Qed.

Lemma filter_rstrip_by (p q : ascii -> bool) (s : pystr) :
  (forall c, p c = true -> q c = false) ->
  filter q (rstrip_by p s) = filter q s.
Proof.
  intros H. induction s as [|c t IH]; [reflexivity|]. cbn [rstrip_by].
  destruct (rstrip_by p t) as [|a l] eqn:R.
  - cbn [filter] in IH |- *. rewrite <- IH.
    destruct (p c) eqn:Pc; cbn [filter]; [now rewrite (H c Pc) | reflexivity].
  - cbn [filter]. cbn [filter] in IH. now rewrite IH.
Qed.

Lemma space_not_alpha (c : ascii) : isspace c = true -> isalpha c = false.
Proof. destruct c as [[] [] [] [] [] [] [] []]; try discriminate; reflexivity. Qed.

Lemma count_alpha_strip (s : pystr) : count_alpha (strip s) = count_alpha s.
Proof.
  unfold count_alpha, strip, strip_by.
  rewrite (@filter_rstrip_by isspace isalpha _ space_not_alpha).
  now rewrite (@filter_lstrip_by isspace isalpha _ space_not_alpha).
Qed.

Lemma sub_from_filter (q : ascii -> bool) (r : regex) (repl : pystr) :
  (forall w c, parse r w c -> filter q w = []) -> filter q repl = [] ->
  forall fuel prev s, filter q (sub_from r repl fuel prev s) = filter q s.
Proof.
  intros W R. induction fuel as [|f IH]; intros prev s; cbn [sub_from]; [reflexivity|].
  destruct (search_from r prev 0 s) as [m|] eqn:E; [|reflexivity].
  apply search_from_parse in E as (P & before & S & St).
  destruct (mo_text m) as [|x w] eqn:T; [reflexivity|].
  assert (Fs : firstn (mo_start m) s = before).
  { rewrite St, S. cbn [Nat.add].
    rewrite firstn_app, firstn_all, Nat.sub_diag. cbn [firstn]. apply app_nil_r. }
  rewrite Fs. clear Fs St. subst s.
  rewrite !filter_app, R, IH, (W _ _ P). reflexivity.
Qed.

Lemma spaces_no_alpha (w : pystr) (c : list (nat * pystr)) :
  parse (plus space) w c -> filter isalpha w = [].
Proof.
  intros H. apply parse_plus_cls in H as [F _].
  induction w as [|x t IH]; [reflexivity|]. cbn in F |- *.
  apply andb_true_iff in F as [Fx Ft]. rewrite (space_not_alpha x Fx). now apply IH.
Qed.

Lemma count_alpha_squeeze (s : pystr) :
  count_alpha (strip (re_sub (plus space) (str " ") s)) = count_alpha s.
Proof.
  rewrite count_alpha_strip. unfold count_alpha, re_sub.
  now rewrite (@sub_from_filter isalpha (plus space) (str " ") spaces_no_alpha eq_refl).
Qed.

(** ** RW Zant *)

Lemma rw_validate_run (product_id : pystr) :
  RWZantParser.validate_product_id product_id = true -> run_of isdigit 1 6 product_id.
Proof.
  unfold RWZantParser.validate_product_id, all_digits, run_of.
  destruct product_id as [|c t]; [discriminate|]. cbn [truthy negb andb].
  destruct (forallb isdigit (c :: t)); [|discriminate]. cbn [negb].
  destruct (6 <? length (c :: t)) eqn:L; [discriminate|]. intros _.
  apply Nat.ltb_ge in L. cbn [length] in *. split; [reflexivity | lia].
Qed.

Lemma base_clean_cost_form (cost_str cost : pystr) :
  BaseParser.clean_cost cost_str = Some cost ->
  exists price : cents, (price <= 100000)%N /\ cost = str "$" ++ format_2f price.
Proof.
  unfold BaseParser.clean_cost.
  destruct (BaseParser.clean_cost_value cost_str) as [price|] eqn:C; [|discriminate].
  cbn [option_map]. intros [= <-]. exists price. split; [|reflexivity].
  unfold BaseParser.clean_cost_value in C.
  destruct (negb _); [discriminate|]. destruct (negb _); [discriminate|].
  destruct (re_search _ _); [|discriminate].
  destruct (float_of _) as [pv|]; [|discriminate].
  destruct (100000 <? pv)%N eqn:R; [discriminate|].
  injection C as <-. now apply N.ltb_ge in R.
Qed.

Lemma base_valid_description (description : pystr) :
  BaseParser.is_valid_description description = true -> 2 <= count_alpha description.
Proof.
  unfold BaseParser.is_valid_description.
  destruct (negb _); [discriminate|].
  destruct (count_alpha description <? 2) eqn:A; [discriminate|]. intros _.
  now apply Nat.ltb_ge in A.
Qed.

Lemma rw_finish_record (product_id extra_text description : pystr)
    (cost_cleaned : option pystr) (item : LineItem) :
  RWZantParser.finish_text_line product_id extra_text description cost_cleaned = Some item ->
  item_product_id item = product_id /\
  run_of isdigit 1 6 (item_product_id item) /\
  2 <= count_alpha (item_description item) /\
  cost_cleaned = Some (item_cost item).
Proof.
  unfold RWZantParser.finish_text_line.
  match goal with |- context [RWZantParser.is_valid_description ?d] =>
    set (final := d) end.
  destruct (RWZantParser.validate_product_id product_id) eqn:V; [|discriminate].
  destruct (RWZantParser.is_valid_description final) eqn:D; [|discriminate].
  destruct cost_cleaned as [cost|]; [|discriminate].
  destruct (negb (falsy (Some cost))); [|discriminate]. cbn [andb].
  intros [= <-]. cbn [item_product_id item_cost item_description].
  split; [reflexivity|]. split; [now apply rw_validate_run|].
  split; [now apply base_valid_description | reflexivity].
Qed.

Lemma rw_finish_is_record (product_id extra_text description cost_str : pystr)
    (item : LineItem) :
  RWZantParser.finish_text_line product_id extra_text description
    (RWZantParser.clean_cost cost_str) = Some item ->
  rw_zant_record item.
Proof.
  intros H. apply rw_finish_record in H as (_ & R & A & C).
  split; [exact R|]. split; [|exact A].
  now apply base_clean_cost_form in C.
Qed.

Lemma rw_pattern_record (line : pystr) (item : LineItem) :
  RWZantParser.parse_text_line_pattern line = Some item -> rw_zant_record item.
Proof.
  unfold RWZantParser.parse_text_line_pattern.
  destruct (re_search _ line) as [m|]; [|discriminate]. cbv zeta.
  destruct (RWZantParser.extract_product_id _) as [[product_id|] extra_text];
    [|discriminate].
  destruct (negb (truthy product_id)); [discriminate|].
  apply rw_finish_is_record.
Qed.

Lemma rw_zant_text_line_spec (line : pystr) (item : LineItem) :
  RWZantParser.parse_text_line line = Some item ->
  rw_zant_record item /\ contains_chr "$" line = true.
Proof.
  unfold RWZantParser.parse_text_line.
  destruct (negb (truthy line) || _); [discriminate|].
  destruct (contains_chr "$" line); [|discriminate]. cbn [negb].
  destruct (contains _ _ || contains _ _); [discriminate|].
  cbv zeta. pose proof (@rw_pattern_record line item) as P2.
  destruct (3 <=? length _);
    [|intros H; split; [now apply P2 | reflexivity]].
  destruct (RWZantParser.find_dollar_idx _ 0) as [cost_idx|];
    [|intros H; split; [now apply P2 | reflexivity]].
  destruct (RWZantParser.extract_product_id _) as [[product_id|] extra_text];
    [|discriminate].
  destruct (negb (truthy product_id)); [discriminate|].
  destruct (RWZantParser.finish_text_line _ _ _ _) as [found|] eqn:F;
    [|intros H; split; [now apply P2 | reflexivity]].
  intros [= <-]. split; [|reflexivity]. now apply rw_finish_is_record in F.
Qed.



Lemma firstn_run (n : nat) (digits : pystr) :
  digits <> [] -> forallb isdigit digits = true -> 0 < n ->
  run_of isdigit 1 n (firstn n digits).
Proof.
  intros N F Pn. split; [now apply firstn_digits|].
  rewrite length_firstn. destruct digits; [contradiction|]. cbn [length]. lia.
Qed.

Lemma rw_zant_table_row_is_record (row : list cell) (item : LineItem) :
  RWZantParser.parse_table_row row = Some item -> rw_zant_record item.
Proof.
  intros H. pose proof (@rw_zant_table_row_spec row item H) as X.
  destruct (span isdigit (RWZantParser.row_raw_id row)) as [digits rest] eqn:Sp.
  destruct X as (N & E & C & A).
  apply span_spec in Sp as (_ & F & _).
  split; [|split; assumption]. rewrite E. apply firstn_run; [assumption | assumption | lia].
Qed.

(** ** Kruse & Sons *)

Lemma kruse_clean_cost_form (cost_str cost : pystr) :
  KruseSonsParser.clean_cost cost_str = Some cost ->
  exists price : cents,
    (1 <= price <= 999999)%N /\ cost = str "$" ++ format_2f price ++ str "/LB".
Proof.
  unfold KruseSonsParser.clean_cost.
  destruct (negb (truthy cost_str)); [discriminate|].
  destruct (match re_search KruseSonsParser.re_decimal _ with
            | Some m => Some m | None => _ end); [|discriminate].
  destruct (float_of _) as [v|]; [|discriminate].
  destruct ((1 <=? v)%N && (v <=? 999999)%N) eqn:R; [|discriminate].
  cbn [negb]. intros [= <-]. exists v. split; [|reflexivity].
  apply andb_true_iff in R as [R1 R2]. apply N.leb_le in R1, R2. lia.
Qed.

Lemma kruse_valid_description (description : pystr) :
  KruseSonsParser.is_valid_description description = true ->
  2 <= count_alpha description.
Proof.
  unfold KruseSonsParser.is_valid_description.
  destruct (negb _); [discriminate|]. destruct (startswith _ _); [discriminate|].
  destruct (count_alpha description <? 2) eqn:A; [discriminate|]. intros _.
  now apply Nat.ltb_ge in A.
Qed.

(** The first group of the two patterns of a line is a code. *)
Lemma kruse_line_code (line : pystr) (m : match_obj) :
  re_search KruseSonsParser.re_line line = Some m \/
  re_search KruseSonsParser.re_line_loose line = Some m ->
  run_of isdigit 1 3 (group_str m 1).
Proof.
  assert (Tail : forall w c,
    parse (seq [plus space; Grp 2 (lazy_plus dot); plus space;
                Grp 3 KruseSonsParser.re_price]) w c ->
    exists w2 w3, c = [(3, w3); (2, w2)]).
  { intros w c H. cbn [seq] in H.
    apply parse_cat in H as (u1 & v1 & c1 & c2 & _ & -> & H1 & H).
    apply parse_nogroups in H1 as ->; [|reflexivity].
    apply parse_cat in H as (u2 & v2 & c3 & c4 & _ & -> & H2 & H).
    apply parse_grp in H2 as (c5 & -> & H2).
    apply parse_nogroups in H2 as ->; [|reflexivity].
    apply parse_cat in H as (u3 & v3 & c6 & c7 & _ & -> & H3 & H).
    apply parse_nogroups in H3 as ->; [|reflexivity].
    apply parse_grp in H as (c8 & -> & H).
    apply parse_nogroups in H as ->; [|reflexivity].
    exists u2, v3. reflexivity. }
  intros [H | H]; apply re_search_parse in H; unfold group_str, group;
    revert H; generalize (mo_text m) (mo_caps m); intros w c H.
  - unfold KruseSonsParser.re_line in H. cbn [seq] in H.
    apply parse_cat in H as (u0 & v0 & c0 & c0' & _ & -> & H0 & H).
    apply parse_nogroups in H0 as ->; [|reflexivity].
    apply parse_cat in H as (u1 & v1 & c1 & c2 & _ & -> & H1 & H).
    apply parse_grp in H1 as (c3 & -> & H1).
    apply parse_between_cls in H1 as (F & N & L).
    assert (T : exists w2 w3, c2 = [(3, w3); (2, w2)]).
    { apply parse_cat in H as (u2 & v2 & c4 & c5 & _ & -> & H2 & H).
      apply parse_nogroups in H2 as ->; [|reflexivity].
      apply parse_cat in H as (u3 & v3 & c6 & c7 & _ & -> & H3 & H).
      apply parse_grp in H3 as (c8 & -> & H3).
      apply parse_nogroups in H3 as ->; [|reflexivity].
      apply parse_cat in H as (u4 & v4 & c9 & c10 & _ & -> & H4 & H).
      apply parse_nogroups in H4 as ->; [|reflexivity].
      apply parse_cat in H as (u5 & v5 & c11 & c12 & _ & -> & H5 & H).
      apply parse_grp in H5 as (c13 & -> & H5).
      apply parse_nogroups in H5 as ->; [|reflexivity].
      apply parse_nogroups in H as ->; [|reflexivity].
      exists u3, u5. reflexivity. }
    destruct T as (w2 & w3 & ->). cbn [List.app lookup Nat.eqb].
    split; [exact F | lia].
  - unfold KruseSonsParser.re_line_loose in H.
    change (seq (Grp 1 (between 1 3 digit) :: ?t)) with (Cat (Grp 1 (between 1 3 digit)) (seq t)) in H.
    apply parse_cat in H as (u1 & v1 & c1 & c2 & _ & -> & H1 & H).
    apply parse_grp in H1 as (c3 & -> & H1).
    apply parse_between_cls in H1 as (F & N & L).
    apply Tail in H as (w2 & w3 & ->). cbn [List.app lookup Nat.eqb].
    split; [exact F | lia].
Qed.

Lemma strip_digits (w : pystr) : forallb isdigit w = true -> strip w = w.
Proof. intros F. apply strip_by_free. now apply digits_no_space. Qed.

Lemma kruse_text_line_spec (line : pystr) (item : LineItem) :
  KruseSonsParser.parse_text_line line = Some item ->
  run_of isdigit 1 3 (item_product_id item) /\
  (exists price : cents,
     (1 <= price <= 999999)%N /\
     item_cost item = str "$" ++ format_2f price ++ str "/LB") /\
  2 <= count_alpha (item_description item) /\
  contains (str "**") line = false.
Proof.
  unfold KruseSonsParser.parse_text_line.
  destruct (negb (truthy line) || _); [discriminate|].
  destruct (negb _); [discriminate|].
  destruct (contains (str "**") line); [discriminate|]. cbv zeta.
  destruct (re_search KruseSonsParser.re_line line) as [m|] eqn:S1.
  - pose proof (@kruse_line_code line m (or_introl S1)) as G.
    revert G. generalize (group_str m 1) (group_str m 2) (group_str m 3).
    intros g1 g2 g3 G.
    destruct (negb (KruseSonsParser.validate_product_id _)); [discriminate|].
    destruct (negb (KruseSonsParser.is_valid_description _)) eqn:D; [discriminate|].
    destruct (KruseSonsParser.clean_cost _) as [cost|] eqn:C; [|discriminate].
    destruct (falsy _); [discriminate|]. intros [= <-].
    cbn [item_product_id item_cost item_description].
    destruct G as [F L]. rewrite (strip_digits _ F).
    split; [split; assumption|]. split; [now apply kruse_clean_cost_form in C|].
    split; [|reflexivity].
    apply negb_false_iff, kruse_valid_description in D.
    unfold KruseSonsParser.re_spaces. now rewrite count_alpha_squeeze.
  - destruct (re_search KruseSonsParser.re_line_loose line) as [m|] eqn:S2;
      [|discriminate].
    pose proof (@kruse_line_code line m (or_intror S2)) as G.
    revert G. generalize (group_str m 1) (group_str m 2) (group_str m 3).
    intros g1 g2 g3 G.
    destruct (negb (KruseSonsParser.validate_product_id _)); [discriminate|].
    destruct (negb (KruseSonsParser.is_valid_description _)) eqn:D; [discriminate|].
    destruct (KruseSonsParser.clean_cost _) as [cost|] eqn:C; [|discriminate].
    destruct (falsy _); [discriminate|]. intros [= <-].
    cbn [item_product_id item_cost item_description].
    destruct G as [F L]. rewrite (strip_digits _ F).
    split; [split; assumption|]. split; [now apply kruse_clean_cost_form in C|].
    split; [|reflexivity].
    apply negb_false_iff, kruse_valid_description in D.
    unfold KruseSonsParser.re_spaces. now rewrite count_alpha_squeeze.
Qed.



Lemma kruse_text_line_is_record (line : pystr) (item : LineItem) :
  KruseSonsParser.parse_text_line line = Some item -> kruse_record item.
Proof.
  intros H. apply kruse_text_line_spec in H as (R & C & A & _).
  split; [now right|]. split; assumption.
Qed.

Lemma kruse_table_row_is_record (row : list cell) (item : LineItem) :
  KruseSonsParser.parse_table_row row = Some item -> kruse_record item.
Proof.
  intros H. apply kruse_table_row_spec in H as (Id & C & _ & A & _).
  split; [|split; assumption].
  destruct Id as [Id | [F L]]; [now left | right; split; assumption].
Qed.

(** * pdf_processor.py: the extraction strategies *)

(** ** One record per product id *)

Lemma find_app {A} (f : A -> bool) (l l' : list A) :
  find f (l ++ l') = match find f l with Some x => Some x | None => find f l' end.
Proof.
  induction l as [|a l IH]; [reflexivity|]. cbn [List.app find].
  destruct (f a); [reflexivity | exact IH].
Qed.

Lemma find_none_iff (id : pystr) (found : list LineItem) :
  find (fun other => eqb (item_product_id other) id) found = None <->
  ~ In id (map item_product_id found).
Proof.
  induction found as [|a l IH]; cbn [find map In].
  - split; [intros _ [] | reflexivity].
  - destruct (eqb (item_product_id a) id) eqn:E.
    + apply eqb_eq in E. split; [discriminate | intros H; elim H; now left].
    + apply eqb_neq in E. rewrite IH. tauto.
Qed.

(** The invariant of the loops that keep the first record of an id:
    [existing_ids] holds the ids found so far, [extracted_data] the first
    record of each. *)
Lemma add_new_step (found data : list LineItem) (ids : list pystr) (x : LineItem) :
  (forall id, In id ids <-> In id (map item_product_id found)) ->
  firsts_of found data ->
  let out := pdf_tables.add_new [x] data ids in
  (forall id, In id (snd out) <-> In id (map item_product_id (found ++ [x]))) /\
  firsts_of (found ++ [x]) (fst out).
Proof.
  intros Ids [N F]. cbv zeta. cbn [pdf_tables.add_new].
  assert (Sub : forall item, In item data -> In (item_product_id item)
                                                (map item_product_id found)).
  { intros item H. apply F in H. unfold first_with_id in H.
    apply find_some in H as [H _]. now apply in_map. }
  destruct (mem (item_product_id x) ids) eqn:M; cbn [fst snd].
  - apply mem_In, Ids in M. split.
    + intros id. rewrite Ids, map_app, in_app_iff. cbn [map In].
      split; [auto|]. intros [H | [<- | []]]; assumption.
    + split; [exact N|]. intros item. rewrite F. unfold first_with_id.
      rewrite find_app.
      destruct (find _ found) as [y|] eqn:Fy; [reflexivity|].
      apply find_none_iff in Fy. cbn [find].
      destruct (eqb (item_product_id x) (item_product_id item)) eqn:E.
      * apply eqb_eq in E. rewrite <- E in Fy. contradiction.
      * split; discriminate.
  - assert (Nx : ~ In (item_product_id x) (map item_product_id found)).
    { intros H. apply Ids, mem_In in H. congruence. }
    split.
    + intros id. rewrite map_app, in_app_iff. cbn [map In]. rewrite Ids.
      split; [intros [<- | H]; auto | intros [H | [<- | []]]; auto].
    + split.
      * rewrite map_app. cbn [map]. apply NoDup_app; [exact N | repeat constructor; intros [] |].
        intros id Hd [<- | []]. apply Nx. apply in_map_iff in Hd as (it & E & Hit).
        rewrite <- E. now apply Sub.
      * intros item. rewrite in_app_iff. cbn [In]. unfold first_with_id.
        rewrite find_app. split.
        -- intros [H | [<- | []]].
           ++ apply F in H. unfold first_with_id in H. now rewrite H.
           ++ apply find_none_iff in Nx. rewrite Nx. cbn [find].
              assert (E : eqb (item_product_id x) (item_product_id x) = true)
                by now apply eqb_eq.
              now rewrite E.
        -- destruct (find _ found) as [y|] eqn:Fy.
           ++ intros [= ->]. left. now apply F.
           ++ cbn [find]. destruct (eqb _ _); [|discriminate].
              intros [= ->]. right. now left.
Qed.

Lemma add_new_cons (x : LineItem) (items data : list LineItem) (ids : list pystr) :
  pdf_tables.add_new (x :: items) data ids
  = pdf_tables.add_new items (fst (pdf_tables.add_new [x] data ids))
                       (snd (pdf_tables.add_new [x] data ids)).
Proof.
  cbn [pdf_tables.add_new]. destruct (mem _ _); reflexivity.
Qed.

Lemma add_new_firsts (items : list LineItem) : forall found data ids,
  (forall id, In id ids <-> In id (map item_product_id found)) ->
  firsts_of found data ->
  let out := pdf_tables.add_new items data ids in
  (forall id, In id (snd out) <-> In id (map item_product_id (found ++ items))) /\
  firsts_of (found ++ items) (fst out).
Proof.
  induction items as [|x items IH]; intros found data ids Ids F; cbv zeta.
  - cbn [pdf_tables.add_new fst snd]. rewrite app_nil_r. auto.
  - rewrite add_new_cons.
    destruct (@add_new_step found data ids x Ids F) as [Ids' F'].
    specialize (IH _ _ _ Ids' F'). cbv zeta in IH.
    rewrite <- app_assoc in IH. exact IH.
Qed.

Lemma text_pages_firsts (VP : list (pystr * pdf_tables.Parser)) (vendor : pystr)
    (pages : list (pdf_tables.HalfPage * pdf_tables.HalfPage)) :
  forall found data ids,
    (forall id, In id ids <-> In id (map item_product_id found)) ->
    firsts_of found data ->
    firsts_of (found ++ flat_map (halves_records VP vendor) pages)
              (pdf_tables.text_pages VP vendor pages data ids).
Proof.
  induction pages as [|[left_crop right_crop] rest IH]; intros found data ids Ids F.
  - cbn [pdf_tables.text_pages flat_map]. now rewrite app_nil_r.
  - cbn [pdf_tables.text_pages flat_map].
    destruct (@add_new_firsts (pdf_tables.process_half_page VP left_crop vendor)
                found data ids Ids F) as [Ids1 F1].
    destruct (pdf_tables.add_new (pdf_tables.process_half_page VP left_crop vendor) data ids)
      as [data1 ids1]. cbn [fst snd] in Ids1, F1.
    destruct (@add_new_firsts (pdf_tables.process_half_page VP right_crop vendor)
                _ data1 ids1 Ids1 F1) as [Ids2 F2].
    destruct (pdf_tables.add_new (pdf_tables.process_half_page VP right_crop vendor)
                data1 ids1) as [data2 ids2]. cbn [fst snd] in Ids2, F2.
    specialize (IH _ _ _ Ids2 F2).
    unfold halves_records at 1. cbn [fst snd].
    rewrite <- !app_assoc in IH. rewrite <- app_assoc. exact IH.
Qed.

Lemma firsts_of_nil : firsts_of [] [].
Proof.
  split; [constructor|]. intros item. unfold first_with_id. cbn. split; [intros [] | discriminate].
Qed.

Lemma structured_lines_add_new (parser : pdf_tables.Parser) (lines : list pystr) :
  forall data ids out,
    pdf_tables.structured_lines parser lines data ids = Ok out ->
    out = pdf_tables.add_new (keep_some (line_record parser) lines) data ids.
Proof.
  induction lines as [|line rest IH]; intros data ids out H;
    cbn [pdf_tables.structured_lines keep_some] in *.
  - now injection H as <-.
  - unfold line_record at 1.
    destruct (negb (truthy (strip line))); [now apply IH|].
    destruct (pdf_tables.parse_text_line parser line) as [[item|]|e];
      [| now apply IH | discriminate].
    cbn [pdf_tables.add_new].
    destruct (mem (item_product_id item) ids); now apply IH.
Qed.

Lemma structured_pages_firsts (parser : pdf_tables.Parser) (pages : list (result pystr)) :
  forall found data ids out,
    (forall id, In id ids <-> In id (map item_product_id found)) ->
    firsts_of found data ->
    pdf_tables.structured_pages parser pages data ids = Ok out ->
    firsts_of (found ++ flat_map (page_records parser) pages) out.
Proof.
  induction pages as [|[raw_text | e] rest IH]; intros found data ids out Ids F H;
    cbn [pdf_tables.structured_pages flat_map] in *; [| |discriminate].
  - injection H as <-. now rewrite app_nil_r.
  - destruct (pdf_tables.structured_lines parser _ data ids) as [[data1 ids1]|e] eqn:S;
      [|discriminate].
    apply structured_lines_add_new in S.
    destruct (@add_new_firsts (keep_some (line_record parser) (split_chr newline raw_text))
                found data ids Ids F) as [Ids1 F1].
    rewrite <- S in Ids1, F1. cbn [fst snd] in Ids1, F1.
    specialize (IH _ _ _ _ Ids1 F1 H).
    cbn [page_records]. now rewrite <- app_assoc in IH.
Qed.

(** X29: extract_text_tables and extract_image_tables_structured return, of
    the records found on the pages, the first one of every product id and
    nothing else: the ids of the result are pairwise different.  The
    records are read in the order of the pages, for a page of
    extract_text_tables the left half before the right half. *)
Theorem extraction_keeps_first_records
    (VENDOR_PARSERS : list (pystr * pdf_tables.Parser)) (vendor : pystr) :
  (forall pdf data,
     pdf_tables.extract_text_tables VENDOR_PARSERS pdf vendor = Ok data ->
     exists pages,
       pdf = Ok pages /\
       firsts_of (flat_map (halves_records VENDOR_PARSERS vendor) pages) data) /\
  (forall images data,
     pdf_tables.extract_image_tables_structured VENDOR_PARSERS images vendor = Ok data ->
     exists pages,
       images = Ok pages /\
       firsts_of (flat_map (page_records (pdf_tables.get_parser VENDOR_PARSERS vendor))
                           pages) data).
Proof.
  split.
  - intros pdf data. unfold pdf_tables.extract_text_tables.
    destruct (negb (pdf_tables.in_configs vendor)); [discriminate|].
    destruct pdf as [pages|e]; [|discriminate]. intros [= <-].
    exists pages. split; [reflexivity|].
    apply (@text_pages_firsts VENDOR_PARSERS vendor pages [] [] []);
      [intros id; reflexivity | apply firsts_of_nil].
  - intros images data. unfold pdf_tables.extract_image_tables_structured.
    destruct (negb (pdf_tables.in_configs vendor)); [discriminate|].
    destruct images as [pages|e]; [|discriminate]. intros H.
    exists pages. split; [reflexivity|].
    apply (@structured_pages_firsts _ pages [] [] [] data);
      [intros id; reflexivity | apply firsts_of_nil | exact H].
Qed.

Lemma extraction_keeps_first_records_witness :
  let registry := [(str "rw_zant", pdf_tables.RWZant)] in
  let text := str "103387  BEEF CHUCK ROLL  $4.99" ++ newline
              :: str "103387  BEEF CHUCK  $5.10" in
  let page :=
    ({| pdf_tables.extract_tables := Ok [];
        pdf_tables.extract_text := Ok (Some text) |},
     {| pdf_tables.extract_tables := Ok [];
        pdf_tables.extract_text := Ok None |}) in
  exists pages,
    Ok [page] = Ok pages /\
    firsts_of (flat_map (halves_records registry (str "rw_zant")) pages)
              [{| item_product_id := str "103387";
                  item_description := str "BEEF CHUCK ROLL";
                  item_cost := str "$4.99" |}].
Proof.
  intros registry text page.
  apply (proj1 (@extraction_keeps_first_records registry (str "rw_zant")) (Ok [page])).
  reflexivity.
Defined.

(** ** What the strategies return for a parser *)

Section Keeps.

Variable VP : list (pystr * pdf_tables.Parser).
Variable R : LineItem -> Prop.
Variable vendor : pystr.
Hypothesis K : parser_keeps R (pdf_tables.get_parser VP vendor).

Lemma Forall_snoc (l : list LineItem) (x : LineItem) :
  Forall R l -> R x -> Forall R (l ++ [x]).
Proof. intros Hl Hx. apply Forall_app. split; [exact Hl | now constructor]. Qed.

Lemma parse_rows_keeps (rows : pdf_tables.table) : forall parsed_data data,
  Forall R parsed_data ->
  pdf_tables.parse_rows (pdf_tables.get_parser VP vendor) rows parsed_data = Ok data ->
  Forall R data.
Proof.
  induction rows as [|row rest IH]; intros parsed_data data F H;
    cbn [pdf_tables.parse_rows] in H.
  - now injection H as <-.
  - destruct (length row <? 3); [now apply (IH parsed_data)|].
    destruct (length (pdf_tables.clean_row row) <? 3); [now apply (IH parsed_data)|].
    destruct (pdf_tables.parse_table_row _ _) as [[item|]|e] eqn:P;
      [| now apply (IH parsed_data) | discriminate].
    apply (IH (parsed_data ++ [item])); [|exact H].
    apply Forall_snoc; [exact F|]. destruct K as [K1 _]. exact (K1 _ _ P).
Qed.

Lemma parse_simple_table_keeps (table : pdf_tables.table) (data : list LineItem) :
  pdf_tables.parse_simple_table VP table vendor = Ok data -> Forall R data.
Proof.
  unfold pdf_tables.parse_simple_table.
  destruct (length table <? 2); [intros [= <-]; constructor|].
  now apply parse_rows_keeps.
Qed.

Lemma parse_lines_keeps (lines : list pystr) : forall parsed_data data,
  Forall R parsed_data ->
  pdf_tables.parse_lines (pdf_tables.get_parser VP vendor) lines parsed_data = Ok data ->
  Forall R data.
Proof.
  induction lines as [|line rest IH]; intros parsed_data data F H;
    cbn [pdf_tables.parse_lines] in H.
  - now injection H as <-.
  - destruct (negb (truthy (strip line))); [now apply (IH parsed_data)|].
    destruct (_ && _); [now apply (IH parsed_data)|].
    destruct (pdf_tables.parse_text_line _ _) as [[item|]|e] eqn:P;
      [| now apply (IH parsed_data) | discriminate].
    apply (IH (parsed_data ++ [item])); [|exact H].
    apply Forall_snoc; [exact F|]. destruct K as [_ K2]. exact (K2 _ _ P).
Qed.

Lemma parse_text_data_keeps (text : pystr) (data : list LineItem) :
  pdf_tables.parse_text_data VP text vendor = Ok data -> Forall R data.
Proof.
  unfold pdf_tables.parse_text_data.
  destruct (negb (truthy text)); [intros [= <-]; constructor|].
  now apply parse_lines_keeps.
Qed.

Lemma extend_tables_keeps (tables : list pdf_tables.table) : forall items,
  Forall R items -> Forall R (pdf_tables.extend_tables VP vendor tables items).
Proof.
  induction tables as [|table rest IH]; intros items F; cbn [pdf_tables.extend_tables].
  - exact F.
  - destruct (pdf_tables.parse_simple_table VP table vendor) as [parsed|e] eqn:P;
      [|exact F].
    apply IH. apply Forall_app. split; [exact F | now apply (parse_simple_table_keeps table)].
Qed.

Lemma process_half_page_keeps (cropped_page : pdf_tables.HalfPage) :
  Forall R (pdf_tables.process_half_page VP cropped_page vendor).
Proof.
  unfold pdf_tables.process_half_page.
  set (items := match pdf_tables.extract_tables cropped_page with
                | Ok tables => pdf_tables.extend_tables VP vendor tables []
                | Raise _ => []
                end).
  assert (F : Forall R items).
  { unfold items. destruct (pdf_tables.extract_tables cropped_page);
      [now apply extend_tables_keeps | constructor]. }
  destruct (has_records items); [exact F|].
  destruct (pdf_tables.extract_text cropped_page) as [[text|]|e]; try exact F.
  destruct (truthy text); [|exact F].
  destruct (pdf_tables.parse_text_data VP text vendor) as [parsed|e] eqn:P; [|exact F].
  apply Forall_app. split; [exact F | now apply (parse_text_data_keeps text)].
Qed.

Lemma add_new_keeps (items : list LineItem) : forall data ids,
  Forall R items -> Forall R data -> Forall R (fst (pdf_tables.add_new items data ids)).
Proof.
  induction items as [|x items IH]; intros data ids Fi Fd; cbn [pdf_tables.add_new].
  - exact Fd.
  - inversion Fi as [|x' l Rx Fl]; subst.
    destruct (mem _ _); [now apply IH|].
    apply IH; [exact Fl | now apply Forall_snoc].
Qed.

Lemma text_pages_keeps (pages : list (pdf_tables.HalfPage * pdf_tables.HalfPage)) :
  forall data ids, Forall R data -> Forall R (pdf_tables.text_pages VP vendor pages data ids).
Proof.
  induction pages as [|[left_crop right_crop] rest IH]; intros data ids F;
    cbn [pdf_tables.text_pages]; [exact F|].
  pose proof (@add_new_keeps (pdf_tables.process_half_page VP left_crop vendor) data ids
                (process_half_page_keeps left_crop) F) as F1.
  destruct (pdf_tables.add_new (pdf_tables.process_half_page VP left_crop vendor) data ids)
    as [data1 ids1]. cbn [fst] in F1.
  pose proof (@add_new_keeps (pdf_tables.process_half_page VP right_crop vendor) data1 ids1
                (process_half_page_keeps right_crop) F1) as F2.
  destruct (pdf_tables.add_new (pdf_tables.process_half_page VP right_crop vendor)
              data1 ids1) as [data2 ids2]. cbn [fst] in F2.
  now apply IH.
Qed.

Lemma extract_text_tables_keeps
    (pdf : result (list (pdf_tables.HalfPage * pdf_tables.HalfPage)))
    (data : list LineItem) :
  pdf_tables.extract_text_tables VP pdf vendor = Ok data -> Forall R data.
Proof.
  unfold pdf_tables.extract_text_tables.
  destruct (negb _); [discriminate|]. destruct pdf as [pages|e]; [|discriminate].
  intros [= <-]. apply text_pages_keeps. constructor.
Qed.

Lemma add_unseen_keeps (items : list LineItem) (ids : list pystr) : forall data,
  Forall R items -> Forall R data -> Forall R (pdf_tables.add_unseen items ids data).
Proof.
  induction items as [|x items IH]; intros data Fi Fd; cbn [pdf_tables.add_unseen].
  - exact Fd.
  - inversion Fi as [|x' l Rx Fl]; subst.
    destruct (mem _ _); [now apply IH|].
    apply IH; [exact Fl | now apply Forall_snoc].
Qed.

Lemma ocr_pages_keeps (pages : list (result pystr * result pystr)) :
  forall extracted_data data,
    Forall R extracted_data ->
    pdf_tables.ocr_pages VP vendor pages extracted_data = Ok data -> Forall R data.
Proof.
  induction pages as [|[[ocr_text|e] ocr_text_alt] rest IH]; intros extracted_data data F H;
    cbn [pdf_tables.ocr_pages] in H; [| |discriminate].
  - now injection H as <-.
  - destruct (pdf_tables.parse_text_data VP ocr_text vendor) as [parsed_data|e] eqn:P;
      [|discriminate].
    assert (F1 : Forall R (extracted_data ++ parsed_data)).
    { apply Forall_app. split; [exact F | now apply (parse_text_data_keeps ocr_text)]. }
    revert H. apply IH.
    destruct ocr_text_alt as [alt|e]; [|exact F1].
    destruct (pdf_tables.parse_text_data VP alt vendor) as [parsed_data_alt|e] eqn:P2;
      [|exact F1].
    apply add_unseen_keeps; [now apply (parse_text_data_keeps alt) | exact F1].
Qed.

Lemma extract_image_tables_keeps (images : result (list (result pystr * result pystr)))
    (data : list LineItem) :
  pdf_tables.extract_image_tables VP images vendor = Ok data -> Forall R data.
Proof.
  unfold pdf_tables.extract_image_tables.
  destruct (negb _); [discriminate|]. destruct images as [pages|e]; [|discriminate].
  apply ocr_pages_keeps. constructor.
Qed.

End Keeps.

Lemma rw_zant_parser_keeps : parser_keeps rw_zant_record pdf_tables.RWZant.
Proof.
  split.
  - intros row item [= H]. now apply rw_zant_table_row_is_record in H.
  - intros line item [= H]. now apply rw_zant_text_line_spec in H.
Qed.

Lemma no_gemini_no_image_block (vendor : pystr) :
  mem vendor gemini_vendors = false -> image_block vendor = None.
Proof.
  intros G. unfold image_block.
  assert (Z : forall v, mem v gemini_vendors = true -> eqb vendor v = false).
  { intros v Hv. destruct (eqb vendor v) eqn:E; [|reflexivity].
    apply eqb_eq in E. subst v. congruence. }
  rewrite !Z by reflexivity.
  destruct (mem vendor image_fallback_vendors) eqn:M; [|reflexivity].
  apply mem_In in M.
  assert (A : forallb (fun v => mem v gemini_vendors) image_fallback_vendors = true)
    by reflexivity.
  rewrite forallb_forall in A. rewrite (A _ M) in G. discriminate.
Qed.


